(** * Video workflow server: job orchestration core

    A shallow embedding of [video_workflow_server.py]: the [Job] record and
    its status machine, the worker loop [_worker], the per-job pipeline
    [_process_job] with its retry path, [cancel_job], the retention sweep
    [_cleanup_task] and the workflow builder [_generate_workflow].

    The server is a single asyncio event loop.  Code between two [await]s
    runs without interleaving, so every coroutine is cut at its suspension
    points and each piece becomes one atomic transition on the server state;
    the event loop is the nondeterministic choice of the next transition.

    Conventions.
    - Python [int] is [Z]; [float] and the wall clock are [Q] (rounding of
      binary floating point is not modelled).
    - [asyncio.CancelledError] derives from [BaseException] (Python 3.8 and
      later), so [except Exception] does not catch it.
    - [uuid.uuid4()] is an oracle for identifiers not yet in [jobs].
    - The clock is read once per atomic piece of code and never runs
      backwards. *)

From Stdlib Require Import QArith Qround Qminmax Lqa ZArith Lia Ascii.
From stdpp Require Import gmap strings list fin_maps pretty.

Set Warnings "-register-all".
Local Open Scope string_scope.

(** ** Configuration ([CONFIG]) *)

Record Config := {
  comfyui_url : string;
  max_concurrent_jobs : Z;
  upload_dir : string;
  output_dir : string;
  max_retries : Z;
  retry_delay : Q;
  cleanup_old_files : bool;
  cleanup_days : Q
}.

Definition CONFIG : Config := {|
  comfyui_url := "http://192.168.31.150:8001";
  max_concurrent_jobs := 1;
  upload_dir := "uploads";
  output_dir := "outputs";
  max_retries := 3;
  retry_delay := 5;
  cleanup_old_files := true;
  cleanup_days := 7
|}.

(** ** Data model *)

Inductive JobStatus :=
  PENDING | UPLOADING | PROCESSING | COMPLETED | FAILED | CANCELLED.

Inductive VideoFormat := MP4 | WEBM | GIF.

Record WorkflowConfig := {
  positive_prompt : string;
  negative_prompt : string;
  seed : Z;
  randomize_seed : bool;
  fps : Z;
  duration : Z;
  format : VideoFormat
}.

Module Job.
Record t := mk {
  id : string;
  filename : string;
  original_filename : string;
  filepath : string;
  status : JobStatus;
  progress : Q;
  config : option WorkflowConfig;
  comfy_prompt_id : option string;
  result_path : option string;
  error_message : option string;
  created_at : Q;
  started_at : option Q;
  completed_at : option Q;
  retry_count : Z
}.

Definition set_status (v : JobStatus) (j : t) : t :=
  mk (id j) (filename j) (original_filename j) (filepath j) v (progress j)
     (config j) (comfy_prompt_id j) (result_path j) (error_message j)
     (created_at j) (started_at j) (completed_at j) (retry_count j).
Definition set_progress (v : Q) (j : t) : t :=
  mk (id j) (filename j) (original_filename j) (filepath j) (status j) v
     (config j) (comfy_prompt_id j) (result_path j) (error_message j)
     (created_at j) (started_at j) (completed_at j) (retry_count j).
Definition set_comfy_prompt_id (v : option string) (j : t) : t :=
  mk (id j) (filename j) (original_filename j) (filepath j) (status j)
     (progress j) (config j) v (result_path j) (error_message j)
     (created_at j) (started_at j) (completed_at j) (retry_count j).
Definition set_result_path (v : option string) (j : t) : t :=
  mk (id j) (filename j) (original_filename j) (filepath j) (status j)
     (progress j) (config j) (comfy_prompt_id j) v (error_message j)
     (created_at j) (started_at j) (completed_at j) (retry_count j).
Definition set_error_message (v : option string) (j : t) : t :=
  mk (id j) (filename j) (original_filename j) (filepath j) (status j)
     (progress j) (config j) (comfy_prompt_id j) (result_path j) v
     (created_at j) (started_at j) (completed_at j) (retry_count j).
Definition set_started_at (v : option Q) (j : t) : t :=
  mk (id j) (filename j) (original_filename j) (filepath j) (status j)
     (progress j) (config j) (comfy_prompt_id j) (result_path j)
     (error_message j) (created_at j) v (completed_at j) (retry_count j).
Definition set_completed_at (v : option Q) (j : t) : t :=
  mk (id j) (filename j) (original_filename j) (filepath j) (status j)
     (progress j) (config j) (comfy_prompt_id j) (result_path j)
     (error_message j) (created_at j) (started_at j) v (retry_count j).
Definition set_retry_count (v : Z) (j : t) : t :=
  mk (id j) (filename j) (original_filename j) (filepath j) (status j)
     (progress j) (config j) (comfy_prompt_id j) (result_path j)
     (error_message j) (created_at j) (started_at j) (completed_at j) v.
End Job.

#[global] Instance JobStatus_eq_dec : EqDecision JobStatus.
Proof. solve_decision. Defined.

(** The three statuses the specification calls terminal. *)
Definition is_terminal (st : JobStatus) : bool :=
  match st with
  | COMPLETED | FAILED | CANCELLED => true
  | PENDING | UPLOADING | PROCESSING => false
  end.

(** [job.status in [PENDING, UPLOADING, PROCESSING]], the guard
    of [cancel_job]. *)
Definition cancellable (st : JobStatus) : bool :=
  match st with
  | PENDING | UPLOADING | PROCESSING => true
  | COMPLETED | FAILED | CANCELLED => false
  end.

(** Truth value of an [Optional[str]]: [None] and the empty string are
    false. *)
Definition truthy (o : option string) : bool :=
  match o with
  | Some (String _ _) => true
  | Some EmptyString | None => false
  end.

(** ** Workflow description *)

Inductive json :=
| JInt (n : Z)
| JFloat (q : Q)
| JStr (s : string)
| JList (l : list json)
| JDict (kv : list (string * json)).

Definition _get_default_workflow : json :=
  JDict [("3", JDict [
    ("inputs", JDict [
       ("seed", JInt 88888);
       ("steps", JInt 20);
       ("cfg", JFloat 7);
       ("sampler_name", JStr "euler");
       ("scheduler", JStr "normal");
       ("denoise", JFloat 1);
       ("model", JList [JStr "4"; JInt 0]);
       ("positive", JList [JStr "6"; JInt 0]);
       ("negative", JList [JStr "7"; JInt 0]);
       ("latent_image", JList [JStr "5"; JInt 0])]);
    ("class_type", JStr "KSampler")])].

(** State of [services/workflowTemplate.ts] as [_generate_workflow] finds
    it: missing, readable, or present but [open]/[read] raises. *)
Inductive TemplateFile :=
| NoTemplate
| Template (content : string)
| UnreadableTemplate (err : string).

(** [int(x)] on a float: truncation towards zero. *)
Definition int_of_Q (x : Q) : Z := Z.quot (Qnum x) (Zpos (Qden x)).

(** [_generate_workflow]: [inl] is the text of a raised exception.  The
    job's [config] is [None] only for a [Job] built without one; reading
    [config.seed] then raises [AttributeError]. *)
Definition _generate_workflow (tpl : TemplateFile) (now : Q)
    (image_filename : string) (config : option WorkflowConfig)
  : string + json :=
  let loaded :=
    match tpl with
    | NoTemplate => inr _get_default_workflow
    | Template content => inr _get_default_workflow
    | UnreadableTemplate err => inl err
    end in
  match loaded with
  | inl err => inl err
  | inr workflow =>
    match config with
    | None => inl "'NoneType' object has no attribute 'randomize_seed'"
    | Some c =>
      let seed :=
        if negb (randomize_seed c) then seed c
        else (int_of_Q (now * 1000) mod 1000000)%Z in
      inr workflow
    end
  end.

(** ** Files on disk *)

Record FileEntry := {
  fe_path : string;
  fe_is_file : bool;
  fe_mtime : Q
}.

(** Opening [path] with mode ['wb'] and writing at time [now]. *)
Definition write_file (path : string) (now : Q) (tree : list FileEntry)
  : list FileEntry :=
  filter (λ e, fe_path e ≠ path) tree
    ++ [{| fe_path := path; fe_is_file := true; fe_mtime := now |}].

(** ** Tasks and workers *)

(** Suspension points of [_process_job], with the local variables that
    are live there. *)
Inductive Await :=
| AtStart
| AtUpload
| AtSubmit (workflow : json)
| AtPoll (prompt_id : string) (start_time : Q)
| AtPollSleep (prompt_id : string) (start_time : Q)
| AtDownload (prompt_id : string)
| AtRetrySleep.

Inductive TaskResult :=
| Returned
| Raised (msg : string)
| WasCancelled.

(** An [asyncio.Task] running [_process_job]: suspended at a point, with
    the flag set by [Task.cancel()], or finished. *)
Inductive Task :=
| Live (a : Await) (must_cancel : bool)
| Done (r : TaskResult).

(** A [_worker] coroutine: blocked in [job_queue.get()], blocked in
    [await task], or terminated. *)
Inductive Worker :=
| Idle
| Busy (job_id : string) (t : Task)
| Stopped.

(** What the awaited operation hands back when a task is resumed:
    - [Go]: the task is scheduled for the first time, or a sleep is over;
    - [Uploaded name]: the upload answered 200 with [{"name": name}];
    - [Queued prompt_id]: the submission answered 200 with that identifier;
    - [History code entry]: the history request answered with status
      [code]; [entry] is [None] when [prompt_id] is not a key of the
      answer, otherwise the value of its ['status'] field, if any;
    - [Downloaded f]: [_download_result] went through, [f] being the
      ['filename'] of the video entry when it has one (its requests and
      file writes touch no job and are taken in one piece);
    - [Raise msg]: the awaited call raised an [Exception] with text
      [msg]. *)
Inductive Resume :=
| Go
| Uploaded (name : string)
| Queued (prompt_id : string)
| History (code : Z) (entry : option (option string))
| Downloaded (video_filename : option string)
| Raise (msg : string).

Inductive Next :=
| Suspend (a : Await)
| Finish (r : TaskResult).

(** ** Server state *)

(** [jobs], [job_queue] and [processing_tasks] are the attributes of
    [WorkflowServer]; a task handle in [processing_tasks] is the index of
    the worker awaiting it.  [cancelling] lists the [cancel_job] calls
    suspended in [session.delete].  The rest is the environment: the two
    directory listings, the template file and the wall clock. *)
Record WorkflowServer := {
  jobs : gmap string Job.t;
  job_queue : list string;
  processing_tasks : gmap string nat;
  workers : list Worker;
  cancelling : list string;
  upload_tree : list FileEntry;
  output_tree : list FileEntry;
  template : TemplateFile;
  clock : Q
}.

Definition set_jobs (v : gmap string Job.t) (s : WorkflowServer) :=
  {| jobs := v; job_queue := job_queue s;
     processing_tasks := processing_tasks s; workers := workers s;
     cancelling := cancelling s; upload_tree := upload_tree s;
     output_tree := output_tree s; template := template s;
     clock := clock s |}.
Definition set_job_queue (v : list string) (s : WorkflowServer) :=
  {| jobs := jobs s; job_queue := v;
     processing_tasks := processing_tasks s; workers := workers s;
     cancelling := cancelling s; upload_tree := upload_tree s;
     output_tree := output_tree s; template := template s;
     clock := clock s |}.
Definition set_processing_tasks (v : gmap string nat) (s : WorkflowServer) :=
  {| jobs := jobs s; job_queue := job_queue s;
     processing_tasks := v; workers := workers s;
     cancelling := cancelling s; upload_tree := upload_tree s;
     output_tree := output_tree s; template := template s;
     clock := clock s |}.
Definition set_workers (v : list Worker) (s : WorkflowServer) :=
  {| jobs := jobs s; job_queue := job_queue s;
     processing_tasks := processing_tasks s; workers := v;
     cancelling := cancelling s; upload_tree := upload_tree s;
     output_tree := output_tree s; template := template s;
     clock := clock s |}.
Definition set_cancelling (v : list string) (s : WorkflowServer) :=
  {| jobs := jobs s; job_queue := job_queue s;
     processing_tasks := processing_tasks s; workers := workers s;
     cancelling := v; upload_tree := upload_tree s;
     output_tree := output_tree s; template := template s;
     clock := clock s |}.
Definition set_upload_tree (v : list FileEntry) (s : WorkflowServer) :=
  {| jobs := jobs s; job_queue := job_queue s;
     processing_tasks := processing_tasks s; workers := workers s;
     cancelling := cancelling s; upload_tree := v;
     output_tree := output_tree s; template := template s;
     clock := clock s |}.
Definition set_output_tree (v : list FileEntry) (s : WorkflowServer) :=
  {| jobs := jobs s; job_queue := job_queue s;
     processing_tasks := processing_tasks s; workers := workers s;
     cancelling := cancelling s; upload_tree := upload_tree s;
     output_tree := v; template := template s;
     clock := clock s |}.
Definition set_clock (v : Q) (s : WorkflowServer) :=
  {| jobs := jobs s; job_queue := job_queue s;
     processing_tasks := processing_tasks s; workers := workers s;
     cancelling := cancelling s; upload_tree := upload_tree s;
     output_tree := output_tree s; template := template s;
     clock := v |}.

(** In-place mutation of the [Job] object stored under [key]. *)
Definition with_job (key : string) (f : Job.t → Job.t) (s : WorkflowServer)
  : WorkflowServer :=
  set_jobs (alter f key (jobs s)) s.

Definition set_worker (w : nat) (v : Worker) (s : WorkflowServer)
  : WorkflowServer :=
  set_workers (<[w := v]> (workers s)) s.

Definition Qltb (a b : Q) : bool := negb (Qle_bool b a).

(** [s.replace(c, d)] for one-character [c] and [d]. *)
Fixpoint replace_char (c d : Ascii.ascii) (s : string) : string :=
  match s with
  | EmptyString => EmptyString
  | String x s' =>
    String (if Ascii.eqb x c then d else x) (replace_char c d s')
  end.

(** Removal of the first occurrence of [x]. *)
Fixpoint remove_first (x : string) (l : list string) : list string :=
  match l with
  | [] => []
  | y :: l' => if String.eqb x y then l' else y :: remove_first x l'
  end.

(** ** Operations of the server *)

Section Operations.

Variable cfg : Config.

(** [__init__] followed by [start()]: no job, an empty queue and
    [max_concurrent_jobs] workers, each blocked in [job_queue.get()]. *)
Definition init_server (t0 : Q) (tpl : TemplateFile)
    (uploads outputs : list FileEntry) : WorkflowServer :=
  {| jobs := ∅; job_queue := []; processing_tasks := ∅;
     workers := replicate (Z.to_nat (max_concurrent_jobs cfg)) Idle;
     cancelling := [];
     upload_tree := uploads; output_tree := outputs;
     template := tpl; clock := t0 |}.

(** [queue_job] *)
Definition queue_job (job_id : string) (s : WorkflowServer) : WorkflowServer :=
  match jobs s !! job_id with
  | Some _ => set_job_queue (job_queue s ++ [job_id]) s
  | None => s
  end.

(** [create_job].  [job_id] is the value of [uuid.uuid4()]; the operation
    is defined for identifiers not yet in use. *)
Definition create_job (job_id : string) (upload_name : string)
    (config : WorkflowConfig) (s : WorkflowServer) : option WorkflowServer :=
  match jobs s !! job_id with
  | Some _ => None
  | None =>
    let timestamp := int_of_Q (clock s) in
    let safe_filename :=
      replace_char "/"%char "_"%char
        (replace_char " "%char "_"%char upload_name) in
    let filename := pretty timestamp ++ "_" ++ safe_filename in
    let filepath := upload_dir cfg ++ "/" ++ filename in
    let s := set_upload_tree (write_file filepath (clock s) (upload_tree s)) s in
    let job :=
      Job.mk job_id filename upload_name filepath PENDING 0 (Some config)
             None None None (clock s) None None 0 in
    let s := set_jobs (<[job_id := job]> (jobs s)) s in
    Some (set_job_queue (job_queue s ++ [job_id]) s)
  end.

(** [get_job] *)
Definition get_job (job_id : string) (s : WorkflowServer) : option Job.t :=
  jobs s !! job_id.

(** *** [_process_job] *)

(** The [except Exception] clause of [_process_job], up to its
    [asyncio.sleep]. *)
Definition on_exception (key : string) (msg : string) (s : WorkflowServer)
  : option (WorkflowServer * Next) :=
  let s := with_job key (Job.set_status FAILED) s in
  let s := with_job key (Job.set_error_message (Some msg)) s in
  job ← jobs s !! key;
  if (Job.retry_count job <? max_retries cfg)%Z then
    let s := with_job key (Job.set_retry_count (Job.retry_count job + 1)) s in
    Some (s, Suspend AtRetrySleep)
  else Some (s, Finish Returned).

Definition max_wait : Q := 300.

(** Head of the [while] loop of [_wait_for_completion]. *)
Definition wait_loop (key prompt_id : string) (start_time : Q)
    (s : WorkflowServer) : option (WorkflowServer * Next) :=
  if Qltb (clock s - start_time) max_wait then
    Some (s, Suspend (AtPoll prompt_id start_time))
  else
    on_exception key
      ("ComfyUI execution timeout for prompt " ++ prompt_id) s.

(** The test on the history response in [_wait_for_completion]. *)
Definition history_completed (prompt_id : string) (code : Z)
    (entry : option (option string)) : bool :=
  (code =? 200)%Z &&
  match entry with
  | Some (Some st) => String.eqb st "completed"
  | _ => false
  end.

(** One atomic piece of [_process_job]: the task is at suspension point
    [a] and is resumed with [r].  [None] when [r] is not something the
    operation awaited at [a] can produce. *)
Definition _process_job (key : string) (a : Await) (r : Resume)
    (s : WorkflowServer) : option (WorkflowServer * Next) :=
  job ← jobs s !! key;
  match a, r with
  | AtStart, Go =>
    let s := with_job key (Job.set_status UPLOADING) s in
    let s := with_job key (Job.set_started_at (Some (clock s))) s in
    let s := with_job key (Job.set_progress 10) s in
    Some (s, Suspend AtUpload)
  | AtUpload, Uploaded uploaded_filename =>
    let s := with_job key (Job.set_progress 30) s in
    match _generate_workflow (template s) (clock s) uploaded_filename
                             (Job.config job) with
    | inl err => on_exception key err s
    | inr workflow =>
      let s := with_job key (Job.set_progress 40) s in
      let s := with_job key (Job.set_status PROCESSING) s in
      Some (s, Suspend (AtSubmit workflow))
    end
  | AtSubmit _, Queued prompt_id =>
    let s := with_job key (Job.set_comfy_prompt_id (Some prompt_id)) s in
    let s := with_job key (Job.set_progress 50) s in
    wait_loop key prompt_id (clock s) s
  | AtPoll prompt_id start_time, History code entry =>
    if history_completed prompt_id code entry then
      let s := with_job key (Job.set_progress 80) s in
      Some (s, Suspend (AtDownload prompt_id))
    else
      let elapsed := (clock s - start_time)%Q in
      let s :=
        with_job key
          (Job.set_progress (50 + Qmin 30 (elapsed / max_wait * 30))) s in
      Some (s, Suspend (AtPollSleep prompt_id start_time))
  | AtPollSleep prompt_id start_time, Go =>
    wait_loop key prompt_id start_time s
  | AtDownload prompt_id, Downloaded video_filename =>
    let filename := default "output.mp4" video_filename in
    let output_filename := Job.id job ++ "_" ++ filename in
    let output_path := output_dir cfg ++ "/" ++ output_filename in
    let s :=
      set_output_tree (write_file output_path (clock s) (output_tree s)) s in
    let s := with_job key (Job.set_result_path (Some output_path)) s in
    let s := with_job key (Job.set_progress 100) s in
    let s := with_job key (Job.set_status COMPLETED) s in
    let s := with_job key (Job.set_completed_at (Some (clock s))) s in
    Some (s, Finish Returned)
  | AtUpload, Raise msg
  | AtSubmit _, Raise msg
  | AtPoll _ _, Raise msg
  | AtDownload _, Raise msg => on_exception key msg s
  | AtRetrySleep, Go => Some (queue_job (Job.id job) s, Finish Returned)
  | _, _ => None
  end.

(** Resuming the task awaited by worker [w].  A task on which
    [Task.cancel()] was called receives [CancelledError] instead of its
    result; no clause of [_process_job] catches it. *)
Definition task_resume (w : nat) (r : Resume) (s : WorkflowServer)
  : option WorkflowServer :=
  match workers s !! w with
  | Some (Busy key (Live a must_cancel)) =>
    if must_cancel then Some (set_worker w (Busy key (Done WasCancelled)) s)
    else
      '(s', next) ← _process_job key a r s;
      match next with
      | Suspend a' => Some (set_worker w (Busy key (Live a' false)) s')
      | Finish res => Some (set_worker w (Busy key (Done res)) s')
      end
  | _ => None
  end.

(** *** [_worker] *)

(** [job_queue.get()] returns in worker [w]: the identifier is looked up,
    skipped when unknown, otherwise a task is created for it and
    registered. *)
Definition worker_get (w : nat) (s : WorkflowServer) : option WorkflowServer :=
  match workers s !! w, job_queue s with
  | Some Idle, job_id :: rest =>
    let s := set_job_queue rest s in
    match jobs s !! job_id with
    | None => Some s
    | Some job =>
      let s := set_worker w (Busy job_id (Live AtStart false)) s in
      Some (set_processing_tasks (<[job_id := w]> (processing_tasks s)) s)
    end
  | _, _ => None
  end.

(** How [_worker] leaves [await task]: an [Exception] is logged and the
    loop goes on; [CancelledError] passes both [except Exception] clauses
    and ends the coroutine. *)
Definition after_task (r : TaskResult) : Worker :=
  match r with
  | Returned => Idle
  | Raised _ => Idle
  | WasCancelled => Stopped
  end.

(** [await task] returns in worker [w]; the [finally] clause runs. *)
Definition worker_wake (w : nat) (s : WorkflowServer) : option WorkflowServer :=
  match workers s !! w with
  | Some (Busy job_id (Done r)) =>
    let s := set_processing_tasks (delete job_id (processing_tasks s)) s in
    Some (set_worker w (after_task r) s)
  | _ => None
  end.

(** *** [cancel_job] *)

(** [Task.cancel()] on the task awaited by worker [h]. *)
Definition task_cancel (h : nat) (s : WorkflowServer) : WorkflowServer :=
  match workers s !! h with
  | Some (Busy key (Live a _)) => set_worker h (Busy key (Live a true)) s
  | _ => s
  end.

Definition cancel_processing_task (job_id : string) (s : WorkflowServer)
  : WorkflowServer :=
  match processing_tasks s !! job_id with
  | Some h => task_cancel h s
  | None => s
  end.

Inductive CancelStep :=
| CancelReturn (b : bool)
| CancelAwaitDelete (prompt_id : string).

(** [cancel_job] up to its return or to the [await] of [session.delete]. *)
Definition cancel_job (job_id : string) (s : WorkflowServer)
  : WorkflowServer * CancelStep :=
  match jobs s !! job_id with
  | Some job =>
    if cancellable (Job.status job) then
      let s := with_job job_id (Job.set_status CANCELLED) s in
      if truthy (Job.comfy_prompt_id job) then
        (set_cancelling (cancelling s ++ [job_id]) s,
         CancelAwaitDelete (default "" (Job.comfy_prompt_id job)))
      else (cancel_processing_task job_id s, CancelReturn true)
    else (s, CancelReturn false)
  | None => (s, CancelReturn false)
  end.

(** [cancel_job] after [session.delete]: whatever the backend answered
    or raised is only logged. *)
Definition cancel_job_resume (job_id : string) (s : WorkflowServer)
  : WorkflowServer * bool :=
  (cancel_processing_task job_id s, true).

(** The value a call of [cancel_job] returns in the end. *)
Definition cancel_job_result (c : CancelStep) : bool :=
  match c with
  | CancelReturn b => b
  | CancelAwaitDelete _ => true
  end.

(** *** [_cleanup_task] *)

(** One [for file in dir.rglob("*")] loop.  [io_fails] tells for which
    regular files [file.stat()] or [file.unlink()] raises; the flag of the
    result is [false] when the loop was left by an exception. *)
Fixpoint sweep (cutoff_time : Q) (io_fails : string → bool)
    (tree : list FileEntry) : list FileEntry * bool :=
  match tree with
  | [] => ([], true)
  | file :: rest =>
    if fe_is_file file then
      if io_fails (fe_path file) then (file :: rest, false)
      else if Qltb (fe_mtime file) cutoff_time then
        sweep cutoff_time io_fails rest
      else
        let '(rest', ok) := sweep cutoff_time io_fails rest in
        (file :: rest', ok)
    else
      let '(rest', ok) := sweep cutoff_time io_fails rest in
      (file :: rest', ok)
  end.

(** One pass of the [while True] loop of [_cleanup_task]; an exception
    is logged and ends the pass. *)
Definition _cleanup_task (io_fails : string → bool) (s : WorkflowServer)
  : WorkflowServer :=
  let cutoff_time := (clock s - cleanup_days cfg * 24 * 3600)%Q in
  let '(uploads, ok) := sweep cutoff_time io_fails (upload_tree s) in
  let s := set_upload_tree uploads s in
  if ok then
    let '(outputs, _) := sweep cutoff_time io_fails (output_tree s) in
    set_output_tree outputs s
  else s.

(** ** The event loop *)

(** What can happen next:
    - [Tick t]: the wall clock moves on to [t];
    - [CreateJob]: a client request reaches [create_job], the upload
      having been written to disk;
    - [WorkerGet w]: [job_queue.get()] returns in worker [w];
    - [TaskResume w r]: the task awaited by worker [w] runs its next piece;
    - [WorkerWake w]: worker [w] resumes after its task has finished;
    - [CancelJob], [CancelResume]: a client request runs [cancel_job] up
      to its [await], a suspended one runs to its end;
    - [Cleanup]: [_cleanup_task] makes one pass. *)
Inductive Event :=
| Tick (t : Q)
| CreateJob (job_id upload_name : string) (config : WorkflowConfig)
| WorkerGet (w : nat)
| TaskResume (w : nat) (r : Resume)
| WorkerWake (w : nat)
| CancelJob (job_id : string)
| CancelResume (job_id : string)
| Cleanup (io_fails : string → bool).

Definition step (e : Event) (s : WorkflowServer) : option WorkflowServer :=
  match e with
  | Tick t => if Qle_bool (clock s) t then Some (set_clock t s) else None
  | CreateJob job_id upload_name config =>
    create_job job_id upload_name config s
  | WorkerGet w => worker_get w s
  | TaskResume w r => task_resume w r s
  | WorkerWake w => worker_wake w s
  | CancelJob job_id => Some (cancel_job job_id s).1
  | CancelResume job_id =>
    if bool_decide (job_id ∈ cancelling s) then
      Some (cancel_job_resume job_id
              (set_cancelling (remove_first job_id (cancelling s)) s)).1
    else None
  | Cleanup io_fails =>
    if cleanup_old_files cfg then Some (_cleanup_task io_fails s)
    else None
  end.

Fixpoint exec (es : list Event) (s : WorkflowServer) : option WorkflowServer :=
  match es with
  | [] => Some s
  | e :: es' => s' ← step e s; exec es' s'
  end.

Definition reachable (s : WorkflowServer) : Prop :=
  ∃ t0 tpl uploads outputs es,
    exec es (init_server t0 tpl uploads outputs) = Some s.

End Operations.

(** ** HTTP routes *)

Module Api.
Inductive Response :=
| Json (body : list (string * string))
| FileResponse (path filename media_type : string)
| HTTPException (status_code : Z) (detail : string).

(** [DELETE /api/jobs/{job_id}].  The response is fixed as soon as
    [cancel_job] has passed its guard. *)
Definition cancel_job (job_id : string) (s : WorkflowServer)
  : WorkflowServer * Response :=
  let '(s', c) := cancel_job job_id s in
  (s', if cancel_job_result c then Json [("status", "cancelled")]
       else HTTPException 404 "Job not found or cannot be cancelled").

(** [GET /api/jobs/{job_id}/result].  A [Path] is always true, so
    [not job.result_path] tests for [None]. *)
Definition get_job_result (job_id : string) (s : WorkflowServer)
  : Response :=
  match get_job job_id s with
  | None => HTTPException 404 "Job not found"
  | Some job =>
    match Job.result_path job with
    | Some path =>
      if bool_decide (Job.status job ≠ COMPLETED) then
        HTTPException 400 "Job not completed or no result"
      else
        FileResponse path
          ("result_" ++ Job.original_filename job ++ ".mp4") "video/mp4"
    | None => HTTPException 400 "Job not completed or no result"
    end
  end.
End Api.

(** ** Invariant of the reachable states *)

(** Statuses of a job that waits in the queue or whose task has not run
    yet, and of a job inside the pipeline. *)
Definition waiting_status (st : JobStatus) : Prop :=
  st = PENDING ∨ st = FAILED ∨ st = CANCELLED.

Definition active_status (st : JobStatus) : Prop :=
  st = UPLOADING ∨ st = PROCESSING ∨ st = CANCELLED.

(** What holds of the job of a task suspended at [a]. *)
Definition at_ok (now : Q) (a : Await) (j : Job.t) : Prop :=
  match a with
  | AtStart => waiting_status (Job.status j)
  | AtUpload => active_status (Job.status j) ∧ (Job.progress j <= 30)%Q
  | AtSubmit _ => active_status (Job.status j) ∧ (Job.progress j <= 50)%Q
  | AtPoll _ start_time | AtPollSleep _ start_time =>
    active_status (Job.status j) ∧
    (Job.progress j <= 50 + Qmin 30 ((now - start_time) / max_wait * 30))%Q
  | AtDownload _ => active_status (Job.status j) ∧ (Job.progress j <= 100)%Q
  | AtRetrySleep => Job.status j = FAILED
  end.

Definition next_ok (now : Q) (n : Next) (j : Job.t) : Prop :=
  match n with
  | Suspend a => at_ok now a j
  | Finish _ => True
  end.

Definition job_ok (key : string) (j : Job.t) : Prop :=
  Job.id j = key ∧
  (is_Some (Job.result_path j) ↔ Job.status j = COMPLETED).

(** Every identifier is held at most once: by the queue or by one live
    task. *)
Record Inv_of (J : gmap string Job.t) (q : list string) (ws : list Worker)
    (now : Q) : Prop := {
  inv_nodup : NoDup q;
  inv_queue : ∀ key, key ∈ q →
    ∃ j, J !! key = Some j ∧ waiting_status (Job.status j);
  inv_live : ∀ w key a c, ws !! w = Some (Busy key (Live a c)) →
    (key ∉ q) ∧ ∃ j, J !! key = Some j ∧ at_ok now a j;
  inv_uniq : ∀ w1 w2 key a1 c1 a2 c2,
    ws !! w1 = Some (Busy key (Live a1 c1)) →
    ws !! w2 = Some (Busy key (Live a2 c2)) → w1 = w2;
  inv_jobs : ∀ key j, J !! key = Some j → job_ok key j
}.

Definition Inv (s : WorkflowServer) : Prop :=
  Inv_of (jobs s) (job_queue s) (workers s) (clock s).

(** What one atomic piece of [_process_job], entered at [a], does to the
    job record: [j] before, [j'] after, continuing with [n]. *)
Definition job_trans (max : Z) (now : Q) (a : Await) (j j' : Job.t)
    (n : Next) : Prop :=
  Job.id j' = Job.id j ∧
  (is_Some (Job.error_message j) → is_Some (Job.error_message j')) ∧
  ((Job.retry_count j <= max)%Z → (Job.retry_count j' <= max)%Z) ∧
  (at_ok now a j →
     (is_Some (Job.result_path j) ↔ Job.status j = COMPLETED) →
     (is_Some (Job.result_path j') ↔ Job.status j' = COMPLETED) ∧
     next_ok now n j') ∧
  (a ≠ AtStart → at_ok now a j → (Job.progress j <= Job.progress j')%Q) ∧
  (a = AtStart → Job.status j' = UPLOADING ∧ Job.progress j' = 10%Q) ∧
  (a = AtRetrySleep → j' = j ∧ n = Finish Returned) ∧
  (at_ok now a j → a ≠ AtRetrySleep → Job.status j' = FAILED →
   if (Job.retry_count j <? max)%Z
   then Job.retry_count j' = (Job.retry_count j + 1)%Z ∧
        n = Suspend AtRetrySleep
   else Job.retry_count j' = Job.retry_count j ∧ n = Finish Returned).

(** A worker that awaits a task which has not finished. *)
Definition is_live (v : Worker) : Prop :=
  match v with Busy _ (Live _ _) => True | _ => False end.

(** A job that is neither queued nor in the hands of a live task. *)
Definition idle_job (s : WorkflowServer) (key : string) : Prop :=
  (key ∉ job_queue s) ∧
  ∀ w a c, workers s !! w ≠ Some (Busy key (Live a c)).

(** Every handle in [processing_tasks] is that of the worker busy with
    the job it is filed under. *)
Definition handles_ok (s : WorkflowServer) : Prop :=
  ∀ key h, processing_tasks s !! key = Some h →
    ∃ t, workers s !! h = Some (Busy key t).

(** Suspension points at which the awaited backend call may raise. *)
Definition may_raise (a : Await) : bool :=
  match a with
  | AtUpload | AtSubmit _ | AtPoll _ _ | AtDownload _ => true
  | AtStart | AtPollSleep _ _ | AtRetrySleep => false
  end.

(** ** The statements of the specification that the code does not meet *)

(** No step changes the status of a job that is Completed, Failed or
    Cancelled. *)
Definition terminal_is_final (cfg : Config) : Prop :=
  ∀ s e s' key j j',
    reachable cfg s → step cfg e s = Some s' →
    jobs s !! key = Some j → jobs s' !! key = Some j' →
    is_terminal (Job.status j) = true →
    Job.status j' = Job.status j.

(** Progress observed on a job that is not terminal is never below a
    value observed earlier, retries included. *)
Definition progress_never_lowered (cfg : Config) : Prop :=
  ∀ s es s' key j j',
    reachable cfg s → exec cfg es s = Some s' →
    jobs s !! key = Some j → jobs s' !! key = Some j' →
    is_terminal (Job.status j') = false →
    (Job.progress j <= Job.progress j')%Q.

(** A cancellation request made while the task sleeps before a retry
    succeeds, and the identifier is not queued when the sleep ends. *)
Definition cancel_stops_pending_retry (cfg : Config) : Prop :=
  ∀ s w key c,
    reachable cfg s →
    workers s !! w = Some (Busy key (Live AtRetrySleep c)) →
    cancel_job_result (cancel_job key s).2 = true ∧
    ∀ s', task_resume cfg w Go (cancel_job key s).1 = Some s' →
          key ∉ job_queue s'.

(** Cancelling succeeds on Pending, Uploading and Processing; on a
    terminal job it fails with an error other than the one returned for
    an unknown identifier. *)
Definition cancel_contract : Prop :=
  (∀ s key j,
     jobs s !! key = Some j → cancellable (Job.status j) = true →
     cancel_job_result (cancel_job key s).2 = true ∧
     ∃ j', jobs (cancel_job key s).1 !! key = Some j' ∧
           Job.status j' = CANCELLED) ∧
  (∀ s known unknown j,
     jobs s !! known = Some j → is_terminal (Job.status j) = true →
     jobs s !! unknown = None →
     (Api.cancel_job known s).2 ≠ (Api.cancel_job unknown s).2).

(** A Completed job carries no error message. *)
Definition completed_without_error (cfg : Config) : Prop :=
  ∀ s key j,
    reachable cfg s → jobs s !! key = Some j →
    Job.status j = COMPLETED → Job.error_message j = None.

(** ** Scenarios *)

Definition sample_config : WorkflowConfig := {|
  positive_prompt := "a cat walking";
  negative_prompt := "blurry";
  seed := 88888;
  randomize_seed := true;
  fps := 16;
  duration := 5;
  format := MP4
|}.

Definition other_config : WorkflowConfig := {|
  positive_prompt := "a dog running";
  negative_prompt := "";
  seed := 7;
  randomize_seed := false;
  fps := 24;
  duration := 10;
  format := GIF
|}.

(** The server of [CONFIG] right after [start()]. *)
Definition boot : WorkflowServer := init_server CONFIG 1000 NoTemplate [] [].

Definition state_after (es : list Event) : WorkflowServer :=
  default boot (exec CONFIG es boot).

(** One job whose first attempt uploads and then fails to submit. *)
Definition failed_once : list Event :=
  [CreateJob "job-1" "cat.png" sample_config; WorkerGet 0; TaskResume 0 Go;
   TaskResume 0 (Uploaded "cat.png"); TaskResume 0 (Raise "Queue failed: busy")].

(** The retry delay elapses and the worker takes the job again. *)
Definition retry_pickup : list Event :=
  [TaskResume 0 Go; WorkerWake 0; WorkerGet 0].

(** The second attempt goes through. *)
Definition second_attempt : list Event :=
  [TaskResume 0 Go; TaskResume 0 (Uploaded "cat.png");
   TaskResume 0 (Queued "prompt-1"); Tick 1002;
   TaskResume 0 (History 200 (Some (Some "completed")));
   TaskResume 0 (Downloaded (Some "clip.mp4")); WorkerWake 0].

Definition picked_again : list Event := failed_once ++ retry_pickup.

Definition completed_on_retry : list Event := picked_again ++ second_attempt.

(** One failed upload with its retry. *)
Definition upload_fails_and_retries : list Event :=
  [WorkerGet 0; TaskResume 0 Go; TaskResume 0 (Raise "Upload failed: 503");
   TaskResume 0 Go; WorkerWake 0].

(** The fourth upload fails too; later the worker wakes up and time
    passes. *)
Definition fourth_failure : list Event :=
  [TaskResume 0 (Raise "Upload failed: 503")].

Definition afterwards : list Event := [WorkerWake 0; Tick 2000].

(** Three failed uploads, then the fourth attempt waits for its upload. *)
Definition fourth_attempt : list Event :=
  [CreateJob "job-1" "cat.png" sample_config]
  ++ upload_fails_and_retries ++ upload_fails_and_retries
  ++ upload_fails_and_retries ++ [WorkerGet 0; TaskResume 0 Go].

(** A job cancelled while it waits in the queue, then taken by the
    worker all the same. *)
Definition cancelled_in_queue : list Event :=
  [CreateJob "job-1" "cat.png" sample_config; CancelJob "job-1"; WorkerGet 0;
   TaskResume 0 Go].

(** A job cancelled while its upload is in flight, then a second job. *)
Definition cancelled_while_uploading : list Event :=
  [CreateJob "job-1" "cat.png" sample_config; WorkerGet 0; TaskResume 0 Go;
   CancelJob "job-1"; TaskResume 0 (Uploaded "cat.png"); WorkerWake 0;
   CreateJob "job-2" "dog.png" other_config].

(** The event loop with one worker and no client request, the backend
    answering by [backend]: the schedule is then determined.  [attempts]
    counts the tasks that started to run. *)
Fixpoint drain (cfg : Config) (backend : Await → Resume) (fuel : nat)
    (attempts : nat) (s : WorkflowServer) : option (WorkflowServer * nat) :=
  match fuel with
  | O => None
  | S fuel' =>
    match workers s !! 0%nat with
    | Some Idle =>
      match job_queue s with
      | [] => Some (s, attempts)
      | _ :: _ =>
        s' ← worker_get 0 s; drain cfg backend fuel' attempts s'
      end
    | Some (Busy _ (Live a _)) =>
      s' ← task_resume cfg 0 (backend a) s;
      drain cfg backend fuel'
        (match a with AtStart => S attempts | _ => attempts end) s'
    | Some (Busy _ (Done _)) =>
      s' ← worker_wake 0 s; drain cfg backend fuel' attempts s'
    | Some Stopped | None => Some (s, attempts)
    end
  end.

Definition upload_always_fails (a : Await) : Resume :=
  match a with
  | AtUpload => Raise "Upload failed: 503"
  | _ => Go
  end.

Definition sample_tree : list FileEntry :=
  [{| fe_path := "outputs/job-1_clip.mp4"; fe_is_file := true;
      fe_mtime := 1000 |};
   {| fe_path := "outputs/job-2_clip.mp4"; fe_is_file := true;
      fe_mtime := 700000 |};
   {| fe_path := "outputs/video"; fe_is_file := false; fe_mtime := 10 |}].

(** The job stored under [key] after [es]. *)
Definition job_after (es : list Event) (key : string) : Job.t :=
  default (Job.mk "" "" "" "" PENDING 0 None None None None 0 None None 0)
          (jobs (state_after es) !! key).

(** A server whose output directory holds [sample_tree], at time 700000. *)
Definition sweep_state : WorkflowServer :=
  set_output_tree sample_tree (set_clock 700000 boot).

(** * Further operations and views *)

(** ** One piece of [_process_job], seen on the job record alone *)

Section JobPiece.

Variable cfg : Config.

(** The record after the [except Exception] clause, and how the task
    goes on. *)
Definition job_failed (msg : string) (j : Job.t) : Job.t * Next :=
  let j := Job.set_error_message (Some msg) (Job.set_status FAILED j) in
  if (Job.retry_count j <? max_retries cfg)%Z
  then (Job.set_retry_count (Job.retry_count j + 1) j, Suspend AtRetrySleep)
  else (j, Finish Returned).

Definition job_wait (now : Q) (prompt_id : string) (start_time : Q)
    (j : Job.t) : Job.t * Next :=
  if Qltb (now - start_time) max_wait
  then (j, Suspend (AtPoll prompt_id start_time))
  else job_failed ("ComfyUI execution timeout for prompt " ++ prompt_id) j.

(** What [_process_job], resumed with [r] at [a], makes of the record [j]
    when the template file is [tpl] and the clock reads [now]. *)
Definition job_piece (tpl : TemplateFile) (now : Q) (a : Await) (r : Resume)
    (j : Job.t) : option (Job.t * Next) :=
  match a, r with
  | AtStart, Go =>
    Some (Job.set_progress 10
            (Job.set_started_at (Some now) (Job.set_status UPLOADING j)),
          Suspend AtUpload)
  | AtUpload, Uploaded uploaded_filename =>
    match _generate_workflow tpl now uploaded_filename (Job.config j) with
    | inl err => Some (job_failed err (Job.set_progress 30 j))
    | inr workflow =>
      Some (Job.set_status PROCESSING
              (Job.set_progress 40 (Job.set_progress 30 j)),
            Suspend (AtSubmit workflow))
    end
  | AtSubmit _, Queued prompt_id =>
    Some (job_wait now prompt_id now
            (Job.set_progress 50
               (Job.set_comfy_prompt_id (Some prompt_id) j)))
  | AtPoll prompt_id start_time, History code entry =>
    if history_completed prompt_id code entry
    then Some (Job.set_progress 80 j, Suspend (AtDownload prompt_id))
    else Some (Job.set_progress
                 (50 + Qmin 30 ((now - start_time) / max_wait * 30)) j,
               Suspend (AtPollSleep prompt_id start_time))
  | AtPollSleep prompt_id start_time, Go =>
    Some (job_wait now prompt_id start_time j)
  | AtDownload prompt_id, Downloaded video_filename =>
    let output_path :=
      output_dir cfg ++ "/"
        ++ (Job.id j ++ "_" ++ default "output.mp4" video_filename) in
    Some (Job.set_completed_at (Some now)
            (Job.set_status COMPLETED
               (Job.set_progress 100
                  (Job.set_result_path (Some output_path) j))),
          Finish Returned)
  | AtUpload, Raise msg
  | AtSubmit _, Raise msg
  | AtPoll _ _, Raise msg
  | AtDownload _, Raise msg => Some (job_failed msg j)
  | AtRetrySleep, Go => Some (j, Finish Returned)
  | _, _ => None
  end.

End JobPiece.

(** The task a worker awaits after a piece that goes on with [n]. *)
Definition task_of_next (n : Next) : Task :=
  match n with
  | Suspend a => Live a false
  | Finish r => Done r
  end.

(** ** More of what holds in the reachable states *)

(** The jobs in the hands of live tasks, worker by worker. *)
Definition live_job (v : Worker) : option string :=
  match v with
  | Busy key (Live _ _) => Some key
  | _ => None
  end.

Definition active_jobs (s : WorkflowServer) : list string :=
  omap live_job (workers s).

(** What a task suspended at [a] has already written into its job. *)
Definition at_written (now : Q) (a : Await) (j : Job.t) : Prop :=
  match a with
  | AtStart | AtRetrySleep => True
  | AtUpload | AtSubmit _ => is_Some (Job.started_at j)
  | AtPoll prompt_id start_time | AtPollSleep prompt_id start_time =>
    is_Some (Job.started_at j) ∧
    Job.comfy_prompt_id j = Some prompt_id ∧ (start_time <= now)%Q
  | AtDownload prompt_id =>
    is_Some (Job.started_at j) ∧ Job.comfy_prompt_id j = Some prompt_id
  end.

(** A record as [create_job] leaves it. *)
Definition untouched (j : Job.t) : Prop :=
  Job.progress j = 0%Q ∧ Job.started_at j = None ∧
  Job.completed_at j = None ∧ Job.comfy_prompt_id j = None ∧
  Job.result_path j = None ∧ Job.error_message j = None ∧
  Job.retry_count j = 0%Z.

Definition record_ok (j : Job.t) : Prop :=
  (0 <= Job.progress j)%Q ∧ (Job.progress j <= 100)%Q ∧
  (Job.status j = COMPLETED →
     Job.progress j = 100%Q ∧ is_Some (Job.completed_at j) ∧
     is_Some (Job.started_at j) ∧ is_Some (Job.comfy_prompt_id j)) ∧
  (is_Some (Job.completed_at j) → Job.status j = COMPLETED) ∧
  (Job.status j = PENDING → untouched j).

Definition records_ok (s : WorkflowServer) : Prop :=
  (∀ w key a c j,
     workers s !! w = Some (Busy key (Live a c)) →
     jobs s !! key = Some j → at_written (clock s) a j) ∧
  (∀ key j, jobs s !! key = Some j → record_ok j).

(** The fields of a job that identify the request. *)
Definition same_request (j j' : Job.t) : Prop :=
  Job.id j' = Job.id j ∧ Job.filename j' = Job.filename j ∧
  Job.original_filename j' = Job.original_filename j ∧
  Job.filepath j' = Job.filepath j ∧ Job.config j' = Job.config j ∧
  Job.created_at j' = Job.created_at j.

(** What [Task.cancel()], called for the task filed under [key], does to
    the workers. *)
Definition flagged (key : string) (s s' : WorkflowServer) : Prop :=
  workers s' = workers s ∨
  ∃ h k a c, processing_tasks s !! key = Some h ∧
    workers s !! h = Some (Busy k (Live a c)) ∧
    workers s' = <[h := Busy k (Live a true)]> (workers s).

(** The three time stamps of a record, against the clock. *)
Definition times_ok (now : Q) (j : Job.t) : Prop :=
  (Job.created_at j <= now)%Q ∧
  (∀ t, Job.started_at j = Some t → (Job.created_at j <= t)%Q ∧ (t <= now)%Q) ∧
  (∀ t t', Job.started_at j = Some t → Job.completed_at j = Some t' →
     (t <= t')%Q ∧ (t' <= now)%Q).

Definition all_times_ok (s : WorkflowServer) : Prop :=
  ∀ key j, jobs s !! key = Some j → times_ok (clock s) j.

(** The number of [job_queue.get()] calls that returned in a run. *)
Fixpoint dequeues (es : list Event) : nat :=
  match es with
  | [] => 0
  | WorkerGet _ :: es' => S (dequeues es')
  | _ :: es' => dequeues es'
  end.

Definition is_cancel (e : Event) : bool :=
  match e with
  | CancelJob _ | CancelResume _ => true
  | _ => false
  end.

(** A worker that is in its loop and whose task, if any, has neither been
    cancelled nor ended otherwise than by returning. *)
Definition in_loop (v : Worker) : Prop :=
  match v with
  | Idle => True
  | Busy _ (Live _ must_cancel) => must_cancel = false
  | Busy _ (Done r) => r = Returned
  | Stopped => False
  end.

(** A Pending job is queued or in the hands of a task that has not run
    yet, and no job with a cancellation under way is Pending. *)
Definition pending_held (s : WorkflowServer) : Prop :=
  (∀ key j, jobs s !! key = Some j → Job.status j = PENDING →
     key ∈ job_queue s ∨
     ∃ w, workers s !! w = Some (Busy key (Live AtStart false))) ∧
  (∀ key, key ∈ cancelling s →
     ∃ j, jobs s !! key = Some j ∧ Job.status j ≠ PENDING).

(** ** [/api/stats] *)

(** [JobStatus.value] *)
Definition status_value (st : JobStatus) : string :=
  match st with
  | PENDING => "pending"
  | UPLOADING => "uploading"
  | PROCESSING => "processing"
  | COMPLETED => "completed"
  | FAILED => "failed"
  | CANCELLED => "cancelled"
  end.

(** [get_all_jobs]: the values of [jobs].  The order of the list is that
    of the keys here and that of insertion in Python. *)
Definition get_all_jobs (s : WorkflowServer) : list Job.t :=
  (map_to_list (jobs s)).*2.

(** The loop of [get_stats]:
    [status_counts[status] = status_counts.get(status, 0) + 1]. *)
Definition count_status (status_counts : gmap string Z) (job : Job.t)
  : gmap string Z :=
  let status := status_value (Job.status job) in
  <[status := (default 0 (status_counts !! status) + 1)%Z]> status_counts.

Record Stats := {
  total_jobs : Z;
  status_counts : gmap string Z;
  queue_size : Z;
  stats_processing_tasks : Z
}.

Definition get_stats (s : WorkflowServer) : Stats :=
  let jobs := get_all_jobs s in
  {| total_jobs := Z.of_nat (length jobs);
     status_counts := foldl count_status ∅ jobs;
     queue_size := Z.of_nat (length (job_queue s));
     stats_processing_tasks := Z.of_nat (size (processing_tasks s)) |}.

(** The number of jobs of [l] whose status is [st]. *)
Fixpoint with_status (st : JobStatus) (l : list Job.t) : Z :=
  match l with
  | [] => 0
  | j :: l' =>
    ((if decide (Job.status j = st) then 1 else 0)
     + with_status st l')%Z
  end.

(** ** Strings *)


(** What one loop of [_cleanup_task] is to keep. *)
Definition kept (cutoff_time : Q) (file : FileEntry) : bool :=
  negb (fe_is_file file && Qltb (fe_mtime file) cutoff_time).

(** ** More runs *)

(** A job whose workflow is queued at the backend and not finished at the
    first poll, 100 seconds later. *)
Definition polling : list Event :=
  [CreateJob "job-1" "cat.png" sample_config; WorkerGet 0; TaskResume 0 Go;
   TaskResume 0 (Uploaded "cat.png"); TaskResume 0 (Queued "prompt-1");
   Tick 1100; TaskResume 0 (History 200 (Some (Some "running")))].

(** 300 seconds after the workflow was queued. *)
Definition timed_out : list Event := polling ++ [Tick 1300].

(** A job cancelled while its upload is in flight; the upload returns. *)
Definition task_cancelled : list Event :=
  [CreateJob "job-1" "cat.png" sample_config; WorkerGet 0; TaskResume 0 Go;
   CancelJob "job-1"; TaskResume 0 (Uploaded "cat.png")].

(** Two uploads in the same second. *)
Definition first_upload : list Event :=
  [CreateJob "job-1" "my cat.png" sample_config].

Definition second_upload : list Event :=
  first_upload ++ [CreateJob "job-2" "my/cat.png" other_config].

(** One job at the backend and a second one waiting in the queue. *)
Definition busy_and_queued : list Event :=
  polling ++ [CreateJob "job-2" "dog.png" other_config].

(** * The backend *)

(** ** What the server reads from the answers of the backend *)

(** The answers of the backend are taken as far as the server reads
    them, with the types the ComfyUI protocol gives them: an object read
    with string values is a map from strings to strings. *)

(** The exceptions raised while an answer is read, and [OSError] for the
    file operations that follow the last answer. *)
Inductive Exc :=
| HTTPException (status_code : Z) (detail : string)
| KeyError (key : string)
| IndexError
| ValueError (msg : string)
| OSError (msg : string).

(** An HTTP answer: status, body as text, body as JSON.  The server reads
    the text only of an answer that is not 200. *)
Record Answer (A : Type) := {
  ans_status : Z;
  ans_text : string;
  ans_json : A
}.
Arguments ans_status {A} _.
Arguments ans_text {A} _.
Arguments ans_json {A} _.

(** The history of a prompt as far as the server reads it: a JSON object
    of prompt identifiers, each with an optional ['outputs'] object (node
    identifier to node output) and an optional ['status'] string; a node
    output has lists of objects under its keys, and the objects of the
    ['videos'] list have strings under theirs. *)
Definition VideoData : Type := gmap string string.
Definition NodeOutput : Type := gmap string (list VideoData).

Record HistoryEntry := {
  he_outputs : option (gmap string NodeOutput);
  he_status : option string
}.

Definition HistoryJson : Type := gmap string HistoryEntry.

(** [_upload_to_comfyui], from the answer on: [result['name']]. *)
Definition _upload_to_comfyui (response : Answer (gmap string string))
  : Exc + string :=
  if negb (ans_status response =? 200)%Z then
    inl (HTTPException (ans_status response)
           ("Upload failed: " ++ ans_text response))
  else
    match ans_json response !! "name" with
    | Some name => inr name
    | None => inl (KeyError "name")
    end.

(** [_queue_workflow], from the answer on: [result['prompt_id']]. *)
Definition _queue_workflow (response : Answer (gmap string string))
  : Exc + string :=
  if negb (ans_status response =? 200)%Z then
    inl (HTTPException (ans_status response)
           ("Queue failed: " ++ ans_text response))
  else
    match ans_json response !! "prompt_id" with
    | Some prompt_id => inr prompt_id
    | None => inl (KeyError "prompt_id")
    end.

(** The test of [_wait_for_completion] on one answer. *)
Definition poll_resume (prompt_id : string) (response : Answer HistoryJson)
  : Resume :=
  History (ans_status response)
          (he_status <$> (ans_json response !! prompt_id)).

(** The parameters of the [/view] request. *)
Record ViewParams := {
  vp_filename : string;
  vp_subfolder : string;
  vp_type : string
}.

(** [_download_result] up to the [/view] request. *)
Definition download_request (prompt_id : string) (response : Answer HistoryJson)
  : Exc + (VideoData * ViewParams) :=
  if negb (ans_status response =? 200)%Z then
    inl (HTTPException (ans_status response)
           ("Failed to get history: " ++ ans_text response))
  else
    match ans_json response !! prompt_id with
    | None => inl (KeyError prompt_id)
    | Some entry =>
      let outputs := default ∅ (he_outputs entry) in
      match default [∅] (default ∅ (outputs !! "108") !! "videos") with
      | [] => inl IndexError
      | video_data :: _ =>
        if decide (video_data = ∅) then inl (ValueError "No video output found")
        else
          inr (video_data,
               {| vp_filename := default "output.mp4" (video_data !! "filename");
                  vp_subfolder := default "" (video_data !! "subfolder");
                  vp_type := default "output" (video_data !! "type") |})
      end
    end.

(** [_download_result]: [view] is the backend answering the [/view]
    request, and [save] the outcome of the block that opens the output
    file and copies the answer into it: [None] when it goes through,
    otherwise the exception that leaves it (the file cannot be opened,
    as when the video name has a directory part that does not exist, or
    a write fails).  The result is the path the video is written to,
    spelled as [_process_job] spells it. *)
Definition _download_result (cfg : Config) (save : string → option Exc)
    (job : Job.t) (prompt_id : string)
    (response : Answer HistoryJson) (view : ViewParams → Answer unit)
  : Exc + string :=
  match download_request prompt_id response with
  | inl e => inl e
  | inr (_, params) =>
    let output_filename := Job.id job ++ "_" ++ vp_filename params in
    let output_path := output_dir cfg ++ "/" ++ output_filename in
    let response := view params in
    if negb (ans_status response =? 200)%Z then
      inl (HTTPException (ans_status response)
             ("Failed to download: " ++ ans_text response))
    else
      match save output_path with
      | Some e => inl e
      | None => inr output_path
      end
  end.

(** What resumes the task that awaits [_download_result]; [str] gives
    the text of an exception. *)
Definition download_resume (cfg : Config) (str : Exc → string)
    (save : string → option Exc) (job : Job.t) (prompt_id : string)
    (response : Answer HistoryJson) (view : ViewParams → Answer unit) : Resume :=
  match download_request prompt_id response with
  | inl e => Raise (str e)
  | inr (video_data, params) =>
    let output_filename := Job.id job ++ "_" ++ vp_filename params in
    let output_path := output_dir cfg ++ "/" ++ output_filename in
    let response := view params in
    if negb (ans_status response =? 200)%Z then
      Raise (str (HTTPException (ans_status response)
                    ("Failed to download: " ++ ans_text response)))
    else
      match save output_path with
      | Some e => Raise (str e)
      | None => Downloaded (video_data !! "filename")
      end
  end.

(** ** The mock backend of [test_server.py] *)

(** [s in t] for strings. *)
Fixpoint contains (sub s : string) : bool :=
  String.prefix sub s ||
  match s with
  | EmptyString => false
  | String _ s' => contains sub s'
  end.

Module Mock.

(** An entry of [prompts]. *)
Record Prompt := {
  p_id : string;
  number : Z;
  status : string;
  progress : Z;
  created_at : Q;
  workflow : json
}.

Definition set_status (st : string) (p : Prompt) : Prompt :=
  {| p_id := p_id p; number := number p; status := st;
     progress := progress p; created_at := created_at p;
     workflow := workflow p |}.

Definition set_progress (n : Z) (p : Prompt) : Prompt :=
  {| p_id := p_id p; number := number p; status := status p;
     progress := n; created_at := created_at p; workflow := workflow p |}.

(** The module state: [prompts], [prompt_counter], and the background
    tasks running [process_prompt], each with the number of its sleeps
    that are over ([tasks] is not a variable of the source: it is the
    event loop's view of these coroutines). *)
Record t := {
  prompts : gmap string Prompt;
  prompt_counter : Z;
  tasks : list (string * nat)
}.

Definition start : t :=
  {| prompts := ∅; prompt_counter := 1; tasks := [] |}.

(** [QueueResponse] *)
Record QueueResponse := {
  qr_prompt_id : string;
  qr_number : Z
}.

(** [queue_prompt]; [prompt_id] is the value of [uuid.uuid4()] and [now]
    the clock. *)
Definition queue_prompt (prompt_id : string) (now : Q) (request : json)
    (m : t) : t * QueueResponse :=
  let prompt_number := prompt_counter m in
  let m :=
    {| prompts :=
         <[prompt_id := {| p_id := prompt_id; number := prompt_number;
                           status := "queued"; progress := 0;
                           created_at := now; workflow := request |}]>
           (prompts m);
       prompt_counter := prompt_counter m + 1;
       tasks := tasks m ++ [(prompt_id, 0%nat)] |} in
  (m, {| qr_prompt_id := prompt_id; qr_number := prompt_number |}).

(** The answer to [POST /prompt], string fields only. *)
Definition queue_answer (r : QueueResponse) : Answer (gmap string string) :=
  {| ans_status := 200; ans_text := "";
     ans_json := {[ "prompt_id" := qr_prompt_id r ]} |}.

(** [process_prompt] has 12 sleeps: one of 0.5 s, then one per value of
    [range(0, 101, 10)]. *)
Definition sleeps : nat := 12.

(** The piece of [process_prompt] that runs when its sleep number
    [k + 1] is over: nothing after the first sleep, then
    [prompts[prompt_id]["progress"] = progress] for the next value of the
    range, and after the last one the prompt is marked completed. *)
Definition process_piece (prompt_id : string) (k : nat) (m : t)
  : gmap string Prompt :=
  match k with
  | O => prompts m
  | S i =>
    let ps := alter (set_progress (10 * Z.of_nat i)) prompt_id (prompts m) in
    if (S k =? sleeps)%nat then
      alter (set_progress 100) prompt_id
        (alter (set_status "completed") prompt_id ps)
    else ps
  end.

(** The background task number [i] wakes up from a sleep. *)
Definition process_prompt (i : nat) (m : t) : option t :=
  match tasks m !! i with
  | Some (prompt_id, k) =>
    if (k <? sleeps)%nat then
      Some {| prompts := process_piece prompt_id k m;
              prompt_counter := prompt_counter m;
              tasks := <[i := (prompt_id, S k)]> (tasks m) |}
    else None
  | None => None
  end.

(** The body FastAPI sends when a route raises [HTTPException] with a
    [detail]: the JSON object with the one key [detail], written without
    spaces.  The details of this module need no escape.  The text of a
    200 answer, which the server does not read, is left empty. *)
Definition double_quote : string := String "034" EmptyString.

Definition http_exception_body (detail : string) : string :=
  "{" ++ double_quote ++ "detail" ++ double_quote ++ ":"
      ++ double_quote ++ detail ++ double_quote ++ "}".

(** [get_history] *)
Definition get_history (prompt_id : string) (m : t) : Answer HistoryJson :=
  match prompts m !! prompt_id with
  | None =>
    {| ans_status := 404; ans_text := http_exception_body "Prompt not found";
       ans_json := ∅ |}
  | Some p =>
    let outputs : gmap string NodeOutput :=
      {[ "108" :=
           {[ "videos" :=
                [ ({[ "filename" := "ComfyUI_00001.mp4";
                      "subfolder" := "video";
                      "type" := "output" ]} : VideoData) ] ]} ]} in
    {| ans_status := 200; ans_text := "";
       ans_json :=
         {[ prompt_id := {| he_outputs := Some outputs;
                            he_status := Some (status p) |} ]} |}
  end.

(** [view_file]: the sample video is created when the module is
    loaded. *)
Definition view_file (params : ViewParams) : Answer unit :=
  if String.eqb (vp_type params) "output"
     && contains "video" (vp_subfolder params)
  then {| ans_status := 200; ans_text := ""; ans_json := () |}
  else {| ans_status := 404; ans_text := http_exception_body "File not found";
          ans_json := () |}.

(** [delete_prompt] *)
Definition delete_prompt (prompt_id : string) (m : t) : t * Answer unit :=
  match prompts m !! prompt_id with
  | Some _ =>
    ({| prompts := delete prompt_id (prompts m);
        prompt_counter := prompt_counter m; tasks := tasks m |},
     {| ans_status := 200; ans_text := ""; ans_json := () |})
  | None =>
    (m, {| ans_status := 404;
           ans_text := http_exception_body "Prompt not found";
           ans_json := () |})
  end.

(** [get_queued_prompts]: the keys of [prompts]. *)
Definition get_queued_prompts (m : t) : list string :=
  (map_to_list (prompts m)).*1.

(** [upload_image]: the answer is an [UploadResponse]. *)
Definition upload_image (now : Q) (image_filename : string)
  : Answer (gmap string string) :=
  let filename :=
    "upload_" ++ pretty (int_of_Q now) ++ "_" ++ image_filename in
  {| ans_status := 200; ans_text := "";
     ans_json := {[ "name" := filename; "subfolder" := ""; "type" := "input" ]}
  |}.

(** What happens at the mock backend: a request, or a background task
    waking up.  [Queue] stands for a request whose [uuid4()] is not in
    use. *)
Inductive Event :=
| Queue (prompt_id : string) (now : Q) (request : json)
| Wake (i : nat)
| Delete (prompt_id : string).

Definition step (e : Event) (m : t) : option t :=
  match e with
  | Queue prompt_id now request =>
    if decide (is_Some (prompts m !! prompt_id) ∨ prompt_id ∈ (tasks m).*1)
    then None
    else Some (queue_prompt prompt_id now request m).1
  | Wake i => process_prompt i m
  | Delete prompt_id => Some (delete_prompt prompt_id m).1
  end.

Fixpoint exec (es : list Event) (m : t) : option t :=
  match es with
  | [] => Some m
  | e :: es' => m' ← step e m; exec es' m'
  end.

Definition reachable (m : t) : Prop := ∃ es, exec es start = Some m.

(** What the state of a background task says about its prompt, if the
    prompt is still there. *)
Definition task_ok (m : t) (prompt_id : string) (k : nat) : Prop :=
  (k ≤ sleeps)%nat ∧
  ∀ p, prompts m !! prompt_id = Some p →
    status p = (if (k =? sleeps)%nat then "completed" else "queued") ∧
    progress p = (10 * Z.of_nat (k - 2))%Z.

Record Inv (m : t) : Prop := {
  inv_counter : (1 <= prompt_counter m)%Z;
  inv_tasks_nodup : NoDup (tasks m).*1;
  inv_has_task : ∀ prompt_id p, prompts m !! prompt_id = Some p →
    p_id p = prompt_id ∧ (1 <= number p < prompt_counter m)%Z ∧
    prompt_id ∈ (tasks m).*1;
  inv_task_ok : ∀ i prompt_id k, tasks m !! i = Some (prompt_id, k) →
    task_ok m prompt_id k;
  inv_numbers : ∀ id1 id2 p1 p2,
    prompts m !! id1 = Some p1 → prompts m !! id2 = Some p2 →
    number p1 = number p2 → id1 = id2
}.

End Mock.

(** What resumes the task that awaits [_upload_to_comfyui] or
    [_queue_workflow]. *)
Definition upload_resume (str : Exc → string) (r : Exc + string) : Resume :=
  match r with
  | inl e => Raise (str e)
  | inr uploaded_filename => Uploaded uploaded_filename
  end.

Definition queue_resume (str : Exc → string) (r : Exc + string) : Resume :=
  match r with
  | inl e => Raise (str e)
  | inr prompt_id => Queued prompt_id
  end.

(** ** Runs of the mock backend and of the server against it *)

Definition mock_after (es : list Mock.Event) : Mock.t :=
  default Mock.start (Mock.exec es Mock.start).

Definition mock_prompt (es : list Mock.Event) (prompt_id : string)
  : Mock.Prompt :=
  default {| Mock.p_id := ""; Mock.number := 0; Mock.status := "";
             Mock.progress := 0; Mock.created_at := 0;
             Mock.workflow := JDict [] |}
          (Mock.prompts (mock_after es) !! prompt_id).

(** A prompt is queued and its background task wakes up three times. *)
Definition mock_started : list Mock.Event :=
  [Mock.Queue "prompt-1" 1000 _get_default_workflow;
   Mock.Wake 0; Mock.Wake 0; Mock.Wake 0].

(** The background task runs to its end. *)
Definition mock_completed : list Mock.Event :=
  mock_started ++ replicate 9 (Mock.Wake 0).

(** The job of [polling] wakes up and polls again. *)
Definition polling_again : list Event := polling ++ [TaskResume 0 Go].

(** The backend says completed and the task goes on to the download. *)
Definition downloading : list Event :=
  polling_again ++ [TaskResume 0 (History 200 (Some (Some "completed")))].

(** A stand-in for [str(e)]. *)
Definition sample_str (e : Exc) : string :=
  match e with
  | HTTPException status_code detail => pretty status_code ++ ": " ++ detail
  | KeyError key => "'" ++ key ++ "'"
  | IndexError => "list index out of range"
  | ValueError msg => msg
  | OSError msg => msg
  end.

(** A job whose upload is in flight. *)
Definition uploading : list Event :=
  [CreateJob "job-1" "cat.png" sample_config; WorkerGet 0; TaskResume 0 Go].

(** ** Status and progress *)

(** The status a task suspended at [a] can find in its job. *)
Definition at_status (a : Await) (st : JobStatus) : Prop :=
  match a with
  | AtStart | AtRetrySleep => True
  | AtUpload => st = UPLOADING ∨ st = CANCELLED
  | AtSubmit _ | AtPoll _ _ | AtPollSleep _ _ | AtDownload _ =>
    st = PROCESSING ∨ st = CANCELLED
  end.

(** What the status of a job says about the rest of its record. *)
Definition in_band (j : Job.t) : Prop :=
  match Job.status j with
  | PENDING => Job.progress j = 0%Q
  | UPLOADING => Job.progress j = 10%Q ∧ is_Some (Job.started_at j)
  | PROCESSING =>
    (40 <= Job.progress j)%Q ∧ (Job.progress j <= 80)%Q ∧
    is_Some (Job.started_at j)
  | COMPLETED => Job.progress j = 100%Q ∧ is_Some (Job.started_at j)
  | FAILED => is_Some (Job.error_message j) ∧ is_Some (Job.started_at j)
  | CANCELLED => True
  end.

Definition bands_ok (s : WorkflowServer) : Prop :=
  (∀ w key a c j,
     workers s !! w = Some (Busy key (Live a c)) →
     jobs s !! key = Some j → at_status a (Job.status j)) ∧
  (∀ key j, jobs s !! key = Some j → in_band j).


(** ** The message of the last failure *)

(** The text of the exception that reaches the [except Exception] clause
    of [_process_job] when the task, suspended at [a], is resumed with
    [r] at time [now]; [None] when the piece that runs raises nothing.
    An exception comes from the awaited call, from [_generate_workflow]
    or from the end of the [while] loop of [_wait_for_completion]. *)
Definition failure_text (tpl : TemplateFile) (now : Q) (a : Await)
    (r : Resume) (j : Job.t) : option string :=
  match a, r with
  | AtUpload, Uploaded uploaded_filename =>
    match _generate_workflow tpl now uploaded_filename (Job.config j) with
    | inl err => Some err
    | inr _ => None
    end
  | AtPollSleep prompt_id start_time, Go =>
    if Qltb (now - start_time) max_wait then None
    else Some ("ComfyUI execution timeout for prompt " ++ prompt_id)
  | AtUpload, Raise msg
  | AtSubmit _, Raise msg
  | AtPoll _ _, Raise msg
  | AtDownload _, Raise msg => Some msg
  | _, _ => None
  end.

(** The failure of an attempt on job [key] that event [e] brings about
    in state [s], if any: the event resumes a task that works on this job
    and is not cancelled, and the piece that runs raises. *)
Definition step_failure (e : Event) (s : WorkflowServer) (key : string)
  : option string :=
  match e with
  | TaskResume w r =>
    match workers s !! w with
    | Some (Busy job_id (Live a false)) =>
      if String.eqb job_id key then
        j ← jobs s !! key;
        failure_text (template s) (clock s) a r j
      else None
    | _ => None
    end
  | _ => None
  end.

(** The message of the last attempt on job [key] that failed during the
    run [es] from [s]; [m] when none did. *)
Fixpoint last_failure (cfg : Config) (es : list Event) (s : WorkflowServer)
    (key : string) (m : option string) : option string :=
  match es with
  | [] => m
  | e :: es' =>
    match step cfg e s with
    | Some s' =>
      last_failure cfg es' s' key
        (match step_failure e s key with
         | Some msg => Some msg
         | None => m
         end)
    | None => m
    end
  end.

(** ** What a run puts into the queue *)

(** The identifiers event [e] appends to the queue in state [s]:
    [create_job] puts the new job, and a task whose retry delay is over
    calls [queue_job], which puts its job if [jobs] has it. *)
Definition enqueued_by (e : Event) (s : WorkflowServer) : list string :=
  match e with
  | CreateJob job_id _ _ => [job_id]
  | TaskResume w Go =>
    match workers s !! w with
    | Some (Busy key (Live AtRetrySleep false)) =>
      match jobs s !! key with
      | Some job =>
        match jobs s !! Job.id job with
        | Some _ => [Job.id job]
        | None => []
        end
      | None => []
      end
    | _ => []
    end
  | _ => []
  end.

(** The identifiers appended during the run [es] from [s], in order. *)
Fixpoint enqueued (cfg : Config) (es : list Event) (s : WorkflowServer)
  : list string :=
  match es with
  | [] => []
  | e :: es' =>
    match step cfg e s with
    | Some s' => enqueued_by e s ++ enqueued cfg es' s'
    | None => []
    end
  end.

(** ** [create_job] with its file operations *)



(** ** A late answer *)

(** The job of [timed_out] is polled once more, long after the 300
    seconds. *)
Definition polled_late : list Event :=
  polling ++ [TaskResume 0 Go; Tick 5000].
(** * Proofs *)

Ltac sproj :=
  cbn [jobs job_queue processing_tasks workers cancelling upload_tree
       output_tree template clock with_job set_worker set_jobs set_job_queue
       set_processing_tasks set_workers set_cancelling set_upload_tree
       set_output_tree set_clock] in *.

Ltac jproj :=
  cbn [Job.id Job.filename Job.original_filename Job.filepath Job.status
       Job.progress Job.config Job.comfy_prompt_id Job.result_path
       Job.error_message Job.created_at Job.started_at Job.completed_at
       Job.retry_count Job.set_status Job.set_progress
       Job.set_comfy_prompt_id Job.set_result_path Job.set_error_message
       Job.set_started_at Job.set_completed_at Job.set_retry_count
       compose] in *.

Section Proofs.
Variable cfg : Config.

Lemma poll_start_bound (c : Q) :
  (50 <= 50 + Qmin 30 ((c - c) / max_wait * 30))%Q.
Proof.
  assert (0 <= Qmin 30 ((c - c) / max_wait * 30))%Q; [|lra].
  apply Q.min_glb; [lra|].
  assert (E : ((c - c) / max_wait * 30 == 0)%Q) by (unfold max_wait; field).
  rewrite E. lra.
Qed.

Lemma poll_bound_mono (t t' st : Q) :
  (t <= t')%Q →
  (50 + Qmin 30 ((t - st) / max_wait * 30)
   <= 50 + Qmin 30 ((t' - st) / max_wait * 30))%Q.
Proof.
  intros Ht. apply Qplus_le_r. apply Q.min_le_compat_l.
  unfold max_wait, Qdiv.
  assert (0 <= / 300 * 30)%Q by (compute; discriminate).
  rewrite <- !Qmult_assoc.
  apply Qmult_le_compat_r; [lra | assumption].
Qed.

Lemma poll_bound_le_80 (t st : Q) :
  (50 + Qmin 30 ((t - st) / max_wait * 30) <= 80)%Q.
Proof.
  pose proof (Q.le_min_l 30 ((t - st) / max_wait * 30)). lra.
Qed.

Lemma insert_alter_same (m : gmap string Job.t) k f x :
  <[k := x]> (alter f k m) = <[k := x]> m.
Proof.
  apply map_eq. intros i. destruct (decide (k = i)) as [->|Hne].
  - by rewrite !lookup_insert_eq.
  - by rewrite !lookup_insert_ne, lookup_alter_ne.
Qed.

Lemma on_exception_spec key msg s s' n j :
  jobs s !! key = Some j →
  on_exception cfg key msg s = Some (s', n) →
  ∃ j', jobs s' = <[key := j']> (jobs s) ∧
    job_queue s' = job_queue s ∧ workers s' = workers s ∧
    processing_tasks s' = processing_tasks s ∧
    cancelling s' = cancelling s ∧ clock s' = clock s ∧
    upload_tree s' = upload_tree s ∧ template s' = template s ∧
    Job.id j' = Job.id j ∧ Job.status j' = FAILED ∧
    Job.error_message j' = Some msg ∧
    Job.result_path j' = Job.result_path j ∧
    Job.progress j' = Job.progress j ∧
    (if (Job.retry_count j <? max_retries cfg)%Z
     then Job.retry_count j' = (Job.retry_count j + 1)%Z ∧
          n = Suspend AtRetrySleep
     else Job.retry_count j' = Job.retry_count j ∧ n = Finish Returned).
Proof.
  intros Hj. unfold on_exception. sproj.
  rewrite !lookup_alter_eq, Hj. cbn [fmap option_fmap option_map mbind option_bind]. jproj.
  destruct (Job.retry_count j <? max_retries cfg)%Z; intros [= <- <-]; sproj;
    rewrite ?alter_alter_eq; eexists; (split; [by apply alter_alt_Some|]);
    jproj; repeat split; reflexivity.
Qed.


Lemma wait_loop_spec key pid st s s' n j :
  jobs s !! key = Some j →
  wait_loop cfg key pid st s = Some (s', n) →
  (s' = s ∧ n = Suspend (AtPoll pid st)) ∨
  (∃ msg, on_exception cfg key msg s = Some (s', n)).
Proof.
  intros Hj. unfold wait_loop.
  destruct (Qltb _ _); [intros [= <- <-]; by left | intros H; right; eauto].
Qed.

Lemma active_not_completed st : active_status st → st ≠ COMPLETED.
Proof. intros [-> | [-> | ->]]; discriminate. Qed.

Lemma waiting_not_completed st : waiting_status st → st ≠ COMPLETED.
Proof. intros [-> | [-> | ->]]; discriminate. Qed.

Lemma at_ok_not_completed now a j : at_ok now a j → Job.status j ≠ COMPLETED.
Proof.
  destruct a; cbn; try (intros [H _]; by apply active_not_completed).
  - apply waiting_not_completed.
  - intros ->. discriminate.
Qed.

Lemma at_ok_failed now a j :
  at_ok now a j → Job.status j = FAILED → a = AtStart ∨ a = AtRetrySleep.
Proof.
  destruct a; cbn; auto; intros [[H | [H | H]] _] E; congruence.
Qed.

(** Facts about an exception raised at a pipeline point. *)
Lemma exception_trans max now a j j' n :
  a ≠ AtStart → a ≠ AtRetrySleep →
  Job.id j' = Job.id j → Job.status j' = FAILED →
  is_Some (Job.error_message j') →
  Job.result_path j' = Job.result_path j →
  (at_ok now a j → (Job.progress j <= Job.progress j')%Q) →
  (if (Job.retry_count j <? max)%Z
   then Job.retry_count j' = (Job.retry_count j + 1)%Z ∧
        n = Suspend AtRetrySleep
   else Job.retry_count j' = Job.retry_count j ∧ n = Finish Returned) →
  job_trans max now a j j' n.
Proof.
  intros Ha1 Ha2 Hid Hst Herr Hres Hpr Hrc.
  unfold job_trans. repeat split; try done.
  - destruct (Z.ltb_spec (Job.retry_count j) max); destruct Hrc as [-> _]; lia.
  - rewrite Hst. intros [x Hx].
    match goal with Hat : at_ok _ _ _ |- _ =>
      apply at_ok_not_completed in Hat; destruct Hat end.
    match goal with Hiff : _ ↔ _ |- _ => apply Hiff end.
    rewrite <- Hres. eauto.
  - rewrite Hst. discriminate.
  - destruct (Job.retry_count j <? max)%Z; destruct Hrc as [_ ->]; cbn; done.
Qed.

Ltac status_clash :=
  exfalso;
  match goal with
  | Hiff : is_Some (Job.result_path ?j) ↔ Job.status ?j = COMPLETED,
    Hsome : is_Some (Job.result_path ?j) |- _ =>
    apply Hiff in Hsome; rewrite Hsome in *
  end;
  unfold active_status, waiting_status in *; intuition discriminate.

Ltac trans_split :=
  unfold job_trans, next_ok, at_ok, active_status; jproj;
  repeat match goal with
         | |- _ ∧ _ => split
         | |- _ ↔ _ => split
         | |- _ → _ => intro
         | H : _ ∧ _ |- _ => destruct H
         end.

Ltac trans_solve :=
  trans_split;
  first
    [ done
    | lia
    | by eauto
    | tauto
    | intuition congruence
    | status_clash
    | lra
    | apply poll_start_bound
    | match goal with
      | H : (_ <= 50 + Qmin 30 ((?t - ?st) / max_wait * 30))%Q |- _ =>
        pose proof (poll_bound_le_80 t st); lra
      end
    ].

Lemma process_job_spec key a r s s' n :
  _process_job cfg key a r s = Some (s', n) →
  ∃ j j', jobs s !! key = Some j ∧ jobs s' = <[key := j']> (jobs s) ∧
    workers s' = workers s ∧ processing_tasks s' = processing_tasks s ∧
    cancelling s' = cancelling s ∧ clock s' = clock s ∧
    upload_tree s' = upload_tree s ∧ template s' = template s ∧
    job_queue s' =
      job_queue (match a with
                 | AtRetrySleep => queue_job (Job.id j) s
                 | _ => s
                 end) ∧
    job_trans (max_retries cfg) (clock s) a j j' n.
Proof.
  unfold _process_job. destruct (jobs s !! key) as [j|] eqn:Hj; [|done].
  cbn [mbind option_bind]. intros H. exists j.
  assert (Hexc : ∀ s' n a msg, a ≠ AtStart → a ≠ AtRetrySleep →
    on_exception cfg key msg s = Some (s', n) →
    ∃ j', Some j = Some j ∧ jobs s' = <[key := j']> (jobs s) ∧
    workers s' = workers s ∧ processing_tasks s' = processing_tasks s ∧
    cancelling s' = cancelling s ∧ clock s' = clock s ∧
    upload_tree s' = upload_tree s ∧ template s' = template s ∧
    job_queue s' = job_queue s ∧
    job_trans (max_retries cfg) (clock s) a j j' n).
  { clear s' n H. intros s' n a0 msg Ha1 Ha2 Hex.
    eapply on_exception_spec in Hex
      as (j' & Hjobs & ? & ? & ? & ? & ? & ? & ? & Hid & Hst & Herr & Hres
          & Hpr & Hrc); [|exact Hj].
    exists j'. repeat (split; [done|]).
    apply exception_trans; try done. intros _. rewrite Hpr. apply Qle_refl. }
  destruct a, r; try discriminate H.
  - (* AtStart, Go *)
    injection H as <- <-. sproj. rewrite ?alter_alter_eq.
    eexists; split; [reflexivity|]. split; [by apply alter_alt_Some|].
    repeat (split; [done|]). trans_solve.
  - (* AtUpload, Uploaded *)
    destruct (_generate_workflow _ _ _ _) as [err|workflow].
    + eapply on_exception_spec in H
        as (j' & Hjobs & ? & ? & ? & ? & ? & ? & ? & Hid & Hst & Herr & Hres
            & Hpr & Hrc);
        [|sproj; rewrite lookup_alter_eq, Hj; reflexivity].
      sproj. rewrite insert_alter_same in Hjobs. jproj.
      exists j'. repeat (split; [done|]).
      apply exception_trans; try done.
      intros [_ Hle]. by rewrite Hpr.
    + injection H as <- <-. sproj. rewrite ?alter_alter_eq.
      eexists; split; [reflexivity|]. split; [by apply alter_alt_Some|].
    repeat (split; [done|]). trans_solve.
  - (* AtUpload, Raise *) apply (Hexc _ _ AtUpload msg); done.
  - (* AtSubmit, Queued *)
    eapply wait_loop_spec in H;
      [|sproj; rewrite !lookup_alter_eq, Hj; reflexivity].
    destruct H as [[-> ->] | [msg H]].
    + sproj. rewrite ?alter_alter_eq.
      eexists; split; [reflexivity|]. split; [by apply alter_alt_Some|].
      repeat (split; [done|]). trans_solve.
    + eapply on_exception_spec in H
        as (j' & Hjobs & ? & ? & ? & ? & ? & ? & ? & Hid & Hst & Herr & Hres
            & Hpr & Hrc);
        [|sproj; rewrite !lookup_alter_eq, Hj; reflexivity].
      sproj. rewrite !insert_alter_same in Hjobs. jproj.
      exists j'. repeat (split; [done|]).
      apply exception_trans; try done.
      intros [_ Hle]. by rewrite Hpr.
  - (* AtSubmit, Raise *) apply (Hexc _ _ (AtSubmit workflow) msg); done.
  - (* AtPoll, History *)
    destruct (history_completed _ _ _); injection H as <- <-; sproj;
      (eexists; split; [reflexivity|]; split; [by apply alter_alt_Some|]);
      repeat (split; [done|]); trans_solve.
  - (* AtPoll, Raise *) apply (Hexc _ _ (AtPoll prompt_id start_time) msg); done.
  - (* AtPollSleep, Go *)
    eapply wait_loop_spec in H; [|exact Hj].
    destruct H as [[-> ->] | [msg H]].
    + exists j. rewrite insert_id by done.
      repeat (split; [done|]). trans_solve.
    + apply (Hexc _ _ (AtPollSleep prompt_id start_time) msg); done.
  - (* AtDownload, Downloaded *)
    injection H as <- <-. sproj. rewrite ?alter_alter_eq.
    eexists; split; [reflexivity|]. split; [by apply alter_alt_Some|].
    repeat (split; [done|]). trans_solve.
  - (* AtDownload, Raise *) apply (Hexc _ _ (AtDownload prompt_id) msg); done.
  - (* AtRetrySleep, Go *)
    injection H as <- <-. exists j.
    assert (jobs (queue_job (Job.id j) s) = jobs s
            ∧ workers (queue_job (Job.id j) s) = workers s
            ∧ processing_tasks (queue_job (Job.id j) s) = processing_tasks s
            ∧ cancelling (queue_job (Job.id j) s) = cancelling s
            ∧ clock (queue_job (Job.id j) s) = clock s
            ∧ upload_tree (queue_job (Job.id j) s) = upload_tree s
            ∧ template (queue_job (Job.id j) s) = template s)
      as (-> & -> & -> & -> & -> & -> & ->).
    { unfold queue_job. by destruct (jobs s !! Job.id j). }
    rewrite insert_id by done.
    repeat (split; [done|]). trans_solve.
Qed.

(** ** Preservation of the invariant *)

Lemma at_ok_clock t t' a j : (t <= t')%Q → at_ok t a j → at_ok t' a j.
Proof.
  intros Ht. destruct a; cbn; try done; intros [Hs Hle]; (split; [done|]);
    (eapply Qle_trans; [exact Hle | by apply poll_bound_mono]).
Qed.

Lemma Inv_tick J q ws t t' :
  (t <= t')%Q → Inv_of J q ws t → Inv_of J q ws t'.
Proof.
  intros Ht [H1 H2 H3 H4 H5]. split; try done.
  intros w key a c Hw. destruct (H3 _ _ _ _ Hw) as (Hq & j & Hj & Hat).
  split; [done|]. exists j. split; [done|]. by eapply at_ok_clock.
Qed.

Lemma Inv_workers_sub J q ws ws' now :
  Inv_of J q ws now →
  (∀ w k a c, ws' !! w = Some (Busy k (Live a c)) →
     ∃ c', ws !! w = Some (Busy k (Live a c'))) →
  Inv_of J q ws' now.
Proof.
  intros [H1 H2 H3 H4 H5] Hsub. split; try done.
  - intros w key a c Hw. destruct (Hsub _ _ _ _ Hw) as [c' Hw']. eauto.
  - intros w1 w2 key a1 c1 a2 c2 Hw1 Hw2.
    destruct (Hsub _ _ _ _ Hw1) as [c1' Hw1'].
    destruct (Hsub _ _ _ _ Hw2) as [c2' Hw2']. eauto.
Qed.

Lemma Inv_owner_update J q ws now w key a c j j' t' :
  Inv_of J q ws now →
  ws !! w = Some (Busy key (Live a c)) →
  J !! key = Some j →
  job_ok key j' →
  match t' with Live a' _ => at_ok now a' j' | Done _ => True end →
  Inv_of (<[key := j']> J) q (<[w := Busy key t']> ws) now.
Proof.
  intros [H1 H2 H3 H4 H5] Hw Hj Hok Ht.
  pose proof (lookup_lt_Some _ _ _ Hw) as Hlen.
  destruct (H3 _ _ _ _ Hw) as (Hq & _).
  assert (Hother : ∀ w0 k a0 c0,
    <[w := Busy key t']> ws !! w0 = Some (Busy k (Live a0 c0)) →
    (w0 = w ∧ k = key ∧ t' = Live a0 c0) ∨
    (w0 ≠ w ∧ k ≠ key ∧ ws !! w0 = Some (Busy k (Live a0 c0)))).
  { intros w0 k a0 c0 Hw0. destruct (decide (w0 = w)) as [->|Hne].
    - rewrite list_lookup_insert_eq in Hw0 by done.
      injection Hw0 as -> ->. by left.
    - rewrite list_lookup_insert_ne in Hw0 by done. right.
      split; [done|]. split; [|done]. intros ->.
      apply Hne. eapply H4; eauto. }
  split; try done.
  - intros k Hk. assert (k ≠ key) by (intros ->; done).
    rewrite lookup_insert_ne by done. auto.
  - intros w0 k a0 c0 Hw0.
    destruct (Hother _ _ _ _ Hw0) as [(-> & -> & ->) | (Hne & Hk & Hw0')].
    + split; [done|]. exists j'. by rewrite lookup_insert_eq.
    + rewrite lookup_insert_ne by done. eauto.
  - intros w1 w2 k a1 c1 a2 c2 Hw1 Hw2.
    destruct (Hother _ _ _ _ Hw1) as [(-> & -> & ->) | (Hne1 & Hk1 & Hw1')];
    destruct (Hother _ _ _ _ Hw2) as [(-> & ? & ?) | (Hne2 & Hk2 & Hw2')];
      try done. eauto.
  - intros k j0. destruct (decide (k = key)) as [->|Hne].
    + rewrite lookup_insert_eq. by intros [= <-].
    + rewrite lookup_insert_ne by done. auto.
Qed.

Lemma Inv_requeue J q ws now w key c r :
  Inv_of J q ws now →
  ws !! w = Some (Busy key (Live AtRetrySleep c)) →
  Inv_of J (q ++ [key]) (<[w := Busy key (Done r)]> ws) now.
Proof.
  intros [H1 H2 H3 H4 H5] Hw.
  pose proof (lookup_lt_Some _ _ _ Hw) as Hlen.
  destruct (H3 _ _ _ _ Hw) as (Hq & j & Hj & Hat). cbn in Hat.
  assert (Hother : ∀ w0 k a0 c0,
    <[w := Busy key (Done r)]> ws !! w0 = Some (Busy k (Live a0 c0)) →
    w0 ≠ w ∧ k ≠ key ∧ ws !! w0 = Some (Busy k (Live a0 c0))).
  { intros w0 k a0 c0 Hw0. destruct (decide (w0 = w)) as [->|Hne].
    - by rewrite list_lookup_insert_eq in Hw0.
    - rewrite list_lookup_insert_ne in Hw0 by done.
      split; [done|]. split; [|done]. intros ->.
      apply Hne. eapply H4; eauto. }
  split.
  - apply NoDup_app. split; [done|]. split; [|apply NoDup_singleton].
    intros x Hx ->%list_elem_of_singleton. done.
  - intros k [Hk | ->%list_elem_of_singleton]%elem_of_app; [auto|].
    exists j. split; [done|]. right; by left.
  - intros w0 k a0 c0 Hw0. destruct (Hother _ _ _ _ Hw0) as (Hne & Hk & Hw0').
    destruct (H3 _ _ _ _ Hw0') as (Hq' & Hj').
    split; [|done]. rewrite not_elem_of_app, list_elem_of_singleton. done.
  - intros w1 w2 k a1 c1 a2 c2 Hw1 Hw2.
    destruct (Hother _ _ _ _ Hw1) as (_ & _ & Hw1').
    destruct (Hother _ _ _ _ Hw2) as (_ & _ & Hw2'). eauto.
  - done.
Qed.

Lemma Inv_dequeue J q ws now key :
  Inv_of J (key :: q) ws now → Inv_of J q ws now.
Proof.
  intros [H1 H2 H3 H4 H5]. apply NoDup_cons in H1 as [Hk H1].
  split; try done.
  - intros k Hk'. apply H2. by right.
  - intros w k a c Hw. destruct (H3 _ _ _ _ Hw) as (Hq & Hj).
    split; [|done]. intros Hin. apply Hq. by right.
Qed.

Lemma Inv_get J q ws now w key :
  Inv_of J (key :: q) ws now →
  ws !! w = Some Idle →
  Inv_of J q (<[w := Busy key (Live AtStart false)]> ws) now.
Proof.
  intros HI Hw. pose proof (lookup_lt_Some _ _ _ Hw) as Hlen.
  pose proof (Inv_dequeue _ _ _ _ _ HI) as [H1 H2 H3 H4 H5].
  destruct HI as [G1 G2 G3 G4 G5].
  apply NoDup_cons in G1 as [Hk G1].
  assert (Hother : ∀ w0 k a0 c0,
    <[w := Busy key (Live AtStart false)]> ws !! w0
      = Some (Busy k (Live a0 c0)) →
    (w0 = w ∧ k = key ∧ a0 = AtStart) ∨
    (w0 ≠ w ∧ k ≠ key ∧ ws !! w0 = Some (Busy k (Live a0 c0)))).
  { intros w0 k a0 c0 Hw0. destruct (decide (w0 = w)) as [->|Hne].
    - rewrite list_lookup_insert_eq in Hw0 by done.
      injection Hw0 as -> -> _. by left.
    - rewrite list_lookup_insert_ne in Hw0 by done. right.
      split; [done|]. split; [|done]. intros ->.
      destruct (G3 _ _ _ _ Hw0) as (Hq & _). apply Hq. by left. }
  split; try done.
  - intros w0 k a0 c0 Hw0.
    destruct (Hother _ _ _ _ Hw0) as [(-> & -> & ->) | (Hne & Hk' & Hw0')].
    + split; [done|]. destruct (G2 key) as (j & Hj & Hst); [by left|].
      exists j. done.
    + eauto.
  - intros w1 w2 k a1 c1 a2 c2 Hw1 Hw2.
    destruct (Hother _ _ _ _ Hw1) as [(-> & -> & ->) | (Hne1 & Hk1 & Hw1')];
    destruct (Hother _ _ _ _ Hw2) as [(-> & ? & ?) | (Hne2 & Hk2 & Hw2')];
      try done. eauto.
Qed.

Lemma Inv_create J q ws now key j :
  Inv_of J q ws now →
  J !! key = None →
  job_ok key j → waiting_status (Job.status j) →
  Inv_of (<[key := j]> J) (q ++ [key]) ws now.
Proof.
  intros [H1 H2 H3 H4 H5] Hnone Hok Hst.
  assert (Hq : key ∉ q).
  { intros Hin. destruct (H2 _ Hin) as (j0 & Hj0 & _). congruence. }
  split; try done.
  - apply NoDup_app. split; [done|]. split; [|apply NoDup_singleton].
    intros x Hx ->%list_elem_of_singleton. done.
  - intros k [Hk | ->%list_elem_of_singleton]%elem_of_app.
    + assert (k ≠ key) by (intros ->; done).
      rewrite lookup_insert_ne by done. auto.
    + exists j. by rewrite lookup_insert_eq.
  - intros w k a c Hw. destruct (H3 _ _ _ _ Hw) as (Hq' & j0 & Hj0 & Hat).
    assert (k ≠ key) by (intros ->; congruence).
    split.
    + rewrite not_elem_of_app, list_elem_of_singleton. done.
    + exists j0. by rewrite lookup_insert_ne.
  - intros k j0. destruct (decide (k = key)) as [->|Hne].
    + rewrite lookup_insert_eq. by intros [= <-].
    + rewrite lookup_insert_ne by done. auto.
Qed.

Lemma Inv_cancel J q ws now key j :
  Inv_of J q ws now →
  J !! key = Some j →
  cancellable (Job.status j) = true →
  Inv_of (<[key := Job.set_status CANCELLED j]> J) q ws now.
Proof.
  intros [H1 H2 H3 H4 H5] Hj Hc.
  assert (Hlook : ∀ k j0, <[key := Job.set_status CANCELLED j]> J !! k = Some j0 →
    (k = key ∧ j0 = Job.set_status CANCELLED j) ∨ (k ≠ key ∧ J !! k = Some j0)).
  { intros k j0. destruct (decide (k = key)) as [->|Hne].
    - rewrite lookup_insert_eq. intros [= <-]. by left.
    - rewrite lookup_insert_ne by done. by right. }
  split; try done.
  - intros k Hk. destruct (H2 _ Hk) as (j0 & Hj0 & Hst).
    destruct (decide (k = key)) as [->|Hne].
    + rewrite lookup_insert_eq. eexists; split; [done|]. right; by right.
    + rewrite lookup_insert_ne by done. eauto.
  - intros w k a c Hw. destruct (H3 _ _ _ _ Hw) as (Hq & j0 & Hj0 & Hat).
    split; [done|]. destruct (decide (k = key)) as [->|Hne].
    + rewrite lookup_insert_eq. eexists; split; [done|].
      assert (j0 = j) as -> by congruence.
      destruct a; cbn in *; jproj;
        try (split; [right; by right | by destruct Hat]).
      * right; by right.
      * rewrite Hat in Hc. discriminate.
    + rewrite lookup_insert_ne by done. eauto.
  - intros k j0 Hk. destruct (Hlook _ _ Hk) as [[-> ->] | [Hne Hk']]; [|auto].
    destruct (H5 _ _ Hj) as [Hid Hres]. split; [done|]. jproj.
    split; [|discriminate]. intros Hsome. apply Hres in Hsome.
    rewrite Hsome in Hc. discriminate.
Qed.

Lemma insert_not_live (ws : list Worker) w v w0 k a c :
  ¬ is_live v →
  <[w := v]> ws !! w0 = Some (Busy k (Live a c)) →
  ws !! w0 = Some (Busy k (Live a c)).
Proof.
  intros Hv. destruct (decide (w0 = w)) as [->|Hne].
  - destruct (decide (w < length ws)) as [Hlt|Hge].
    + rewrite list_lookup_insert_eq by done. intros [= ->]. by destruct Hv.
    + by rewrite list_insert_ge by lia.
  - by rewrite list_lookup_insert_ne.
Qed.

Lemma Inv_retire J q ws now w v :
  ¬ is_live v → Inv_of J q ws now → Inv_of J q (<[w := v]> ws) now.
Proof.
  intros Hv HI. eapply Inv_workers_sub; [exact HI|].
  intros w0 k a c Hw0. exists c. by eapply insert_not_live.
Qed.

Lemma task_cancel_live h s w k a c :
  workers (task_cancel h s) !! w = Some (Busy k (Live a c)) →
  ∃ c', workers s !! w = Some (Busy k (Live a c')).
Proof.
  unfold task_cancel.
  destruct (workers s !! h) as [[|key [a0 c0|r]|]|] eqn:Hh; eauto.
  sproj. destruct (decide (w = h)) as [->|Hne].
  - rewrite list_lookup_insert_eq by (by eapply lookup_lt_Some).
    intros [= -> -> <-]. eauto.
  - rewrite list_lookup_insert_ne by done. eauto.
Qed.

Lemma cancel_processing_task_live job_id s w k a c :
  workers (cancel_processing_task job_id s) !! w = Some (Busy k (Live a c)) →
  ∃ c', workers s !! w = Some (Busy k (Live a c')).
Proof.
  unfold cancel_processing_task.
  destruct (processing_tasks s !! job_id); [apply task_cancel_live | eauto].
Qed.

Lemma Inv_task_cancel h s : Inv s → Inv (task_cancel h s).
Proof.
  intros HI. unfold Inv.
  assert (jobs (task_cancel h s) = jobs s ∧
          job_queue (task_cancel h s) = job_queue s ∧
          clock (task_cancel h s) = clock s) as (-> & -> & ->).
  { unfold task_cancel. by destruct (workers s !! h) as [[|? [? ?|?]|]|]. }
  eapply Inv_workers_sub; [exact HI|]. apply task_cancel_live.
Qed.

Lemma Inv_cancel_processing_task job_id s :
  Inv s → Inv (cancel_processing_task job_id s).
Proof.
  unfold cancel_processing_task.
  destruct (processing_tasks s !! job_id); [apply Inv_task_cancel | done].
Qed.

Lemma sweep_sub cutoff io_fails tree f :
  f ∈ (sweep cutoff io_fails tree).1 → f ∈ tree.
Proof.
  induction tree as [|file rest IH]; cbn; [done|].
  destruct (fe_is_file file);
    [destruct (io_fails (fe_path file)); cbn; [done|];
     destruct (Qltb (fe_mtime file) cutoff); [intros Hin; right; auto|]|];
    destruct (sweep cutoff io_fails rest) as [rest' ok]; cbn in *;
    (intros [->|Hin]%elem_of_cons; [by left | right; auto]).
Qed.

Lemma cleanup_frame io_fails s :
  let s' := _cleanup_task cfg io_fails s in
  jobs s' = jobs s ∧ job_queue s' = job_queue s ∧
  processing_tasks s' = processing_tasks s ∧ workers s' = workers s ∧
  cancelling s' = cancelling s ∧ template s' = template s ∧
  clock s' = clock s.
Proof.
  unfold _cleanup_task.
  destruct (sweep _ _ (upload_tree s)) as [uploads [|]]; sproj;
    [destruct (sweep _ _ _) as [outputs ?]|]; done.
Qed.

Lemma step_Inv e s s' : Inv s → step cfg e s = Some s' → Inv s'.
Proof.
  intros HI. destruct e as [t|job_id name wc|w|w r|w|job_id|job_id|uf]; cbn.
  - (* Tick *)
    destruct (Qle_bool (clock s) t) eqn:Ht; [|done]. intros [= <-].
    apply Qle_bool_imp_le in Ht. unfold Inv in *. sproj.
    by eapply Inv_tick.
  - (* CreateJob *)
    unfold create_job. destruct (jobs s !! job_id) eqn:Hj; [done|].
    intros [= <-]. unfold Inv in *. sproj.
    apply Inv_create; [done | done | | by left].
    split; [done|]. jproj. split; [by intros [? ?] | done].
  - (* WorkerGet *)
    unfold worker_get.
    destruct (workers s !! w) as [[| |]|] eqn:Hw; try done.
    destruct (job_queue s) as [|key rest] eqn:Hq; [done|]. sproj.
    unfold Inv in HI. rewrite Hq in HI.
    destruct (jobs s !! key); intros [= <-]; unfold Inv; sproj.
    + by apply Inv_get.
    + by eapply Inv_dequeue.
  - (* TaskResume *)
    unfold task_resume.
    destruct (workers s !! w) as [[|key [a [|]|]|]|] eqn:Hw; try done.
    + intros [= <-]. unfold Inv in *. sproj. apply Inv_retire; [|done].
      by intros [].
    + destruct (_process_job cfg key a r s) as [[s1 n]|] eqn:Hp; [|done].
      cbn [mbind option_bind].
      apply process_job_spec in Hp
        as (j & j' & Hj & Hjobs & Hws & _ & _ & Hclock & _ & _ & Hq & Htr).
      destruct Htr as (Hid & _ & _ & Hok & _ & _ & Hretry & _).
      destruct (inv_live _ _ _ _ HI _ _ _ _ Hw) as (Hnq & j0 & Hj0 & Hat).
      assert (j0 = j) as -> by congruence.
      destruct (inv_jobs _ _ _ _ HI _ _ Hj) as [Hkey Hres].
      destruct (Hok Hat Hres) as [Hres' Hn].
      assert (Hjob' : job_ok key j') by (split; [congruence | done]).
      assert (a = AtRetrySleep ∨ a ≠ AtRetrySleep) as [->|Hne]
        by (destruct a; (by left) || (by right)).
      * destruct (Hretry eq_refl) as [-> ->].
        intros [= <-]. unfold Inv in *. sproj.
        rewrite Hjobs, Hws, Hclock, Hq, insert_id by done.
        unfold queue_job. rewrite Hkey, Hj. sproj. by eapply Inv_requeue.
      * assert (job_queue s1 = job_queue s) as Hq' by (by destruct a).
        destruct n as [a'|res]; intros [= <-]; unfold Inv in *; sproj;
          rewrite Hjobs, Hws, Hclock, Hq'; by eapply Inv_owner_update.
  - (* WorkerWake *)
    unfold worker_wake.
    destruct (workers s !! w) as [[|key [a c|res]|]|] eqn:Hw; try done.
    intros [= <-]. unfold Inv in *. sproj. apply Inv_retire; [|done].
    destruct res; cbn; tauto.
  - (* CancelJob *)
    intros [= <-]. unfold cancel_job.
    destruct (jobs s !! job_id) as [j|] eqn:Hj; [|done].
    destruct (cancellable (Job.status j)) eqn:Hc; [|done].
    assert (Inv (with_job job_id (Job.set_status CANCELLED) s)) as HI'.
    { unfold Inv in *. sproj. erewrite alter_alt_Some by done.
      by apply Inv_cancel. }
    destruct (truthy (Job.comfy_prompt_id j)); cbn [fst].
    + done.
    + by apply Inv_cancel_processing_task.
  - (* CancelResume *)
    destruct (bool_decide _); [|done]. intros [= <-]. cbn [fst].
    unfold cancel_job_resume. cbn [fst].
    by apply Inv_cancel_processing_task.
  - (* Cleanup *)
    destruct (cleanup_old_files cfg); [|done]. intros [= <-].
    destruct (cleanup_frame uf s) as (Hj & Hq & _ & Hw & _ & _ & Hc).
    unfold Inv. by rewrite Hj, Hq, Hw, Hc.
Qed.

Lemma init_Inv t0 tpl uploads outputs :
  Inv (init_server cfg t0 tpl uploads outputs).
Proof.
  unfold Inv, init_server. sproj. split.
  - apply NoDup_nil_2.
  - intros key Hk. by apply elem_of_nil in Hk.
  - intros w key a c Hw. apply lookup_replicate in Hw as [? _]. done.
  - intros w1 w2 key a1 c1 a2 c2 Hw. apply lookup_replicate in Hw as [? _].
    done.
  - intros key j. by rewrite lookup_empty.
Qed.

Lemma exec_Inv es s s' : Inv s → exec cfg es s = Some s' → Inv s'.
Proof.
  revert s. induction es as [|e es IH]; intros s HI; cbn.
  - by intros [= <-].
  - destruct (step cfg e s) as [s1|] eqn:Hs; [|done].
    cbn. apply IH. by eapply step_Inv.
Qed.

Lemma reachable_Inv s : reachable cfg s → Inv s.
Proof.
  intros (t0 & tpl & up & out & es & Hes).
  eapply exec_Inv; [apply init_Inv | exact Hes].
Qed.


(** ** What one step does to a job *)

Lemma task_cancel_jobs h s :
  jobs (task_cancel h s) = jobs s ∧
  job_queue (task_cancel h s) = job_queue s.
Proof.
  unfold task_cancel. by destruct (workers s !! h) as [[|? [? ?|?]|]|].
Qed.

Lemma cancel_processing_task_jobs job_id s :
  jobs (cancel_processing_task job_id s) = jobs s ∧
  job_queue (cancel_processing_task job_id s) = job_queue s.
Proof.
  unfold cancel_processing_task.
  destruct (processing_tasks s !! job_id); [apply task_cancel_jobs | done].
Qed.

Lemma cancel_job_jobs job_id s key :
  jobs (cancel_job job_id s).1 !! key =
    match jobs s !! job_id with
    | Some j =>
      if cancellable (Job.status j) && bool_decide (key = job_id)
      then Some (Job.set_status CANCELLED j)
      else jobs s !! key
    | None => jobs s !! key
    end.
Proof.
  unfold cancel_job. destruct (jobs s !! job_id) as [j|] eqn:Hj; [|done].
  destruct (cancellable (Job.status j)); [|done]. cbn [andb].
  assert (alter (Job.set_status CANCELLED) job_id (jobs s) !! key =
          if bool_decide (key = job_id)
          then Some (Job.set_status CANCELLED j) else jobs s !! key) as Hl.
  { case_bool_decide as Hk.
    - subst. by rewrite lookup_alter_eq, Hj.
    - by rewrite lookup_alter_ne. }
  destruct (truthy (Job.comfy_prompt_id j)); cbn [fst].
  - sproj. exact Hl.
  - destruct (cancel_processing_task_jobs job_id
                (with_job job_id (Job.set_status CANCELLED) s)) as [-> _].
    sproj. exact Hl.
Qed.

Lemma step_job_raw e s s' key j :
  step cfg e s = Some s' →
  jobs s !! key = Some j →
  ∃ j', jobs s' !! key = Some j' ∧
    (j' = j
     ∨ (e = CancelJob key ∧ cancellable (Job.status j) = true ∧
        j' = Job.set_status CANCELLED j)
     ∨ (∃ w a r n, e = TaskResume w r ∧
          workers s !! w = Some (Busy key (Live a false)) ∧
          job_trans (max_retries cfg) (clock s) a j j' n)).
Proof.
  intros Hstep Hj.
  destruct e as [t|job_id name wc|w|w r|w|job_id|job_id|uf]; cbn in Hstep.
  - destruct (Qle_bool (clock s) t); [|done]. injection Hstep as <-.
    exists j. split; [done | by left].
  - unfold create_job in Hstep.
    destruct (jobs s !! job_id) eqn:Hid; [done|]. injection Hstep as <-.
    exists j. split; [|by left]. sproj.
    rewrite lookup_insert_ne; [done | congruence].
  - unfold worker_get in Hstep.
    destruct (workers s !! w) as [[| |]|]; try done.
    destruct (job_queue s) as [|k rest]; [done|]. sproj.
    destruct (jobs s !! k); injection Hstep as <-; exists j;
      (split; [done | by left]).
  - unfold task_resume in Hstep.
    destruct (workers s !! w) as [[|k [a [|]|]|]|] eqn:Hw; try done.
    + injection Hstep as <-. exists j. split; [done | by left].
    + destruct (_process_job cfg k a r s) as [[s1 n]|] eqn:Hp; [|done].
      cbn [mbind option_bind] in Hstep.
      apply process_job_spec in Hp
        as (j0 & j' & Hj0 & Hjobs & _ & _ & _ & _ & _ & _ & _ & Htr).
      assert (jobs s' = jobs s1) as ->
        by (destruct n; injection Hstep as <-; done).
      rewrite Hjobs. destruct (decide (key = k)) as [->|Hne].
      * assert (j0 = j) as -> by congruence.
        exists j'. rewrite lookup_insert_eq. split; [done|].
        right; right. by exists w, a, r, n.
      * exists j. rewrite lookup_insert_ne by done. split; [done | by left].
  - unfold worker_wake in Hstep.
    destruct (workers s !! w) as [[|k [a c|res]|]|]; try done.
    injection Hstep as <-. exists j. split; [done | by left].
  - injection Hstep as <-. rewrite cancel_job_jobs.
    destruct (jobs s !! job_id) as [j0|] eqn:Hj0;
      [|exists j; split; [done | by left]].
    destruct (cancellable (Job.status j0)) eqn:Hc; cbn [andb];
      [|exists j; split; [done | by left]].
    case_bool_decide as Hk; [|exists j; split; [done | by left]].
    subst. assert (j0 = j) as -> by congruence.
    eexists; split; [done|]. right; left. done.
  - destruct (bool_decide _); [|done]. injection Hstep as <-.
    unfold cancel_job_resume. cbn [fst].
    destruct (cancel_processing_task_jobs job_id
      (set_cancelling (remove_first job_id (cancelling s)) s)) as [-> _].
    exists j. split; [done | by left].
  - destruct (cleanup_old_files cfg); [|done]. injection Hstep as <-.
    destruct (cleanup_frame uf s) as (-> & _).
    exists j. split; [done | by left].
Qed.

Lemma step_job e s s' key j :
  Inv s →
  step cfg e s = Some s' →
  jobs s !! key = Some j →
  ∃ j', jobs s' !! key = Some j' ∧
    (j' = j
     ∨ (e = CancelJob key ∧ cancellable (Job.status j) = true ∧
        j' = Job.set_status CANCELLED j)
     ∨ (∃ w a r n, e = TaskResume w r ∧
          workers s !! w = Some (Busy key (Live a false)) ∧
          at_ok (clock s) a j ∧
          job_trans (max_retries cfg) (clock s) a j j' n)).
Proof.
  intros HI Hstep Hj.
  destruct (step_job_raw _ _ _ _ _ Hstep Hj) as (j' & Hj' & Hcases).
  exists j'. split; [done|].
  destruct Hcases as [? | [? | (w & a & r & n & He & Hw & Htr)]]; auto.
  right; right. exists w, a, r, n. repeat (split; [done|]). split; [|done].
  destruct (inv_live _ _ _ _ HI _ _ _ _ Hw) as (_ & j0 & Hj0 & Hat).
  congruence.
Qed.

(** A job appears in the store only through [create_job]. *)
Lemma step_new_job e s s' key j' :
  step cfg e s = Some s' →
  jobs s !! key = None →
  jobs s' !! key = Some j' →
  Job.retry_count j' = 0%Z ∧ Job.error_message j' = None.
Proof.
  intros Hstep Hnone Hj'.
  destruct e as [t|job_id name wc|w|w r|w|job_id|job_id|uf]; cbn in Hstep.
  - destruct (Qle_bool (clock s) t); [|done]. injection Hstep as <-.
    sproj. congruence.
  - unfold create_job in Hstep.
    destruct (jobs s !! job_id) eqn:Hid; [done|]. injection Hstep as <-.
    sproj. destruct (decide (key = job_id)) as [->|Hne].
    + rewrite lookup_insert_eq in Hj'. by injection Hj' as <-.
    + rewrite lookup_insert_ne in Hj' by done. congruence.
  - unfold worker_get in Hstep.
    destruct (workers s !! w) as [[| |]|]; try done.
    destruct (job_queue s) as [|k rest]; [done|]. sproj.
    destruct (jobs s !! k); injection Hstep as <-; sproj; congruence.
  - unfold task_resume in Hstep.
    destruct (workers s !! w) as [[|k [a [|]|]|]|] eqn:Hw; try done.
    + injection Hstep as <-. sproj. congruence.
    + destruct (_process_job cfg k a r s) as [[s1 n]|] eqn:Hp; [|done].
      cbn [mbind option_bind] in Hstep.
      apply process_job_spec in Hp
        as (j0 & j1 & Hj0 & Hjobs & _ & _ & _ & _ & _ & _ & _ & Htr).
      assert (jobs s' = jobs s1) as Heq
        by (destruct n; injection Hstep as <-; done).
      rewrite Heq, Hjobs, lookup_insert_ne in Hj' by congruence. congruence.
  - unfold worker_wake in Hstep.
    destruct (workers s !! w) as [[|k [a c|res]|]|]; try done.
    injection Hstep as <-. sproj. congruence.
  - injection Hstep as <-. rewrite cancel_job_jobs in Hj'.
    destruct (jobs s !! job_id) as [j0|] eqn:Hj0; [|congruence].
    destruct (cancellable (Job.status j0)); cbn [andb] in Hj'; [|congruence].
    case_bool_decide; congruence.
  - destruct (bool_decide _); [|done]. injection Hstep as <-.
    unfold cancel_job_resume in Hj'. cbn [fst] in Hj'.
    destruct (cancel_processing_task_jobs job_id
      (set_cancelling (remove_first job_id (cancelling s)) s)) as [Heq _].
    rewrite Heq in Hj'. sproj. congruence.
  - destruct (cleanup_old_files cfg); [|done]. injection Hstep as <-.
    destruct (cleanup_frame uf s) as (Heq & _). rewrite Heq in Hj'. congruence.
Qed.


(** ** Task handles *)

Lemma handles_ok_set_worker s w key t t' :
  handles_ok s →
  workers s !! w = Some (Busy key t) →
  handles_ok (set_worker w (Busy key t') s).
Proof.
  intros Hh Hw k h Hk. sproj. destruct (Hh _ _ Hk) as [t0 Ht0].
  destruct (decide (h = w)) as [->|Hne].
  - rewrite list_lookup_insert_eq by (by eapply lookup_lt_Some).
    exists t'. congruence.
  - rewrite list_lookup_insert_ne by done. eauto.
Qed.

Lemma handles_ok_task_cancel h s : handles_ok s → handles_ok (task_cancel h s).
Proof.
  intros Hh. unfold task_cancel.
  destruct (workers s !! h) as [[|key [a c|r]|]|] eqn:Hw; try done.
  by eapply handles_ok_set_worker.
Qed.

Lemma handles_ok_cancel_processing_task job_id s :
  handles_ok s → handles_ok (cancel_processing_task job_id s).
Proof.
  intros Hh. unfold cancel_processing_task.
  destruct (processing_tasks s !! job_id); [by apply handles_ok_task_cancel|].
  done.
Qed.

Lemma step_handles_ok e s s' :
  handles_ok s → step cfg e s = Some s' → handles_ok s'.
Proof.
  intros Hh. destruct e as [t|job_id name wc|w|w r|w|job_id|job_id|uf]; cbn.
  - destruct (Qle_bool (clock s) t); [|done]. by intros [= <-].
  - unfold create_job. destruct (jobs s !! job_id); [done|]. by intros [= <-].
  - unfold worker_get.
    destruct (workers s !! w) as [[| |]|] eqn:Hw; try done.
    destruct (job_queue s) as [|key rest]; [done|]. sproj.
    destruct (jobs s !! key); intros [= <-]; [|done].
    intros k h. sproj. destruct (decide (k = key)) as [->|Hne].
    + rewrite lookup_insert_eq. intros [= <-].
      rewrite list_lookup_insert_eq by (by eapply lookup_lt_Some). eauto.
    + rewrite lookup_insert_ne by done. intros Hk.
      destruct (Hh _ _ Hk) as [t0 Ht0].
      rewrite list_lookup_insert_ne by congruence. eauto.
  - unfold task_resume.
    destruct (workers s !! w) as [[|key [a [|]|]|]|] eqn:Hw; try done.
    + intros [= <-]. by eapply handles_ok_set_worker.
    + destruct (_process_job cfg key a r s) as [[s1 n]|] eqn:Hp; [|done].
      cbn [mbind option_bind].
      apply process_job_spec in Hp
        as (_ & _ & _ & _ & Hws & Hpt & _).
      assert (handles_ok s1) as Hh1
        by (intros k h; rewrite Hpt, Hws; apply Hh).
      rewrite <- Hws in Hw.
      destruct n; intros [= <-]; by eapply handles_ok_set_worker.
  - unfold worker_wake.
    destruct (workers s !! w) as [[|key [a c|res]|]|] eqn:Hw; try done.
    intros [= <-] k h. sproj. destruct (decide (k = key)) as [->|Hne].
    + by rewrite lookup_delete_eq.
    + rewrite lookup_delete_ne by done. intros Hk.
      destruct (Hh _ _ Hk) as [t0 Ht0].
      rewrite list_lookup_insert_ne by congruence. eauto.
  - intros [= <-]. unfold cancel_job.
    destruct (jobs s !! job_id) as [j|]; [|done].
    destruct (cancellable (Job.status j)); [|done].
    destruct (truthy (Job.comfy_prompt_id j)); cbn [fst]; [done|].
    by apply handles_ok_cancel_processing_task.
  - destruct (bool_decide _); [|done]. intros [= <-].
    unfold cancel_job_resume. cbn [fst].
    by apply handles_ok_cancel_processing_task.
  - destruct (cleanup_old_files cfg); [|done]. intros [= <-].
    destruct (cleanup_frame uf s) as (_ & _ & Hpt & Hws & _).
    intros k h. rewrite Hpt, Hws. apply Hh.
Qed.

(** The handles kept in [processing_tasks] never go stale, so that a
    handle can be the index of the awaiting worker. *)
Lemma reachable_handles_ok s : reachable cfg s → handles_ok s.
Proof.
  intros (t0 & tpl & up & out & es & Hes).
  assert (handles_ok (init_server cfg t0 tpl up out)) as H0.
  { intros key h. unfold init_server. sproj. by rewrite lookup_empty. }
  revert H0 Hes. generalize (init_server cfg t0 tpl up out).
  induction es as [|e es IH]; intros s0 H0 Hex; cbn in Hex.
  - by injection Hex as <-.
  - destruct (step cfg e s0) as [s1|] eqn:Hs; [|done]. cbn in Hex.
    eapply IH; [|exact Hex]. by eapply step_handles_ok.
Qed.

(** ** The worker loop, one identifier at a time *)

(** [_process_job] lets no [Exception] out. *)
Lemma process_job_catches_exceptions key a r s s' res :
  _process_job cfg key a r s = Some (s', Finish res) → res = Returned.
Proof.
  unfold _process_job, wait_loop, on_exception.
  destruct (jobs s !! key) as [j|]; [|done]. cbn [mbind option_bind].
  destruct a, r; try done; sproj;
    repeat match goal with
           | |- context [_generate_workflow ?t ?n ?f ?c] =>
             destruct (_generate_workflow t n f c)
           | |- context [history_completed ?p ?c ?e] =>
             destruct (history_completed p c e)
           | |- context [Qltb ?x ?y] => destruct (Qltb x y)
           | |- context [alter ?f ?k ?m !! ?k] =>
             rewrite (lookup_alter_eq f m k)
           | |- context [jobs s !! key] => destruct (jobs s !! key)
           | |- context [(?x <? ?y)%Z] => destruct (x <? y)%Z
           | _ => progress cbn [fmap option_fmap option_map mbind option_bind]
           end;
    try done; by intros [= _ <-].
Qed.

(** An identifier that is not in [jobs] is dropped and the worker stays
    in [job_queue.get()]. *)
Lemma worker_skips_unknown_identifier w key rest s :
  workers s !! w = Some Idle →
  job_queue s = key :: rest →
  jobs s !! key = None →
  worker_get w s = Some (set_job_queue rest s).
Proof.
  intros Hw Hq Hj. unfold worker_get. rewrite Hw, Hq. sproj. by rewrite Hj.
Qed.

(** After a task that returned or raised an [Exception] the worker is
    back in [job_queue.get()]. *)
Lemma worker_continues_after_task w key res s :
  workers s !! w = Some (Busy key (Done res)) →
  res ≠ WasCancelled →
  ∃ s', worker_wake w s = Some s' ∧ workers s' !! w = Some Idle.
Proof.
  intros Hw Hres. unfold worker_wake. rewrite Hw.
  eexists. split; [reflexivity|]. sproj.
  rewrite list_lookup_insert_eq by (by eapply lookup_lt_Some).
  by destruct res.
Qed.

(** ** Jobs nobody holds *)

Lemma cancel_job_queue_workers job_id s :
  job_queue (cancel_job job_id s).1 = job_queue s ∧
  ∀ w k a c,
    workers (cancel_job job_id s).1 !! w = Some (Busy k (Live a c)) →
    ∃ c', workers s !! w = Some (Busy k (Live a c')).
Proof.
  unfold cancel_job. destruct (jobs s !! job_id) as [j|]; [|by eauto].
  destruct (cancellable (Job.status j)); [|by eauto].
  destruct (truthy (Job.comfy_prompt_id j)); cbn [fst]; [by eauto|].
  split.
  - by destruct (cancel_processing_task_jobs job_id
                   (with_job job_id (Job.set_status CANCELLED) s)) as [_ ->].
  - intros w k a c Hw. by apply cancel_processing_task_live in Hw.
Qed.

(** No step hands a job to the queue or to a task unless the queue or a
    task held it before: identifiers are neither duplicated nor
    resurrected. *)
Lemma step_idle_job e s s' key :
  Inv s →
  step cfg e s = Some s' →
  is_Some (jobs s !! key) →
  idle_job s key → idle_job s' key.
Proof.
  intros HI Hstep [j Hj] [Hq Hlive].
  destruct e as [t|job_id name wc|w|w r|w|job_id|job_id|uf]; cbn in Hstep.
  - destruct (Qle_bool (clock s) t); [|done]. by injection Hstep as <-.
  - unfold create_job in Hstep.
    destruct (jobs s !! job_id) eqn:Hid; [done|]. injection Hstep as <-.
    split; [|done]. sproj.
    rewrite not_elem_of_app, list_elem_of_singleton. split; [done|congruence].
  - unfold worker_get in Hstep.
    destruct (workers s !! w) as [[| |]|] eqn:Hw; try done.
    destruct (job_queue s) as [|k rest] eqn:Hqs; [done|]. sproj.
    apply not_elem_of_cons in Hq as [Hk Hrest].
    destruct (jobs s !! k); injection Hstep as <-; (split; [done|]); sproj;
      [|done].
    intros w0 a c. destruct (decide (w0 = w)) as [->|Hne].
    + rewrite list_lookup_insert_eq by (by eapply lookup_lt_Some). congruence.
    + rewrite list_lookup_insert_ne by done. apply Hlive.
  - unfold task_resume in Hstep.
    destruct (workers s !! w) as [[|k [a [|]|]|]|] eqn:Hw; try done.
    + injection Hstep as <-. split; [done|]. sproj.
      intros w0 a0 c0. destruct (decide (w0 = w)) as [->|Hne].
      * by rewrite list_lookup_insert_eq by (by eapply lookup_lt_Some).
      * rewrite list_lookup_insert_ne by done. apply Hlive.
    + assert (k ≠ key) as Hk by (intros ->; by eapply Hlive).
      destruct (_process_job cfg k a r s) as [[s1 n]|] eqn:Hp; [|done].
      cbn [mbind option_bind] in Hstep.
      apply process_job_spec in Hp
        as (j0 & j1 & Hj0 & _ & Hws & _ & _ & _ & _ & _ & Hqs & _).
      destruct (inv_jobs _ _ _ _ HI _ _ Hj0) as [Hid _].
      assert (key ∉ job_queue s1) as Hq1.
      { rewrite Hqs. destruct a; try done. unfold queue_job.
        rewrite Hid, Hj0. sproj.
        rewrite not_elem_of_app, list_elem_of_singleton. done. }
      assert (∀ t', idle_job (set_worker w (Busy k t') s1) key) as Hidle.
      { intros t'. split; [done|]. sproj. rewrite Hws.
        intros w0 a0 c0. destruct (decide (w0 = w)) as [->|Hne].
        - rewrite list_lookup_insert_eq by (by eapply lookup_lt_Some).
          congruence.
        - rewrite list_lookup_insert_ne by done. apply Hlive. }
      destruct n; injection Hstep as <-; apply Hidle.
  - unfold worker_wake in Hstep.
    destruct (workers s !! w) as [[|k [a c|res]|]|] eqn:Hw; try done.
    injection Hstep as <-. split; [done|]. sproj.
    intros w0 a0 c0. destruct (decide (w0 = w)) as [->|Hne].
    + rewrite list_lookup_insert_eq by (by eapply lookup_lt_Some).
      by destruct res.
    + rewrite list_lookup_insert_ne by done. apply Hlive.
  - injection Hstep as <-.
    destruct (cancel_job_queue_workers job_id s) as [Hqs Hws].
    split; [by rewrite Hqs|].
    intros w a c Hw. destruct (Hws _ _ _ _ Hw) as [c' Hw'].
    by eapply Hlive.
  - destruct (bool_decide _); [|done]. injection Hstep as <-.
    unfold cancel_job_resume. cbn [fst]. split.
    + by destruct (cancel_processing_task_jobs job_id
        (set_cancelling (remove_first job_id (cancelling s)) s)) as [_ ->].
    + intros w a c Hw. apply cancel_processing_task_live in Hw as [c' Hw'].
      by eapply Hlive.
  - destruct (cleanup_old_files cfg); [|done]. injection Hstep as <-.
    destruct (cleanup_frame uf s) as (_ & Hqs & _ & Hws & _).
    split; [by rewrite Hqs | by rewrite Hws].
Qed.

(** A Failed job that nobody holds is left alone for ever: the record
    does not change and the identifier never returns to the queue. *)
Lemma settled_failure_is_final es s s' key j :
  Inv s →
  jobs s !! key = Some j →
  Job.status j = FAILED →
  idle_job s key →
  exec cfg es s = Some s' →
  jobs s' !! key = Some j ∧ idle_job s' key.
Proof.
  revert s. induction es as [|e es IH]; intros s HI Hj Hst Hidle Hex;
    cbn in Hex.
  - by injection Hex as <-.
  - destruct (step cfg e s) as [s1|] eqn:Hs; [|done]. cbn in Hex.
    assert (jobs s1 !! key = Some j) as Hj1.
    { destruct (step_job _ _ _ _ _ HI Hs Hj) as (j1 & Hj1 & Hcases).
      destruct Hcases
        as [-> | [(_ & Hc & _) | (w & a & r & n & _ & Hw & _)]]; [done| |].
      - rewrite Hst in Hc. discriminate.
      - destruct Hidle as [_ Hlive]. by destruct (Hlive w a false). }
    apply (IH s1); try done.
    + by eapply step_Inv.
    + eapply step_idle_job; eauto.
Qed.

(** ** Lifecycle theorems *)

(** C8: in every reachable state a job has a result path if and only if
    its status is Completed; the result route serves a file exactly for
    those jobs. *)
Theorem result_path_iff_completed s key j :
  reachable cfg s →
  jobs s !! key = Some j →
  (is_Some (Job.result_path j) ↔ Job.status j = COMPLETED) ∧
  ((∃ path name media,
      Api.get_job_result key s = Api.FileResponse path name media)
   ↔ Job.status j = COMPLETED).
Proof.
  intros Hr Hj. apply reachable_Inv in Hr.
  destruct (inv_jobs _ _ _ _ Hr _ _ Hj) as [_ Hres].
  split; [done|].
  unfold Api.get_job_result, get_job. rewrite Hj.
  destruct (Job.result_path j) as [path|] eqn:Hp.
  - case_bool_decide as Hst.
    + split; [by intros (? & ? & ? & ?) | done].
    + split; [intros _ | eauto].
      destruct (decide (Job.status j = COMPLETED)); done.
  - split; [by intros (? & ? & ? & ?)|].
    intros Hc. apply Hres in Hc. by destruct Hc.
Qed.

Lemma step_completed e s s' key j :
  Inv s → step cfg e s = Some s' →
  jobs s !! key = Some j → Job.status j = COMPLETED →
  ∃ j', jobs s' !! key = Some j' ∧ Job.status j' = COMPLETED.
Proof.
  intros HI Hstep Hj Hst.
  destruct (step_job _ _ _ _ _ HI Hstep Hj) as (j' & Hj' & Hcases).
  exists j'. split; [done|].
  destruct Hcases as [-> | [(_ & Hc & _) | (w & a & r & n & _ & _ & Hat & _)]].
  - done.
  - rewrite Hst in Hc. discriminate.
  - by apply at_ok_not_completed in Hat.
Qed.

Lemma exec_completed es s s' key j :
  Inv s → exec cfg es s = Some s' →
  jobs s !! key = Some j → Job.status j = COMPLETED →
  ∃ j', jobs s' !! key = Some j' ∧ Job.status j' = COMPLETED.
Proof.
  revert s j. induction es as [|e es IH]; intros s j HI Hex Hj Hst; cbn in Hex.
  - injection Hex as <-. eauto.
  - destruct (step cfg e s) as [s1|] eqn:Hs; [|done]. cbn in Hex.
    destruct (step_completed _ _ _ _ _ HI Hs Hj Hst) as (j1 & Hj1 & Hst1).
    eapply (IH s1 j1); [by eapply step_Inv | done | done | done].
Qed.

(** C1, amended: Completed is final, whatever happens next.  Failed is
    left only when a task begins a new attempt on the job, which sets
    Uploading; a Failed job that is neither queued nor held by a task
    never changes again. *)
Theorem completed_is_final_failed_until_retry s key j :
  reachable cfg s →
  jobs s !! key = Some j →
  (Job.status j = COMPLETED →
   ∀ es s', exec cfg es s = Some s' →
     ∃ j', jobs s' !! key = Some j' ∧ Job.status j' = COMPLETED) ∧
  (Job.status j = FAILED →
   ∀ e s', step cfg e s = Some s' →
     ∃ j', jobs s' !! key = Some j' ∧
       (Job.status j' = FAILED ∨
        (Job.status j' = UPLOADING ∧
         ∃ w r, e = TaskResume w r ∧
                workers s !! w = Some (Busy key (Live AtStart false))))) ∧
  (Job.status j = FAILED → idle_job s key →
   ∀ es s', exec cfg es s = Some s' → jobs s' !! key = Some j).
Proof.
  intros Hr Hj. apply reachable_Inv in Hr. split; [|split].
  - intros Hst es s' Hex. by eapply exec_completed.
  - intros Hst e s' Hstep.
    destruct (step_job _ _ _ _ _ Hr Hstep Hj) as (j' & Hj' & Hcases).
    exists j'. split; [done|].
    destruct Hcases
      as [-> | [(_ & Hc & _) | (w & a & r & n & -> & Hw & Hat & Htr)]].
    + by left.
    + rewrite Hst in Hc. discriminate.
    + destruct Htr as (_ & _ & _ & _ & _ & Hstart & Hsleep & _).
      destruct (at_ok_failed _ _ _ Hat Hst) as [-> | ->].
      * right. destruct (Hstart eq_refl) as [-> _]. split; [done|]. eauto.
      * left. by destruct (Hsleep eq_refl) as [-> _].
  - intros Hst Hidle es s' Hex.
    by destruct (settled_failure_is_final es s s' key j).
Qed.

(** C3, amended: a step never lowers the progress of a job, except the
    first piece of an attempt, which sets it to 10. *)
Theorem progress_lowered_only_by_new_attempt s e s' key j :
  reachable cfg s →
  step cfg e s = Some s' →
  jobs s !! key = Some j →
  ∃ j', jobs s' !! key = Some j' ∧
    ((Job.progress j <= Job.progress j')%Q ∨
     (Job.progress j' = 10%Q ∧ Job.status j' = UPLOADING ∧
      ∃ w r, e = TaskResume w r ∧
             workers s !! w = Some (Busy key (Live AtStart false)))).
Proof.
  intros Hr Hstep Hj. apply reachable_Inv in Hr.
  destruct (step_job _ _ _ _ _ Hr Hstep Hj) as (j' & Hj' & Hcases).
  exists j'. split; [done|].
  destruct Hcases
    as [-> | [(_ & _ & ->) | (w & a & r & n & -> & Hw & Hat & Htr)]].
  - left. apply Qle_refl.
  - left. apply Qle_refl.
  - destruct Htr as (_ & _ & _ & _ & Hmono & Hstart & _).
    assert (a = AtStart ∨ a ≠ AtStart) as [-> | Hne]
      by (destruct a; (by left) || (by right)).
    + right. destruct (Hstart eq_refl) as [-> ->].
      split; [done|]. split; [done|]. by exists w, r.
    + left. by apply Hmono.
Qed.

(** A raising backend call leaves the job Failed with the text of the
    exception as its error message. *)
Lemma raise_sets_error_message s w key a msg j :
  workers s !! w = Some (Busy key (Live a false)) →
  may_raise a = true →
  jobs s !! key = Some j →
  ∃ s' j',
    step cfg (TaskResume w (Raise msg)) s = Some s' ∧
    jobs s' !! key = Some j' ∧
    Job.status j' = FAILED ∧
    Job.error_message j' = Some msg.
Proof.
  intros Hw Ha Hj. cbn. unfold task_resume. rewrite Hw.
  assert (_process_job cfg key a (Raise msg) s = on_exception cfg key msg s)
    as -> by (unfold _process_job; rewrite Hj; by destruct a).
  destruct (on_exception cfg key msg s) as [[s1 n]|] eqn:Hex.
  - pose proof (on_exception_spec _ _ _ _ _ _ Hj Hex)
      as (j' & Hjobs & _ & _ & _ & _ & _ & _ & _ & _ & Hst & Herr & _).
    cbn [mbind option_bind].
    assert (∀ t, jobs (set_worker w t s1) !! key = Some j') as Hl
      by (intros t; sproj; by rewrite Hjobs, lookup_insert_eq).
    destruct n; eexists _, j'; (split; [reflexivity|]); by rewrite Hl.
  - unfold on_exception in Hex. sproj.
    rewrite !lookup_alter_eq, Hj in Hex. cbn in Hex.
    by destruct (_ <? _)%Z.
Qed.

Lemma exec_error_message_kept es s s' key j :
  exec cfg es s = Some s' →
  jobs s !! key = Some j →
  is_Some (Job.error_message j) →
  ∃ j', jobs s' !! key = Some j' ∧ is_Some (Job.error_message j').
Proof.
  revert s j. induction es as [|e es IH]; intros s j Hex Hj Herr; cbn in Hex.
  - injection Hex as <-. eauto.
  - destruct (step cfg e s) as [s1|] eqn:Hs; [|done]. cbn in Hex.
    destruct (step_job_raw _ _ _ _ _ Hs Hj) as (j1 & Hj1 & Hcases).
    eapply IH; [exact Hex | exact Hj1 |].
    destruct Hcases
      as [-> | [(_ & _ & ->) | (w & a & r & n & _ & _ & Htr)]]; try done.
    destruct Htr as (_ & Hkeep & _). auto.
Qed.


(** ** Retries *)

Lemma step_retry_bound e s s' :
  (0 <= max_retries cfg)%Z →
  step cfg e s = Some s' →
  (∀ key j, jobs s !! key = Some j →
     (Job.retry_count j <= max_retries cfg)%Z) →
  ∀ key j, jobs s' !! key = Some j →
    (Job.retry_count j <= max_retries cfg)%Z.
Proof.
  intros Hmax Hstep Hall key j' Hj'.
  destruct (jobs s !! key) as [j|] eqn:Hj.
  - destruct (step_job_raw _ _ _ _ _ Hstep Hj) as (j1 & Hj1 & Hcases).
    assert (j1 = j') as -> by congruence. specialize (Hall _ _ Hj).
    destruct Hcases
      as [-> | [(_ & _ & ->) | (w & a & r & n & _ & _ & Htr)]]; try done.
    destruct Htr as (_ & _ & Hrc & _). auto.
  - destruct (step_new_job _ _ _ _ _ Hstep Hj Hj') as [-> _]. done.
Qed.

Lemma reachable_retry_bound s key j :
  (0 <= max_retries cfg)%Z →
  reachable cfg s →
  jobs s !! key = Some j →
  (Job.retry_count j <= max_retries cfg)%Z.
Proof.
  intros Hmax (t0 & tpl & up & out & es & Hes). revert key j.
  assert (∀ s0, (∀ key j, jobs s0 !! key = Some j →
                   (Job.retry_count j <= max_retries cfg)%Z) →
          exec cfg es s0 = Some s →
          ∀ key j, jobs s !! key = Some j →
            (Job.retry_count j <= max_retries cfg)%Z) as Hgen.
  { clear Hes. induction es as [|e es IH]; intros s0 H0 Hex; cbn in Hex.
    - by injection Hex as <-.
    - destruct (step cfg e s0) as [s1|] eqn:Hs; [|done]. cbn in Hex.
      eapply IH; [|exact Hex]. by eapply step_retry_bound. }
  eapply Hgen; [|exact Hes]. intros key j. unfold init_server. sproj.
  by rewrite lookup_empty.
Qed.

(** A backend call that raises when the retries are used up: the job is
    Failed, the task returns, nothing is queued. *)
Lemma raise_with_retries_exhausted s w key a msg j :
  workers s !! w = Some (Busy key (Live a false)) →
  may_raise a = true →
  jobs s !! key = Some j →
  (max_retries cfg <= Job.retry_count j)%Z →
  ∃ s' j',
    step cfg (TaskResume w (Raise msg)) s = Some s' ∧
    jobs s' !! key = Some j' ∧
    Job.status j' = FAILED ∧
    Job.error_message j' = Some msg ∧
    Job.retry_count j' = Job.retry_count j ∧
    job_queue s' = job_queue s ∧
    workers s' !! w = Some (Busy key (Done Returned)).
Proof.
  intros Hw Ha Hj Hrc. cbn. unfold task_resume. rewrite Hw.
  assert (_process_job cfg key a (Raise msg) s = on_exception cfg key msg s)
    as -> by (unfold _process_job; rewrite Hj; by destruct a).
  destruct (on_exception cfg key msg s) as [[s1 n]|] eqn:Hex.
  - pose proof (on_exception_spec _ _ _ _ _ _ Hj Hex)
      as (j' & Hjobs & Hq & Hws & _ & _ & _ & _ & _ & _ & Hst & Herr & _ & _
          & Hn).
    destruct (Z.ltb_spec (Job.retry_count j) (max_retries cfg)); [lia|].
    destruct Hn as [Hrc' ->]. cbn [mbind option_bind].
    eexists _, j'. split; [reflexivity|]. sproj.
    rewrite Hjobs, lookup_insert_eq, Hq, Hws.
    repeat (split; [done|]).
    apply list_lookup_insert_eq. by eapply lookup_lt_Some.
  - unfold on_exception in Hex. sproj.
    rewrite !lookup_alter_eq, Hj in Hex. cbn in Hex.
    by destruct (_ <? _)%Z.
Qed.

Lemma drain_exec backend fuel attempts s s' n :
  drain cfg backend fuel attempts s = Some (s', n) →
  ∃ es, exec cfg es s = Some s'.
Proof.
  revert attempts s. induction fuel as [|fuel IH]; intros attempts s; [done|].
  cbn [drain].
  destruct (workers s !! 0%nat) as [[|key [a c|res]|]|] eqn:Hw.
  - destruct (job_queue s) as [|k q] eqn:Hq.
    + intros [= <- <-]. by exists [].
    + destruct (worker_get 0 s) as [s1|] eqn:H1; [|done]. cbn.
      intros Hd. destruct (IH _ _ Hd) as [es Hes].
      exists (WorkerGet 0 :: es). cbn. by rewrite H1.
  - destruct (task_resume cfg 0 (backend a) s) as [s1|] eqn:H1; [|done]. cbn.
    intros Hd. destruct (IH _ _ Hd) as [es Hes].
    exists (TaskResume 0 (backend a) :: es). cbn. by rewrite H1.
  - destruct (worker_wake 0 s) as [s1|] eqn:H1; [|done]. cbn.
    intros Hd. destruct (IH _ _ Hd) as [es Hes].
    exists (WorkerWake 0 :: es). cbn. by rewrite H1.
  - intros [= <- <-]. by exists [].
  - intros [= <- <-]. by exists [].
Qed.


(** A step of an attempt that leaves the job Failed while the retries are
    used up: the task returns, nothing is queued and nobody holds the job
    any more.  This covers every way an attempt fails: a raising backend
    call, a template that cannot be read, the polling timeout. *)
Lemma failure_with_retries_exhausted s w key a r s' j j' :
  Inv s →
  workers s !! w = Some (Busy key (Live a false)) →
  a ≠ AtRetrySleep →
  jobs s !! key = Some j →
  (max_retries cfg <= Job.retry_count j)%Z →
  step cfg (TaskResume w r) s = Some s' →
  jobs s' !! key = Some j' →
  Job.status j' = FAILED →
  Job.retry_count j' = Job.retry_count j ∧
  job_queue s' = job_queue s ∧
  workers s' !! w = Some (Busy key (Done Returned)) ∧
  idle_job s' key.
Proof.
  intros HI Hw Ha Hj Hrc Hstep Hj' Hst. cbn in Hstep.
  unfold task_resume in Hstep. rewrite Hw in Hstep.
  destruct (_process_job cfg key a r s) as [[s1 n]|] eqn:Hp; [|done].
  cbn [mbind option_bind] in Hstep.
  apply process_job_spec in Hp
    as (j0 & j1 & Hj0 & Hjobs & Hws & _ & _ & _ & _ & _ & Hq & Htr).
  assert (j0 = j) as -> by congruence.
  assert (job_queue s1 = job_queue s) as Hq' by (by destruct a).
  destruct (inv_live _ _ _ _ HI _ _ _ _ Hw) as (Hnq & j2 & Hj2 & Hat).
  assert (j2 = j) as -> by congruence.
  assert (jobs s' = jobs s1) as Heq
    by (destruct n; injection Hstep as <-; done).
  rewrite Heq, Hjobs, lookup_insert_eq in Hj'. injection Hj' as ->.
  destruct Htr as (_ & _ & _ & _ & _ & _ & _ & Hfail).
  specialize (Hfail Hat Ha Hst).
  destruct (Z.ltb_spec (Job.retry_count j) (max_retries cfg)); [lia|].
  destruct Hfail as [Hrc' ->]. injection Hstep as <-. sproj.
  rewrite Hq', Hws. pose proof (lookup_lt_Some _ _ _ Hw) as Hlen.
  repeat (split; [done|]). split; [by apply list_lookup_insert_eq|].
  split; sproj; [by rewrite Hq'|]. rewrite Hws.
  intros w0 a0 c0. destruct (decide (w0 = w)) as [->|Hne].
  - by rewrite list_lookup_insert_eq.
  - rewrite list_lookup_insert_ne by done. intros Hw0.
    apply Hne. by eapply (inv_uniq _ _ _ _ HI).
Qed.

(** Retry budget 3, every upload fails: four attempts, then the job is
    Failed with [retry_count = 3], the queue is empty and the worker is
    back in [job_queue.get()]. *)
Lemma upload_always_fails_run :
  ∃ final j,
    drain CONFIG upload_always_fails 32 0
      (state_after [CreateJob "job-1" "cat.png" sample_config])
      = Some (final, 4%nat) ∧
    jobs final !! "job-1" = Some j ∧
    Job.status j = FAILED ∧ Job.retry_count j = 3%Z ∧
    job_queue final = [] ∧ workers final = [Idle].
Proof.
  vm_compute. eexists _, _. repeat split; reflexivity.
Qed.

(** C2: [retry_count] never exceeds [max_retries]; an attempt that fails
    with [retry_count] at the maximum leaves the job Failed, ends the
    task and queues nothing, then or ever after; with a budget of 3 and a
    failing upload the pipeline runs four times and ends Failed with
    [retry_count = 3]. *)
Theorem retry_count_bounded s key j :
  (0 <= max_retries cfg)%Z →
  reachable cfg s →
  jobs s !! key = Some j →
  (Job.retry_count j <= max_retries cfg)%Z ∧
  (∀ w a msg,
     workers s !! w = Some (Busy key (Live a false)) →
     may_raise a = true →
     Job.retry_count j = max_retries cfg →
     ∃ s' j',
       step cfg (TaskResume w (Raise msg)) s = Some s' ∧
       jobs s' !! key = Some j' ∧ Job.status j' = FAILED) ∧
  (∀ w a r s' j',
     workers s !! w = Some (Busy key (Live a false)) →
     a ≠ AtRetrySleep →
     Job.retry_count j = max_retries cfg →
     step cfg (TaskResume w r) s = Some s' →
     jobs s' !! key = Some j' →
     Job.status j' = FAILED →
     Job.retry_count j' = max_retries cfg ∧
     job_queue s' = job_queue s ∧
     workers s' !! w = Some (Busy key (Done Returned)) ∧
     ∀ es s'', exec cfg es s' = Some s'' →
       jobs s'' !! key = Some j' ∧ key ∉ job_queue s'') ∧
  (∃ final j,
     drain CONFIG upload_always_fails 32 0
       (state_after [CreateJob "job-1" "cat.png" sample_config])
       = Some (final, 4%nat) ∧
     jobs final !! "job-1" = Some j ∧
     Job.status j = FAILED ∧ Job.retry_count j = 3%Z ∧
     job_queue final = [] ∧ workers final = [Idle]).
Proof.
  intros Hmax Hr Hj. split; [by eapply reachable_retry_bound|].
  apply reachable_Inv in Hr. split; [|split; [|exact upload_always_fails_run]].
  - intros w a msg Hw Ha Hrc.
    destruct (raise_with_retries_exhausted s w key a msg j)
      as (s' & j' & Hstep & Hj' & Hst & _); try done; [lia|]. eauto.
  - intros w a r s' j' Hw Ha Hrc Hstep Hj' Hst.
    rewrite <- Hrc.
    destruct (failure_with_retries_exhausted s w key a r s' j j')
      as (Hrc' & Hq & Hw' & Hidle); try done; [lia|].
    repeat (split; [done|]). intros es s'' Hex.
    destruct (settled_failure_is_final es s' s'' key j')
      as [Hj'' [Hq'' _]]; try done.
    by eapply step_Inv.
Qed.

(** ** Cancellation during the retry delay *)

(** C5, amended: while the task sleeps before a retry the job is Failed,
    so [cancel_job] returns [False] and changes nothing; when the sleep
    ends the identifier is put back on the queue. *)
Theorem cancel_rejected_during_retry_delay s w key c :
  reachable cfg s →
  workers s !! w = Some (Busy key (Live AtRetrySleep c)) →
  cancel_job key s = (s, CancelReturn false) ∧
  (Api.cancel_job key s).2
    = Api.HTTPException 404 "Job not found or cannot be cancelled" ∧
  (c = false →
   ∃ s', step cfg (TaskResume w Go) s = Some s' ∧
         job_queue s' = (job_queue s ++ [key])%list).
Proof.
  intros Hr Hw. apply reachable_Inv in Hr.
  destruct (inv_live _ _ _ _ Hr _ _ _ _ Hw) as (_ & j & Hj & Hat).
  cbn in Hat. destruct (inv_jobs _ _ _ _ Hr _ _ Hj) as [Hid _].
  assert (cancel_job key s = (s, CancelReturn false)) as Hc.
  { unfold cancel_job. by rewrite Hj, Hat. }
  split; [done|]. split.
  - unfold Api.cancel_job. by rewrite Hc.
  - intros ->. cbn. unfold task_resume. rewrite Hw.
    unfold _process_job. rewrite Hj. cbn [mbind option_bind].
    eexists. split; [reflexivity|]. sproj.
    unfold queue_job. by rewrite Hid, Hj.
Qed.

(** ** The retention sweep *)

Lemma Qltb_lt a b : Qltb a b = true → (a < b)%Q.
Proof.
  unfold Qltb. intros H. apply negb_true_iff in H.
  apply Qnot_le_lt. intros Hle. apply Qle_bool_iff in Hle. congruence.
Qed.

Lemma sweep_deleted cutoff io_fails tree f :
  f ∈ tree → f ∉ (sweep cutoff io_fails tree).1 →
  fe_is_file f = true ∧ (fe_mtime f < cutoff)%Q.
Proof.
  induction tree as [|file rest IH]; cbn; [by intros ?%elem_of_nil|].
  assert (∀ rest' : list FileEntry,
            f ∈ file :: rest → f ∉ file :: rest' →
            (f ∈ rest → f ∉ rest' →
             fe_is_file f = true ∧ (fe_mtime f < cutoff)%Q) →
            fe_is_file f = true ∧ (fe_mtime f < cutoff)%Q) as Hkept.
  { intros rest' [->|Hin]%elem_of_cons Hout Hrec.
    - destruct Hout. by left.
    - apply Hrec; [done|]. intros Hin'. apply Hout. by right. }
  destruct (fe_is_file file) eqn:Hfile.
  - destruct (io_fails (fe_path file)); cbn; [done|].
    destruct (Qltb (fe_mtime file) cutoff) eqn:Hold.
    + intros [->|Hin]%elem_of_cons Hout; [|auto].
      split; [done | by apply Qltb_lt].
    + destruct (sweep cutoff io_fails rest) as [rest' ok]. cbn in *.
      intros Hin Hout. eapply Hkept; eauto.
  - destruct (sweep cutoff io_fails rest) as [rest' ok]. cbn in *.
    intros Hin Hout. eapply Hkept; eauto.
Qed.

Lemma cleanup_reads_only_files io_fails s1 s2 :
  upload_tree s1 = upload_tree s2 →
  output_tree s1 = output_tree s2 →
  clock s1 = clock s2 →
  upload_tree (_cleanup_task cfg io_fails s1)
    = upload_tree (_cleanup_task cfg io_fails s2) ∧
  output_tree (_cleanup_task cfg io_fails s1)
    = output_tree (_cleanup_task cfg io_fails s2).
Proof.
  intros Hu Ho Hc. unfold _cleanup_task. rewrite Hu, Hc.
  destruct (sweep _ _ (upload_tree s2)) as [ups [|]]; sproj; [|done].
  rewrite Ho. by destruct (sweep _ _ (output_tree s2)).
Qed.

(** C9: a sweep removes only regular files last modified before
    [now - cleanup_days * 24 * 3600] and creates none; it leaves [jobs],
    the queue, the tasks and the workers as they were, and what it does
    to the files does not depend on them. *)
Theorem cleanup_removes_only_old_files io_fails s f :
  let cutoff_time := (clock s - cleanup_days cfg * 24 * 3600)%Q in
  let s' := _cleanup_task cfg io_fails s in
  (jobs s' = jobs s ∧ job_queue s' = job_queue s ∧
   processing_tasks s' = processing_tasks s ∧ workers s' = workers s) ∧
  (f ∈ upload_tree s → f ∉ upload_tree s' →
   fe_is_file f = true ∧ (fe_mtime f < cutoff_time)%Q) ∧
  (f ∈ output_tree s → f ∉ output_tree s' →
   fe_is_file f = true ∧ (fe_mtime f < cutoff_time)%Q) ∧
  (f ∈ upload_tree s' → f ∈ upload_tree s) ∧
  (f ∈ output_tree s' → f ∈ output_tree s) ∧
  (∀ s2, upload_tree s2 = upload_tree s → output_tree s2 = output_tree s →
         clock s2 = clock s →
         upload_tree (_cleanup_task cfg io_fails s2) = upload_tree s' ∧
         output_tree (_cleanup_task cfg io_fails s2) = output_tree s').
Proof.
  intros cutoff_time s'.
  destruct (cleanup_frame io_fails s) as (Hj & Hq & Hp & Hw & _).
  split; [done|].
  assert ((f ∈ upload_tree s → f ∉ upload_tree s' →
           fe_is_file f = true ∧ (fe_mtime f < cutoff_time)%Q) ∧
          (f ∈ output_tree s → f ∉ output_tree s' →
           fe_is_file f = true ∧ (fe_mtime f < cutoff_time)%Q) ∧
          (f ∈ upload_tree s' → f ∈ upload_tree s) ∧
          (f ∈ output_tree s' → f ∈ output_tree s)) as (H1 & H2 & H3 & H4).
  { subst s'. unfold _cleanup_task. fold cutoff_time.
    pose proof (sweep_deleted cutoff_time io_fails (upload_tree s) f) as Hu.
    pose proof (sweep_deleted cutoff_time io_fails (output_tree s) f) as Ho.
    pose proof (sweep_sub cutoff_time io_fails (upload_tree s) f) as Hu'.
    pose proof (sweep_sub cutoff_time io_fails (output_tree s) f) as Ho'.
    destruct (sweep cutoff_time io_fails (upload_tree s)) as [ups [|]];
      sproj; [destruct (sweep cutoff_time io_fails (output_tree s))
                as [outs ok]|]; sproj; cbn [fst] in *; intuition. }
  repeat (split; [done|]).
  intros s2 Hu Ho Hc. by apply cleanup_reads_only_files.
Qed.

End Proofs.

(** ** The cancel operation and its route *)

(** C6, amended: [cancel_job] on a Pending, Uploading or Processing job
    sets Cancelled at once and returns [True]; on a Completed, Failed or
    Cancelled job and on an unknown identifier it changes nothing and
    returns [False], and the route answers both with the same 404. *)
Theorem cancel_job_outcomes s key :
  (∀ j, jobs s !! key = Some j → cancellable (Job.status j) = true →
     cancel_job_result (cancel_job key s).2 = true ∧
     (∃ j', jobs (cancel_job key s).1 !! key = Some j' ∧
            Job.status j' = CANCELLED) ∧
     (Api.cancel_job key s).2 = Api.Json [("status", "cancelled")]) ∧
  (∀ j, jobs s !! key = Some j → is_terminal (Job.status j) = true →
     cancel_job key s = (s, CancelReturn false) ∧
     (Api.cancel_job key s).2
       = Api.HTTPException 404 "Job not found or cannot be cancelled") ∧
  (jobs s !! key = None →
     cancel_job key s = (s, CancelReturn false) ∧
     (Api.cancel_job key s).2
       = Api.HTTPException 404 "Job not found or cannot be cancelled").
Proof.
  split; [|split].
  - intros j Hj Hc.
    assert (cancel_job_result (cancel_job key s).2 = true) as Hres.
    { unfold cancel_job. rewrite Hj, Hc.
      by destruct (truthy (Job.comfy_prompt_id j)). }
    split; [done|]. split.
    + rewrite cancel_job_jobs, Hj, Hc. cbn [andb].
      rewrite bool_decide_eq_true_2 by done. eauto.
    + unfold Api.cancel_job. destruct (cancel_job key s) as [s' c].
      cbn [snd] in *. by rewrite Hres.
  - intros j Hj Ht.
    assert (cancel_job key s = (s, CancelReturn false)) as Hc.
    { unfold cancel_job. rewrite Hj. by destruct (Job.status j). }
    split; [done|]. unfold Api.cancel_job. by rewrite Hc.
  - intros Hj.
    assert (cancel_job key s = (s, CancelReturn false)) as Hc.
    { unfold cancel_job. by rewrite Hj. }
    split; [done|]. unfold Api.cancel_job. by rewrite Hc.
Qed.

(** ** The workflow sent to the backend *)

(** C10: [_generate_workflow] gives the same answer for any two file
    names, configurations and clock readings; unless the template file
    cannot be read that answer is the default workflow, and it is the
    workflow with which [_process_job] goes on to the submission. *)
Theorem generate_workflow_ignores_request tpl now1 now2 f1 f2 c1 c2 :
  _generate_workflow tpl now1 f1 (Some c1)
    = _generate_workflow tpl now2 f2 (Some c2) ∧
  _generate_workflow tpl now1 f1 (Some c1)
    = match tpl with
      | UnreadableTemplate err => inl err
      | _ => inr _get_default_workflow
      end ∧
  (∀ cfg key s s' workflow,
     _process_job cfg key AtUpload (Uploaded f1) s
       = Some (s', Suspend (AtSubmit workflow)) →
     workflow = _get_default_workflow).
Proof.
  split; [by destruct tpl|]. split; [by destruct tpl|].
  intros cfg key s s' workflow. unfold _process_job.
  destruct (jobs s !! key) as [j|]; [|done]. cbn [mbind option_bind].
  destruct (_generate_workflow _ _ _ _) as [err|wf] eqn:Hg.
  - unfold on_exception. cbn [mbind option_bind].
    destruct (jobs _ !! key); [|done]. cbn. by destruct (_ <? _)%Z.
  - intros [= _ <-]. sproj. unfold _generate_workflow in Hg.
    destruct (template s), (Job.config j); cbn in Hg; congruence.
Qed.

(** ** The worker loop *)

Lemma step_all_stopped cfg e s s' :
  (∀ w v, workers s !! w = Some v → v = Stopped) →
  step cfg e s = Some s' →
  workers s' = workers s ∧ ∀ k, k ∈ job_queue s → k ∈ job_queue s'.
Proof.
  intros Hall Hstep.
  assert (∀ h s0, workers s0 = workers s → task_cancel h s0 = s0) as Htc.
  { intros h s0 Hs0. unfold task_cancel. rewrite Hs0.
    destruct (workers s !! h) as [[|k [a c|r]|]|] eqn:Hh; try done.
    by apply Hall in Hh. }
  assert (∀ k s0, workers s0 = workers s →
            cancel_processing_task k s0 = s0) as Hcp.
  { intros k s0 Hs0. unfold cancel_processing_task.
    destruct (processing_tasks s0 !! k); auto. }
  destruct e as [t|job_id name wc|w|w r|w|job_id|job_id|uf]; cbn in Hstep.
  - destruct (Qle_bool (clock s) t); [|done]. by injection Hstep as <-.
  - unfold create_job in Hstep. destruct (jobs s !! job_id); [done|].
    injection Hstep as <-. sproj. split; [done|].
    intros k Hk. apply elem_of_app. by left.
  - unfold worker_get in Hstep.
    destruct (workers s !! w) as [[| |]|] eqn:Hw; try done.
    by apply Hall in Hw.
  - unfold task_resume in Hstep.
    destruct (workers s !! w) as [[|k [a c|res]|]|] eqn:Hw; try done.
    by apply Hall in Hw.
  - unfold worker_wake in Hstep.
    destruct (workers s !! w) as [[|k [a c|res]|]|] eqn:Hw; try done.
    by apply Hall in Hw.
  - injection Hstep as <-. unfold cancel_job.
    destruct (jobs s !! job_id) as [j|]; [|done].
    destruct (cancellable (Job.status j)); [|done].
    destruct (truthy (Job.comfy_prompt_id j)); cbn [fst]; [done|].
    by rewrite Hcp.
  - destruct (bool_decide _); [|done]. injection Hstep as <-.
    unfold cancel_job_resume. cbn [fst]. by rewrite Hcp.
  - destruct (cleanup_old_files cfg); [|done]. injection Hstep as <-.
    destruct (cleanup_frame cfg uf s) as (_ & -> & _ & -> & _). done.
Qed.

Lemma exec_all_stopped cfg es s s' :
  (∀ w v, workers s !! w = Some v → v = Stopped) →
  exec cfg es s = Some s' →
  workers s' = workers s ∧ ∀ k, k ∈ job_queue s → k ∈ job_queue s'.
Proof.
  revert s. induction es as [|e es IH]; intros s Hall Hex; cbn in Hex.
  - by injection Hex as <-.
  - destruct (step cfg e s) as [s1|] eqn:Hs; [|done]. cbn in Hex.
    destruct (step_all_stopped _ _ _ _ Hall Hs) as [Hw Hq].
    destruct (IH s1) as [Hw' Hq']; [by rewrite Hw | done |].
    split; [congruence | auto].
Qed.

(** C4 fails on the code: a job is cancelled while its upload is in
    flight, [CancelledError] ends the task and then the worker.  From
    then on, whatever happens, the only worker stays terminated and the
    job submitted next is never taken off the queue. *)
Theorem worker_terminated_by_cancellation es s' :
  exec CONFIG es (state_after cancelled_while_uploading) = Some s' →
  exec CONFIG cancelled_while_uploading boot
    = Some (state_after cancelled_while_uploading) ∧
  workers s' = [Stopped] ∧ "job-2" ∈ job_queue s' ∧
  ∀ w, worker_get w s' = None.
Proof.
  intros Hex. split; [by vm_compute|].
  eapply exec_all_stopped in Hex as [Hw Hq].
  - assert (workers s' = [Stopped]) as Hws by (by rewrite Hw).
    split; [done|]. split.
    + apply Hq. vm_compute. by left.
    + intros w. unfold worker_get. rewrite Hws. by destruct w as [|[|w]].
  - intros w v. vm_compute. by destruct w as [|[|w]]; intros [= <-].
Qed.

(** ** The theorems at concrete runs *)

Ltac run := vm_compute; reflexivity.
Ltac runs := repeat match goal with |- _ ∧ _ => split end; run.

Lemma reachable_state_after es :
  exec CONFIG es boot = Some (state_after es) →
  reachable CONFIG (state_after es).
Proof. intros H. by exists 1000%Q, NoTemplate, [], [], es. Defined.

(** Every scenario is a run of the server. *)
Example scenarios_run :
  Forall (λ es, exec CONFIG es boot = Some (state_after es))
    [failed_once; picked_again; (picked_again ++ [TaskResume 0 Go])%list;
     completed_on_retry; fourth_attempt;
     (fourth_attempt ++ fourth_failure ++ afterwards)%list;
     cancelled_in_queue; cancelled_while_uploading].
Proof. repeat (apply List.Forall_cons; [run|]). apply List.Forall_nil. Qed.

Lemma result_path_iff_completed_witness :
  (is_Some (Job.result_path (job_after completed_on_retry "job-1"))
   ↔ Job.status (job_after completed_on_retry "job-1") = COMPLETED) ∧
  ((∃ path name media,
      Api.get_job_result "job-1" (state_after completed_on_retry)
        = Api.FileResponse path name media)
   ↔ Job.status (job_after completed_on_retry "job-1") = COMPLETED).
Proof.
  apply (result_path_iff_completed CONFIG (state_after completed_on_retry)).
  - apply reachable_state_after. run.
  - run.
Defined.

Lemma completed_is_final_failed_until_retry_witness :
  Job.status (job_after picked_again "job-1") = FAILED ∧
  ∃ j', jobs (state_after (picked_again ++ [TaskResume 0 Go])) !! "job-1"
          = Some j' ∧
    (Job.status j' = FAILED ∨
     (Job.status j' = UPLOADING ∧
      ∃ w r, TaskResume 0 Go = TaskResume w r ∧
             workers (state_after picked_again) !! w
               = Some (Busy "job-1" (Live AtStart false)))).
Proof.
  split; [run|].
  destruct (completed_is_final_failed_until_retry CONFIG
              (state_after picked_again) "job-1"
              (job_after picked_again "job-1")) as (_ & Hfailed & _).
  - apply reachable_state_after. run.
  - run.
  - apply Hfailed; run.
Defined.

(** The unguarded [job.status = UPLOADING] also overwrites Cancelled: a
    job cancelled while it waits in the queue is processed all the
    same. *)
Example cancelled_job_is_still_processed :
  Job.status (job_after [CreateJob "job-1" "cat.png" sample_config;
                         CancelJob "job-1"] "job-1") = CANCELLED ∧
  Job.status (job_after cancelled_in_queue "job-1") = UPLOADING.
Proof. runs. Qed.

Lemma terminal_is_final_counterexample : ¬ terminal_is_final CONFIG.
Proof.
  intros H.
  specialize (H (state_after picked_again) (TaskResume 0 Go)
                (state_after (picked_again ++ [TaskResume 0 Go])) "job-1"
                (job_after picked_again "job-1")
                (job_after (picked_again ++ [TaskResume 0 Go]) "job-1")).
  assert (UPLOADING = FAILED) as Habs; [|discriminate Habs].
  apply H.
  - apply reachable_state_after. run.
  - run.
  - run.
  - run.
  - run.
Qed.

(** The run behind both: Failed with progress 40 after the first
    attempt, Uploading with progress 10 once the retry has begun. *)
Example retry_restarts_the_job :
  Job.status (job_after failed_once "job-1") = FAILED ∧
  Job.progress (job_after failed_once "job-1") = 40%Q ∧
  Job.status (job_after picked_again "job-1") = FAILED ∧
  Job.status (job_after (picked_again ++ [TaskResume 0 Go]) "job-1")
    = UPLOADING ∧
  Job.progress (job_after (picked_again ++ [TaskResume 0 Go]) "job-1")
    = 10%Q.
Proof. runs. Qed.

Lemma progress_lowered_only_by_new_attempt_witness :
  ∃ j', jobs (state_after (picked_again ++ [TaskResume 0 Go])) !! "job-1"
          = Some j' ∧
    ((Job.progress (job_after picked_again "job-1") <= Job.progress j')%Q ∨
     (Job.progress j' = 10%Q ∧ Job.status j' = UPLOADING ∧
      ∃ w r, TaskResume 0 Go = TaskResume w r ∧
             workers (state_after picked_again) !! w
               = Some (Busy "job-1" (Live AtStart false)))).
Proof.
  apply (progress_lowered_only_by_new_attempt CONFIG
           (state_after picked_again) (TaskResume 0 Go)).
  - apply reachable_state_after. run.
  - run.
  - run.
Defined.

Lemma progress_never_lowered_counterexample :
  ¬ progress_never_lowered CONFIG.
Proof.
  intros H.
  specialize (H (state_after failed_once)
                (retry_pickup ++ [TaskResume 0 Go])%list
                (state_after (picked_again ++ [TaskResume 0 Go])) "job-1"
                (job_after failed_once "job-1")
                (job_after (picked_again ++ [TaskResume 0 Go]) "job-1")).
  assert (40 <= 10)%Q as Habs; [|by vm_compute in Habs].
  apply H.
  - apply reachable_state_after. run.
  - run.
  - run.
  - run.
  - run.
Qed.


Lemma completed_without_error_counterexample :
  ¬ completed_without_error CONFIG.
Proof.
  intros H.
  specialize (H (state_after completed_on_retry) "job-1"
                (job_after completed_on_retry "job-1")).
  assert (Some "Queue failed: busy" = None) as Habs; [|discriminate Habs].
  apply H.
  - apply reachable_state_after. run.
  - run.
  - run.
Qed.

Example completed_job_keeps_old_error :
  Job.status (job_after completed_on_retry "job-1") = COMPLETED ∧
  Job.result_path (job_after completed_on_retry "job-1")
    = Some "outputs/job-1_clip.mp4" ∧
  Job.error_message (job_after completed_on_retry "job-1")
    = Some "Queue failed: busy" ∧
  Job.retry_count (job_after completed_on_retry "job-1") = 1%Z.
Proof. runs. Qed.

Lemma retry_count_bounded_witness :
  (0 <= max_retries CONFIG)%Z ∧
  (Job.retry_count (job_after fourth_attempt "job-1")
   <= max_retries CONFIG)%Z ∧
  Job.retry_count (job_after (fourth_attempt ++ fourth_failure) "job-1")
    = max_retries CONFIG ∧
  job_queue (state_after (fourth_attempt ++ fourth_failure))
    = job_queue (state_after fourth_attempt) ∧
  workers (state_after (fourth_attempt ++ fourth_failure)) !! 0%nat
    = Some (Busy "job-1" (Done Returned)) ∧
  "job-1" ∉
    job_queue (state_after (fourth_attempt ++ fourth_failure ++ afterwards)).
Proof.
  split; [by vm_compute|].
  destruct (retry_count_bounded CONFIG (state_after fourth_attempt) "job-1"
              (job_after fourth_attempt "job-1")) as (Hle & _ & Hfail & _).
  - by vm_compute.
  - apply reachable_state_after. run.
  - run.
  - split; [exact Hle|].
    destruct (Hfail 0%nat AtUpload (Raise "Upload failed: 503")
                (state_after (fourth_attempt ++ fourth_failure))
                (job_after (fourth_attempt ++ fourth_failure) "job-1"))
      as (Hrc & Hq & Hw & Hever).
    + run.
    + discriminate.
    + run.
    + run.
    + run.
    + run.
    + repeat (split; [assumption|]).
      apply (Hever afterwards
               (state_after (fourth_attempt ++ fourth_failure ++ afterwards))).
      run.
Defined.

Lemma cancel_rejected_during_retry_delay_witness :
  cancel_job "job-1" (state_after failed_once)
    = (state_after failed_once, CancelReturn false) ∧
  (Api.cancel_job "job-1" (state_after failed_once)).2
    = Api.HTTPException 404 "Job not found or cannot be cancelled" ∧
  (false = false →
   ∃ s', step CONFIG (TaskResume 0 Go) (state_after failed_once) = Some s' ∧
         job_queue s' = (job_queue (state_after failed_once) ++ ["job-1"])%list).
Proof.
  apply (cancel_rejected_during_retry_delay CONFIG (state_after failed_once)
           0%nat "job-1" false).
  - apply reachable_state_after. run.
  - run.
Defined.

Lemma cancel_stops_pending_retry_counterexample :
  ¬ cancel_stops_pending_retry CONFIG.
Proof.
  intros H.
  destruct (H (state_after failed_once) 0%nat "job-1" false) as [Habs _].
  - apply reachable_state_after. run.
  - run.
  - by vm_compute in Habs.
Qed.

(** The same run, step by step: the request is refused, and the
    identifier is back on the queue once the delay is over. *)
Example cancel_during_retry_delay_run :
  workers (state_after failed_once)
    = [Busy "job-1" (Live AtRetrySleep false)] ∧
  Job.status (job_after failed_once "job-1") = FAILED ∧
  Job.retry_count (job_after failed_once "job-1") = 1%Z ∧
  (cancel_job "job-1" (state_after failed_once)).2 = CancelReturn false ∧
  job_queue (state_after (failed_once ++ [CancelJob "job-1"; TaskResume 0 Go]))
    = ["job-1"].
Proof. runs. Qed.

Lemma cancel_job_outcomes_witness :
  (cancel_job_result
     (cancel_job "job-1" (state_after [CreateJob "job-1" "cat.png" sample_config])).2
   = true ∧
   (∃ j', jobs (cancel_job "job-1"
                  (state_after [CreateJob "job-1" "cat.png" sample_config])).1
            !! "job-1" = Some j' ∧ Job.status j' = CANCELLED) ∧
   (Api.cancel_job "job-1"
      (state_after [CreateJob "job-1" "cat.png" sample_config])).2
     = Api.Json [("status", "cancelled")]) ∧
  (cancel_job "job-1" (state_after completed_on_retry)
     = (state_after completed_on_retry, CancelReturn false) ∧
   (Api.cancel_job "job-1" (state_after completed_on_retry)).2
     = Api.HTTPException 404 "Job not found or cannot be cancelled") ∧
  (cancel_job "job-9" (state_after completed_on_retry)
     = (state_after completed_on_retry, CancelReturn false) ∧
   (Api.cancel_job "job-9" (state_after completed_on_retry)).2
     = Api.HTTPException 404 "Job not found or cannot be cancelled").
Proof.
  split; [|split].
  - apply (proj1 (cancel_job_outcomes
             (state_after [CreateJob "job-1" "cat.png" sample_config]) "job-1")
             (job_after [CreateJob "job-1" "cat.png" sample_config] "job-1"));
      run.
  - apply (proj1 (proj2 (cancel_job_outcomes
             (state_after completed_on_retry) "job-1"))
             (job_after completed_on_retry "job-1")); run.
  - apply (proj2 (proj2 (cancel_job_outcomes
             (state_after completed_on_retry) "job-9"))); run.
Defined.

Lemma cancel_contract_counterexample : ¬ cancel_contract.
Proof.
  intros [_ H].
  apply (H (state_after completed_on_retry) "job-1" "job-9"
           (job_after completed_on_retry "job-1")).
  - run.
  - run.
  - run.
  - run.
Qed.

Lemma cleanup_removes_only_old_files_witness :
  jobs (_cleanup_task CONFIG (λ _, false) sweep_state) = jobs sweep_state ∧
  output_tree (_cleanup_task CONFIG (λ _, false) sweep_state)
    = [{| fe_path := "outputs/job-2_clip.mp4"; fe_is_file := true;
          fe_mtime := 700000 |};
       {| fe_path := "outputs/video"; fe_is_file := false; fe_mtime := 10 |}] ∧
  (fe_mtime {| fe_path := "outputs/job-1_clip.mp4"; fe_is_file := true;
               fe_mtime := 1000 |}
   < clock sweep_state - cleanup_days CONFIG * 24 * 3600)%Q.
Proof.
  destruct (cleanup_removes_only_old_files CONFIG (λ _, false) sweep_state
              {| fe_path := "outputs/job-1_clip.mp4"; fe_is_file := true;
                 fe_mtime := 1000 |})
    as ((Hjobs & _) & _ & Hout & _).
  split; [exact Hjobs|]. split; [run|].
  apply Hout.
  - vm_compute. by left.
  - vm_compute. intros Hin.
    repeat (apply elem_of_cons in Hin as [Hin|Hin]; [discriminate Hin|]).
    by apply elem_of_nil in Hin.
Defined.

Lemma generate_workflow_ignores_request_witness :
  _generate_workflow NoTemplate 1000 "cat.png" (Some sample_config)
    = _generate_workflow NoTemplate 2000 "dog.png" (Some other_config) ∧
  ∀ s' workflow,
    _process_job CONFIG "job-1" AtUpload (Uploaded "cat.png")
      (state_after [CreateJob "job-1" "cat.png" sample_config; WorkerGet 0;
                    TaskResume 0 Go])
      = Some (s', Suspend (AtSubmit workflow)) →
    workflow = _get_default_workflow.
Proof.
  destruct (generate_workflow_ignores_request NoTemplate 1000 2000
              "cat.png" "dog.png" sample_config other_config)
    as (Heq & _ & Hsub).
  split; [exact Heq|]. intros s' workflow. apply Hsub.
Defined.

Lemma worker_terminated_by_cancellation_witness :
  exec CONFIG cancelled_while_uploading boot
    = Some (state_after cancelled_while_uploading) ∧
  workers (state_after (cancelled_while_uploading ++ [Tick 2000]))
    = [Stopped] ∧
  "job-2" ∈ job_queue (state_after (cancelled_while_uploading ++ [Tick 2000])) ∧
  ∀ w, worker_get w (state_after (cancelled_while_uploading ++ [Tick 2000]))
       = None.
Proof.
  apply (worker_terminated_by_cancellation [Tick 2000]
           (state_after (cancelled_while_uploading ++ [Tick 2000]))).
  run.
Defined.

(** * Further properties of the code *)

(** ** [_process_job] on the job record *)

Section Pieces.
Variable cfg : Config.

Lemma on_exception_exact key msg s j :
  jobs s !! key = Some j →
  ∃ s',
    on_exception cfg key msg s = Some (s', (job_failed cfg msg j).2) ∧
    jobs s' = <[key := (job_failed cfg msg j).1]> (jobs s) ∧
    job_queue s' = job_queue s ∧ workers s' = workers s ∧
    processing_tasks s' = processing_tasks s ∧
    cancelling s' = cancelling s ∧ clock s' = clock s ∧
    upload_tree s' = upload_tree s ∧ output_tree s' = output_tree s ∧
    template s' = template s.
Proof.
  intros Hj. unfold on_exception, job_failed. sproj.
  rewrite !lookup_alter_eq, Hj.
  cbn [fmap option_fmap option_map mbind option_bind]. jproj.
  destruct (Job.retry_count j <? max_retries cfg)%Z; eexists;
    (split; [reflexivity|]); sproj; cbn [fst snd]; rewrite ?alter_alter_eq;
    (split; [by erewrite alter_alt_Some by done | done]).
Qed.

Lemma wait_loop_exact key pid st s j :
  jobs s !! key = Some j →
  ∃ s',
    wait_loop cfg key pid st s
      = Some (s', (job_wait cfg (clock s) pid st j).2) ∧
    jobs s' = <[key := (job_wait cfg (clock s) pid st j).1]> (jobs s) ∧
    job_queue s' = job_queue s ∧ workers s' = workers s ∧
    processing_tasks s' = processing_tasks s ∧
    cancelling s' = cancelling s ∧ clock s' = clock s ∧
    upload_tree s' = upload_tree s ∧ output_tree s' = output_tree s ∧
    template s' = template s.
Proof.
  intros Hj. unfold wait_loop, job_wait.
  destruct (Qltb (clock s - st) max_wait).
  - exists s. split; [done|]. by rewrite insert_id.
  - by apply on_exception_exact.
Qed.

(** [_process_job] changes the record under [key] as [job_piece] says,
    and is defined exactly when [job_piece] is. *)
Lemma process_job_piece key a r s j :
  jobs s !! key = Some j →
  match job_piece cfg (template s) (clock s) a r j with
  | Some (j', n) =>
    ∃ s', _process_job cfg key a r s = Some (s', n) ∧
          jobs s' = <[key := j']> (jobs s) ∧
          workers s' = workers s ∧ clock s' = clock s ∧
          template s' = template s ∧ upload_tree s' = upload_tree s ∧
          processing_tasks s' = processing_tasks s ∧
          cancelling s' = cancelling s
  | None => _process_job cfg key a r s = None
  end.
Proof.
  intros Hj. unfold _process_job, job_piece. rewrite Hj.
  cbn [mbind option_bind].
  assert (∀ f, with_job key f s = set_jobs (<[key := f j]> (jobs s)) s) as Hw
    by (intros f; unfold with_job; by erewrite alter_alt_Some).
  destruct a, r; try done.
  - eexists. split; [reflexivity|]. sproj. rewrite ?alter_alter_eq.
    split; [by erewrite alter_alt_Some by done | done].
  - sproj. destruct (_generate_workflow _ _ _ _) as [err|workflow].
    + destruct (on_exception_exact key err
                  (with_job key (Job.set_progress 30) s)
                  (Job.set_progress 30 j))
        as (s' & -> & Hjobs & ? & ? & ? & ? & ? & ? & ? & ?);
        [sproj; by rewrite lookup_alter_eq, Hj|].
      destruct (job_failed cfg err (Job.set_progress 30 j)) as [j' n].
      exists s'. split; [done|]. sproj.
      rewrite insert_alter_same in Hjobs. done.
    + eexists. split; [reflexivity|]. sproj. rewrite ?alter_alter_eq.
      split; [by erewrite alter_alt_Some by done | done].
  - destruct (on_exception_exact key msg s j Hj)
      as (s' & -> & Hjobs & ? & ? & ? & ? & ? & ? & ? & ?).
    destruct (job_failed cfg msg j) as [j' n]. by exists s'.
  - sproj.
    destruct (wait_loop_exact key prompt_id (clock s)
                (with_job key (Job.set_progress 50)
                   (with_job key
                      (Job.set_comfy_prompt_id (Some prompt_id)) s))
                (Job.set_progress 50
                   (Job.set_comfy_prompt_id (Some prompt_id) j)))
      as (s' & Hwl & Hjobs & ? & ? & ? & ? & ? & ? & ? & ?);
      [sproj; by rewrite !lookup_alter_eq, Hj|].
    sproj. rewrite Hwl.
    destruct (job_wait cfg (clock s) prompt_id (clock s) _) as [j' n].
    exists s'. split; [done|]. rewrite !insert_alter_same in Hjobs. done.
  - destruct (on_exception_exact key msg s j Hj)
      as (s' & -> & Hjobs & ? & ? & ? & ? & ? & ? & ? & ?).
    destruct (job_failed cfg msg j) as [j' n]. by exists s'.
  - destruct (history_completed _ _ _); eexists; (split; [reflexivity|]);
      sproj; (split; [by erewrite alter_alt_Some by done | done]).
  - destruct (on_exception_exact key msg s j Hj)
      as (s' & -> & Hjobs & ? & ? & ? & ? & ? & ? & ? & ?).
    destruct (job_failed cfg msg j) as [j' n]. by exists s'.
  - destruct (wait_loop_exact key prompt_id start_time s j Hj)
      as (s' & -> & Hjobs & ? & ? & ? & ? & ? & ? & ? & ?).
    destruct (job_wait cfg (clock s) prompt_id start_time j) as [j' n].
    by exists s'.
  - eexists. split; [reflexivity|]. sproj. rewrite ?alter_alter_eq.
    split; [by erewrite alter_alt_Some by done | done].
  - destruct (on_exception_exact key msg s j Hj)
      as (s' & -> & Hjobs & ? & ? & ? & ? & ? & ? & ? & ?).
    destruct (job_failed cfg msg j) as [j' n]. by exists s'.
  - eexists. split; [reflexivity|].
    assert (jobs (queue_job (Job.id j) s) = jobs s
            ∧ workers (queue_job (Job.id j) s) = workers s
            ∧ processing_tasks (queue_job (Job.id j) s) = processing_tasks s
            ∧ cancelling (queue_job (Job.id j) s) = cancelling s
            ∧ clock (queue_job (Job.id j) s) = clock s
            ∧ upload_tree (queue_job (Job.id j) s) = upload_tree s
            ∧ template (queue_job (Job.id j) s) = template s)
      as (-> & -> & -> & -> & -> & -> & ->)
      by (unfold queue_job; by destruct (jobs s !! Job.id j)).
    by rewrite insert_id.
Qed.

End Pieces.

(** ** Each operation, field by field *)

Section Steps.
Variable cfg : Config.

Lemma create_job_spec job_id name wc s s' :
  create_job cfg job_id name wc s = Some s' →
  jobs s !! job_id = None ∧
  ∃ j, jobs s' = <[job_id := j]> (jobs s) ∧
    Job.id j = job_id ∧ Job.status j = PENDING ∧ untouched j ∧
    Job.original_filename j = name ∧ Job.config j = Some wc ∧
    Job.created_at j = clock s ∧
    job_queue s' = (job_queue s ++ [job_id])%list ∧
    workers s' = workers s ∧ processing_tasks s' = processing_tasks s ∧
    cancelling s' = cancelling s ∧ clock s' = clock s ∧
    output_tree s' = output_tree s ∧ template s' = template s.
Proof.
  unfold create_job. destruct (jobs s !! job_id) eqn:Hid; [done|].
  intros [= <-]. split; [done|]. eexists. split; [reflexivity|].
  by repeat split.
Qed.

Lemma worker_get_spec w s s' :
  worker_get w s = Some s' →
  workers s !! w = Some Idle ∧
  ∃ key, job_queue s = key :: job_queue s' ∧
    jobs s' = jobs s ∧ clock s' = clock s ∧ cancelling s' = cancelling s ∧
    ((jobs s !! key = None ∧ workers s' = workers s ∧
      processing_tasks s' = processing_tasks s) ∨
     (is_Some (jobs s !! key) ∧
      workers s' = <[w := Busy key (Live AtStart false)]> (workers s) ∧
      processing_tasks s' = <[key := w]> (processing_tasks s))).
Proof.
  unfold worker_get. destruct (workers s !! w) as [[| |]|] eqn:Hw; try done.
  destruct (job_queue s) as [|key rest] eqn:Hq; [done|]. sproj.
  destruct (jobs s !! key) eqn:Hj; intros [= <-]; (split; [done|]);
    exists key; repeat (split; [done|]); [right | left]; eauto.
Qed.

Lemma task_resume_spec w r s s' :
  task_resume cfg w r s = Some s' →
  ∃ key a c, workers s !! w = Some (Busy key (Live a c)) ∧
    clock s' = clock s ∧ processing_tasks s' = processing_tasks s ∧
    cancelling s' = cancelling s ∧
    ((c = true ∧ jobs s' = jobs s ∧ job_queue s' = job_queue s ∧
      workers s' = <[w := Busy key (Done WasCancelled)]> (workers s)) ∨
     (c = false ∧ ∃ j j' n,
        jobs s !! key = Some j ∧
        job_piece cfg (template s) (clock s) a r j = Some (j', n) ∧
        jobs s' = <[key := j']> (jobs s) ∧
        workers s' = <[w := Busy key (task_of_next n)]> (workers s) ∧
        job_queue s' =
          job_queue (match a with
                     | AtRetrySleep => queue_job (Job.id j) s
                     | _ => s
                     end))).
Proof.
  unfold task_resume.
  destruct (workers s !! w) as [[|key [a [|]|]|]|] eqn:Hw; try done.
  - intros [= <-]. exists key, a, true. repeat (split; [done|]). by left.
  - destruct (_process_job cfg key a r s) as [[s1 n]|] eqn:Hp; [|done].
    cbn [mbind option_bind]. intros Hs'.
    pose proof Hp as Hp'.
    apply process_job_spec in Hp'
      as (j & j0 & Hj & _ & _ & _ & _ & _ & _ & _ & Hq & _).
    pose proof (process_job_piece cfg key a r s j Hj) as Hpiece.
    destruct (job_piece cfg (template s) (clock s) a r j) as [[j' n']|]
      eqn:Hjp; [|congruence].
    destruct Hpiece as (s2 & Hp2 & Hjobs & Hws & Hclock & _ & _ & Hpt & Hc).
    assert (s2 = s1 ∧ n' = n) as [-> ->] by (split; congruence).
    exists key, a, false. split; [done|].
    assert (s' = set_worker w (Busy key (task_of_next n)) s1) as ->
      by (destruct n; by injection Hs' as <-).
    sproj. repeat (split; [done|]). right. split; [done|].
    exists j, j', n. rewrite Hws. done.
Qed.

Lemma worker_wake_spec w s s' :
  worker_wake w s = Some s' →
  ∃ key res, workers s !! w = Some (Busy key (Done res)) ∧
    workers s' = <[w := after_task res]> (workers s) ∧
    processing_tasks s' = delete key (processing_tasks s) ∧
    jobs s' = jobs s ∧ job_queue s' = job_queue s ∧ clock s' = clock s ∧
    cancelling s' = cancelling s.
Proof.
  unfold worker_wake.
  destruct (workers s !! w) as [[|key [a c|res]|]|] eqn:Hw; try done.
  intros [= <-]. by exists key, res.
Qed.

Lemma cancel_processing_task_spec key s :
  let s' := cancel_processing_task key s in
  jobs s' = jobs s ∧ job_queue s' = job_queue s ∧ clock s' = clock s ∧
  processing_tasks s' = processing_tasks s ∧ cancelling s' = cancelling s ∧
  (workers s' = workers s ∨
   ∃ h k a c, processing_tasks s !! key = Some h ∧
     workers s !! h = Some (Busy k (Live a c)) ∧
     workers s' = <[h := Busy k (Live a true)]> (workers s)).
Proof.
  unfold cancel_processing_task, task_cancel.
  destruct (processing_tasks s !! key) as [h|] eqn:Hh; [|by auto 10].
  destruct (workers s !! h) as [[|k [a c|r]|]|] eqn:Hw; try by auto 10.
  sproj. repeat (split; [done|]). right. by exists h, k, a, c.
Qed.

Lemma cancel_job_spec key s :
  let s' := (cancel_job key s).1 in
  job_queue s' = job_queue s ∧ clock s' = clock s ∧
  processing_tasks s' = processing_tasks s ∧
  (workers s' = workers s ∨
   ∃ h k a c, processing_tasks s !! key = Some h ∧
     workers s !! h = Some (Busy k (Live a c)) ∧
     workers s' = <[h := Busy k (Live a true)]> (workers s)).
Proof.
  unfold cancel_job. destruct (jobs s !! key) as [j|]; [|by auto 10].
  destruct (cancellable (Job.status j)); [|by auto 10].
  destruct (truthy (Job.comfy_prompt_id j)); cbn [fst]; [by auto 10|].
  destruct (cancel_processing_task_spec key
              (with_job key (Job.set_status CANCELLED) s))
    as (_ & Hq & Hc & Hp & _ & Hw).
  cbn zeta in *. by rewrite Hq, Hc, Hp.
Qed.

Lemma cancel_job_resume_spec key s0 :
  let s := set_cancelling (remove_first key (cancelling s0)) s0 in
  let s' := (cancel_job_resume key s).1 in
  jobs s' = jobs s0 ∧ job_queue s' = job_queue s0 ∧ clock s' = clock s0 ∧
  processing_tasks s' = processing_tasks s0 ∧
  (workers s' = workers s0 ∨
   ∃ h k a c, processing_tasks s0 !! key = Some h ∧
     workers s0 !! h = Some (Busy k (Live a c)) ∧
     workers s' = <[h := Busy k (Live a true)]> (workers s0)).
Proof.
  cbn zeta. unfold cancel_job_resume. cbn [fst].
  destruct (cancel_processing_task_spec key
              (set_cancelling (remove_first key (cancelling s0)) s0))
    as (Hj & Hq & Hc & Hp & _ & Hw).
  cbn zeta in *. by rewrite Hj, Hq, Hc, Hp.
Qed.

End Steps.

(** ** One step of the server, case by case *)

Section Cases.
Variable cfg : Config.

Lemma cancel_job_jobs_cases key s :
  jobs (cancel_job key s).1 = jobs s ∨
  ∃ j, jobs s !! key = Some j ∧ cancellable (Job.status j) = true ∧
    jobs (cancel_job key s).1 = <[key := Job.set_status CANCELLED j]> (jobs s).
Proof.
  destruct (jobs s !! key) as [j|] eqn:Hj.
  - destruct (cancellable (Job.status j)) eqn:Hc.
    + right. exists j. repeat (split; [done|]). apply map_eq. intros k.
      rewrite cancel_job_jobs, Hj, Hc. cbn [andb]. case_bool_decide as Hk.
      * subst k. by rewrite lookup_insert_eq.
      * by rewrite lookup_insert_ne.
    + left. apply map_eq. intros k. by rewrite cancel_job_jobs, Hj, Hc.
  - left. apply map_eq. intros k. by rewrite cancel_job_jobs, Hj.
Qed.

Lemma cancel_job_cases key s :
  let s' := (cancel_job key s).1 in
  s' = s ∨
  ∃ j, jobs s !! key = Some j ∧ cancellable (Job.status j) = true ∧
    jobs s' = <[key := Job.set_status CANCELLED j]> (jobs s) ∧
    clock s' = clock s ∧ job_queue s' = job_queue s ∧
    processing_tasks s' = processing_tasks s ∧
    ((truthy (Job.comfy_prompt_id j) = true ∧ workers s' = workers s ∧
      cancelling s' = (cancelling s ++ [key])%list) ∨
     (truthy (Job.comfy_prompt_id j) = false ∧
      cancelling s' = cancelling s ∧ flagged key s s')).
Proof.
  cbn zeta.
  destruct (cancel_job_jobs_cases key s) as [Hsame|(j & Hj & Hc & Hjobs)].
  - left. unfold cancel_job in *.
    destruct (jobs s !! key) as [j|] eqn:Hj; [|done].
    destruct (cancellable (Job.status j)) eqn:Hc; [|done]. exfalso.
    assert (jobs (with_job key (Job.set_status CANCELLED) s) !! key
            = jobs s !! key) as E.
    { destruct (truthy (Job.comfy_prompt_id j)); cbn [fst] in Hsame.
      - by rewrite <- Hsame.
      - rewrite <- Hsame.
        by destruct (cancel_processing_task_spec key
                       (with_job key (Job.set_status CANCELLED) s))
          as (-> & _). }
    sproj. rewrite lookup_alter_eq, Hj in E. cbn in E.
    injection E as E. rewrite <- E in Hc. done.
  - right. exists j. repeat (split; [done|]).
    destruct (cancel_job_spec key s) as (Hq & Hcl & Hp & Hw).
    cbn zeta in *. repeat (split; [done|]).
    unfold cancel_job in *. rewrite Hj, Hc in *.
    destruct (truthy (Job.comfy_prompt_id j)); cbn [fst] in *.
    + left. by sproj.
    + right. split; [done|]. split; [|exact Hw].
      by destruct (cancel_processing_task_spec key
                     (with_job key (Job.set_status CANCELLED) s))
        as (_ & _ & _ & _ & -> & _).
Qed.

Lemma step_cases e s s' :
  step cfg e s = Some s' →
  (match e with Tick _ | CancelJob _ | Cleanup _ => True | _ => False end ∧
   jobs s' = jobs s ∧ workers s' = workers s ∧
   job_queue s' = job_queue s ∧ (clock s <= clock s')%Q ∧
   processing_tasks s' = processing_tasks s ∧
   cancelling s' = cancelling s)
  ∨ (∃ job_id j, (∃ name wc, e = CreateJob job_id name wc) ∧
       jobs s !! job_id = None ∧
       jobs s' = <[job_id := j]> (jobs s) ∧ Job.id j = job_id ∧
       Job.status j = PENDING ∧ untouched j ∧ Job.created_at j = clock s ∧
       is_Some (Job.config j) ∧
       workers s' = workers s ∧ clock s' = clock s ∧
       processing_tasks s' = processing_tasks s ∧
       cancelling s' = cancelling s ∧
       job_queue s' = (job_queue s ++ [job_id])%list)
  ∨ (∃ w key, e = WorkerGet w ∧ workers s !! w = Some Idle ∧
       jobs s' = jobs s ∧ clock s' = clock s ∧
       cancelling s' = cancelling s ∧
       job_queue s = key :: job_queue s' ∧
       ((jobs s !! key = None ∧ workers s' = workers s ∧
         processing_tasks s' = processing_tasks s) ∨
        (is_Some (jobs s !! key) ∧
         workers s' = <[w := Busy key (Live AtStart false)]> (workers s) ∧
         processing_tasks s' = <[key := w]> (processing_tasks s))))
  ∨ (∃ w key a r, e = TaskResume w r ∧
       workers s !! w = Some (Busy key (Live a true)) ∧
       jobs s' = jobs s ∧ clock s' = clock s ∧
       cancelling s' = cancelling s ∧
       job_queue s' = job_queue s ∧
       processing_tasks s' = processing_tasks s ∧
       workers s' = <[w := Busy key (Done WasCancelled)]> (workers s))
  ∨ (∃ w key a r j j' n, e = TaskResume w r ∧
       workers s !! w = Some (Busy key (Live a false)) ∧
       jobs s !! key = Some j ∧
       job_piece cfg (template s) (clock s) a r j = Some (j', n) ∧
       jobs s' = <[key := j']> (jobs s) ∧ clock s' = clock s ∧
       cancelling s' = cancelling s ∧
       processing_tasks s' = processing_tasks s ∧
       workers s' = <[w := Busy key (task_of_next n)]> (workers s) ∧
       job_queue s' =
         job_queue (match a with
                    | AtRetrySleep => queue_job (Job.id j) s
                    | _ => s
                    end))
  ∨ (∃ w key res, e = WorkerWake w ∧
       workers s !! w = Some (Busy key (Done res)) ∧
       jobs s' = jobs s ∧ clock s' = clock s ∧
       cancelling s' = cancelling s ∧
       job_queue s' = job_queue s ∧
       processing_tasks s' = delete key (processing_tasks s) ∧
       workers s' = <[w := after_task res]> (workers s))
  ∨ (∃ key j, e = CancelJob key ∧ jobs s !! key = Some j ∧
       cancellable (Job.status j) = true ∧
       jobs s' = <[key := Job.set_status CANCELLED j]> (jobs s) ∧
       clock s' = clock s ∧ job_queue s' = job_queue s ∧
       processing_tasks s' = processing_tasks s ∧
       ((truthy (Job.comfy_prompt_id j) = true ∧ workers s' = workers s ∧
         cancelling s' = (cancelling s ++ [key])%list) ∨
        (truthy (Job.comfy_prompt_id j) = false ∧
         cancelling s' = cancelling s ∧ flagged key s s')))
  ∨ (∃ key, e = CancelResume key ∧ key ∈ cancelling s ∧
       cancelling s' = remove_first key (cancelling s) ∧
       jobs s' = jobs s ∧ clock s' = clock s ∧
       job_queue s' = job_queue s ∧
       processing_tasks s' = processing_tasks s ∧ flagged key s s').
Proof.
  destruct e as [t|job_id name wc|w|w r|w|job_id|job_id|uf]; cbn.
  - destruct (Qle_bool (clock s) t) eqn:Ht; [|done]. intros [= <-].
    apply Qle_bool_imp_le in Ht. by left.
  - intros H. apply create_job_spec in H
      as (Hnone & j & Hjobs & Hid & Hst & Hun & _ & Hcf & Hcr & Hq & Hw & Hp
          & Hcc & Hc & _).
    right; left. exists job_id, j. rewrite Hcf. split; [by eauto|].
    by repeat (split; [done|]).
  - intros H. apply worker_get_spec in H
      as (Hw & key & Hq & Hj & Hc & Hcc & Hcases).
    do 2 right; left. by exists w, key.
  - intros H. apply task_resume_spec in H
      as (key & a & c & Hw & Hc & Hp & Hcc
          & [(-> & Hj & Hq & Hws)|(-> & H)]).
    + do 3 right; left. by exists w, key, a, r.
    + destruct H as (j & j' & n & Hj & Hjp & Hjobs & Hws & Hq).
      do 4 right; left. by exists w, key, a, r, j, j', n.
  - intros H. apply worker_wake_spec in H
      as (key & res & Hw & Hws & Hp & Hj & Hq & Hc & Hcc).
    do 5 right; left. by exists w, key, res.
  - intros [= <-].
    destruct (cancel_job_cases job_id s) as [->|(j & H)]; cbn zeta in *.
    + left. repeat (split; [done|]). split; [apply Qle_refl | done].
    + do 6 right; left. by exists job_id, j.
  - case_bool_decide as Hin; [|done]. intros [= <-]. do 7 right.
    exists job_id.
    destruct (cancel_job_resume_spec job_id s) as (Hj & Hq & Hc & Hp & Hw).
    cbn zeta in *. repeat (split; [done|]). split; [|done].
    unfold cancel_job_resume. cbn [fst].
    by destruct (cancel_processing_task_spec job_id
                   (set_cancelling (remove_first job_id (cancelling s)) s))
      as (_ & _ & _ & _ & -> & _).
  - destruct (cleanup_old_files cfg); [|done]. intros [= <-].
    destruct (cleanup_frame cfg uf s) as (? & ? & ? & ? & ? & ? & Hc).
    cbn zeta in *. left. repeat (split; [done|]).
    split; [|done]. rewrite Hc. apply Qle_refl.
Qed.

End Cases.

Ltac by_step_cases cfg Hstep :=
  destruct (step_cases cfg _ _ _ Hstep)
    as [(Hpassive & Hjobs & Hworkers & Hqueue & Hclock & Htasks & Hcancelling)
       |[(job_id & jnew & Hcreate & Hnone & Hjobs & Hid & Hstatus & Huntouched
          & Hcreated & Hconfig & Hworkers & Hclock & Htasks & Hcancelling
          & Hqueue)
       |[(w & key & He & Hidle & Hjobs & Hclock & Hcancelling & Hqueue
          & Hget)
       |[(w & key & a & r & He & Hworker & Hjobs & Hclock & Hcancelling
          & Hqueue & Htasks & Hworkers)
       |[(w & key & a & r & j & j' & n & He & Hworker & Hjob & Hpiece
          & Hjobs & Hclock & Hcancelling & Htasks & Hworkers & Hqueue)
       |[(w & key & res & He & Hworker & Hjobs & Hclock & Hcancelling
          & Hqueue & Htasks & Hworkers)
       |[(key & j & He & Hjob & Hcancellable & Hjobs & Hclock & Hqueue
          & Htasks & Hcancel)
       |(key & He & Hin & Hcancelling & Hjobs & Hclock & Hqueue & Htasks
         & Hflag)]]]]]]].

(** ** The job records of the reachable states *)

Ltac conjs := repeat match goal with |- _ ∧ _ => split end.

Lemma pair_fst_snd {A B} (x : A * B) a b : x = (a, b) → x.1 = a ∧ x.2 = b.
Proof. by intros ->. Qed.

Section Records.
Variable cfg : Config.

Lemma poll_lower_bound (now st : Q) :
  (st <= now)%Q → (50 <= 50 + Qmin 30 ((now - st) / max_wait * 30))%Q.
Proof.
  intros H. eapply Qle_trans; [apply (poll_start_bound st)|].
  by apply poll_bound_mono.
Qed.

Lemma at_written_mono t t' a j :
  (t <= t')%Q → at_written t a j → at_written t' a j.
Proof.
  intros Ht. destruct a; cbn; try done;
    intros (? & ? & ?); (split; [done|split; [done|lra]]).
Qed.

Lemma record_ok_cancelled j :
  cancellable (Job.status j) = true → record_ok j →
  record_ok (Job.set_status CANCELLED j).
Proof.
  intros Hc (H0 & H100 & Hdone & Hat & Hp). unfold record_ok. jproj.
  conjs; try done. intros H. apply Hat in H. rewrite H in Hc. done.
Qed.

Lemma record_ok_failed msg j :
  Job.status j ≠ COMPLETED → record_ok j →
  record_ok (job_failed cfg msg j).1.
Proof.
  intros Hn (H0 & H100 & Hdone & Hat & Hp). unfold job_failed. jproj.
  destruct (Job.retry_count j <? max_retries cfg)%Z; cbn [fst];
    unfold record_ok; jproj; conjs; try done; intros H; by apply Hat in H.
Qed.

Lemma job_failed_next msg j now :
  match (job_failed cfg msg j).2 with
  | Suspend a => at_written now a (job_failed cfg msg j).1
  | Finish res => res = Returned
  end.
Proof.
  unfold job_failed. jproj.
  by destruct (Job.retry_count j <? max_retries cfg)%Z.
Qed.

Lemma record_ok_progress q j :
  (0 <= q)%Q → (q <= 100)%Q → Job.status j ≠ COMPLETED →
  Job.status j ≠ PENDING → record_ok j → record_ok (Job.set_progress q j).
Proof.
  intros ? ? Hn Hp (H0 & H100 & Hdone & Hat & Hpe). unfold record_ok. jproj.
  conjs; done.
Qed.

Lemma active_not_pending st : active_status st → st ≠ PENDING.
Proof. by intros [->| [->| ->]]. Qed.

Lemma record_ok_wait now prompt_id start_time j :
  active_status (Job.status j) → record_ok j →
  is_Some (Job.started_at j) → Job.comfy_prompt_id j = Some prompt_id →
  (start_time <= now)%Q →
  record_ok (job_wait cfg now prompt_id start_time j).1 ∧
  match (job_wait cfg now prompt_id start_time j).2 with
  | Suspend a =>
    at_written now a (job_wait cfg now prompt_id start_time j).1
  | Finish res => res = Returned
  end.
Proof.
  intros Ha Hr Hs Hc Ht. unfold job_wait.
  destruct (Qltb (now - start_time) max_wait); cbn [fst snd].
  - done.
  - split; [|apply job_failed_next].
    apply record_ok_failed; [by apply active_not_completed | done].
Qed.

(** One piece of [_process_job] keeps the record in order and never ends
    with an exception. *)
Lemma job_piece_record tpl now a r j j' n :
  job_piece cfg tpl now a r j = Some (j', n) →
  at_ok now a j → at_written now a j → record_ok j →
  record_ok j' ∧
  match n with
  | Suspend a' => at_written now a' j'
  | Finish res => res = Returned
  end.
Proof.
  intros H Hok Hwr Hr.
  destruct a as [| |wf|pid st|pid st|pid|], r as [|u|p|code entry|v|msg];
    cbn in H; try done; cbn in Hok, Hwr.
  - (* start *)
    injection H as <- <-. split; [|by cbn].
    destruct Hr as (Hlo & Hhi & Hdone & Hat & Hp).
    unfold record_ok. jproj. conjs; try lra; try done.
    intros Hc. apply Hat in Hc. rewrite Hc in Hok.
    by destruct Hok as [?|[?|?]].
  - (* uploaded *)
    destruct Hok as [Hact Hle].
    pose proof (active_not_completed _ Hact).
    pose proof (active_not_pending _ Hact).
    destruct (_generate_workflow tpl now u (Job.config j)) as [err|wf].
    + injection H as H; apply pair_fst_snd in H as [<- <-].
      split; [|apply job_failed_next].
      apply record_ok_failed; [done|]. apply record_ok_progress; (lra || done).
    + injection H as <- <-. split; [|by cbn].
      destruct Hr as (Hlo & Hhi & Hdone & Hat & Hp).
      unfold record_ok. jproj. conjs; try lra; try done.
      intros Hc. by apply Hat in Hc.
  - (* upload raised *)
    destruct Hok as [Hact Hle].
    injection H as H; apply pair_fst_snd in H as [<- <-].
    split; [|apply job_failed_next].
    apply record_ok_failed; [by apply active_not_completed | done].
  - (* queued *)
    destruct Hok as [Hact Hle].
    set (j1 := Job.set_progress 50
                 (Job.set_comfy_prompt_id (Some p) j)) in *.
    injection H as H; apply pair_fst_snd in H as [<- <-].
    apply record_ok_wait; subst j1; jproj; try done; [|apply Qle_refl].
    destruct Hr as (Hlo & Hhi & Hdone & Hat & Hp).
    unfold record_ok. jproj. conjs; try lra; try done.
    + intros Hc. by apply active_not_completed in Hact.
    + intros Hc. by apply active_not_pending in Hact.
  - (* submit raised *)
    destruct Hok as [Hact Hle].
    injection H as H; apply pair_fst_snd in H as [<- <-].
    split; [|apply job_failed_next].
    apply record_ok_failed; [by apply active_not_completed | done].
  - (* history *)
    destruct Hok as [Hact Hle]. destruct Hwr as (Hs & Hc & Ht).
    pose proof (active_not_completed _ Hact).
    pose proof (active_not_pending _ Hact).
    destruct (history_completed pid code entry); injection H as <- <-.
    + split; [|by cbn]. apply record_ok_progress; (lra || done).
    + split; [|by cbn]. apply record_ok_progress; try done.
      * pose proof (poll_lower_bound now st Ht). lra.
      * pose proof (poll_bound_le_80 now st). lra.
  - (* poll raised *)
    destruct Hok as [Hact Hle].
    injection H as H; apply pair_fst_snd in H as [<- <-].
    split; [|apply job_failed_next].
    apply record_ok_failed; [by apply active_not_completed | done].
  - (* after the poll sleep *)
    destruct Hok as [Hact Hle]. destruct Hwr as (Hs & Hc & Ht).
    injection H as H; apply pair_fst_snd in H as [<- <-].
    by apply record_ok_wait.
  - (* downloaded *)
    destruct Hok as [Hact Hle]. destruct Hwr as (Hs & Hc).
    injection H as <- <-. split; [|done].
    unfold record_ok. jproj. conjs; try lra; done.
  - (* download raised *)
    destruct Hok as [Hact Hle].
    injection H as H; apply pair_fst_snd in H as [<- <-].
    split; [|apply job_failed_next].
    apply record_ok_failed; [by apply active_not_completed | done].
  - (* after the retry sleep *)
    injection H as <- <-. done.
Qed.

Lemma at_written_cancelled now a j :
  at_written now a (Job.set_status CANCELLED j) ↔ at_written now a j.
Proof. by destruct a. Qed.

Lemma flagged_back key0 s s' w0 k a0 c :
  flagged key0 s s' → workers s' !! w0 = Some (Busy k (Live a0 c)) →
  ∃ c0, workers s !! w0 = Some (Busy k (Live a0 c0)).
Proof.
  intros [->|(h & k1 & a1 & c1 & _ & Hh & ->)]; [by eauto|].
  destruct (decide (w0 = h)) as [->|Hne].
  - rewrite list_lookup_insert_eq by (by eapply lookup_lt_Some).
    intros [= <- <- <-]. by eauto.
  - rewrite list_lookup_insert_ne by done. by eauto.
Qed.

Lemma step_records_ok e s s' :
  Inv s → records_ok s → step cfg e s = Some s' → records_ok s'.
Proof.
  intros HI [Hlive Hrec] Hstep. by_step_cases cfg Hstep.
  - (* nothing but the clock *)
    split.
    + intros w key a c j. rewrite Hworkers, Hjobs. intros H1 H2.
      eapply at_written_mono; [exact Hclock | by eapply Hlive].
    + intros key j. rewrite Hjobs. apply Hrec.
  - (* create_job *)
    split.
    + intros w key a c j. rewrite Hworkers, Hjobs, Hclock. intros H1 H2.
      destruct (inv_live _ _ _ _ HI w key a c H1) as (_ & jk & Hjk & _).
      rewrite lookup_insert_ne in H2 by congruence. by eapply Hlive.
    + intros key j. rewrite Hjobs.
      destruct (decide (key = job_id)) as [->|Hne].
      * rewrite lookup_insert_eq. intros [= <-].
        destruct Huntouched as (Hp & ? & Hca & ? & ? & ? & ?).
        unfold record_ok. rewrite Hp, Hstatus, Hca.
        conjs; try lra; done.
      * rewrite lookup_insert_ne by done. apply Hrec.
  - (* a worker takes an identifier *)
    split; [|intros k j; rewrite Hjobs; apply Hrec].
    intros w0 k a c j. rewrite Hjobs, Hclock.
    destruct Hget as [(_ & -> & _)|(_ & -> & _)]; [by eapply Hlive|].
    destruct (decide (w0 = w)) as [->|Hne].
    + rewrite list_lookup_insert_eq
        by (by eapply lookup_lt_Some). by intros [= <- <- <-].
    + rewrite list_lookup_insert_ne by done. by eapply Hlive.
  - (* a cancelled task ends *)
    split; [|intros k j; rewrite Hjobs; apply Hrec].
    intros w0 k a0 c j. rewrite Hjobs, Hclock, Hworkers.
    destruct (decide (w0 = w)) as [->|Hne].
    + rewrite list_lookup_insert_eq
        by (by eapply lookup_lt_Some). done.
    + rewrite list_lookup_insert_ne by done. by eapply Hlive.
  - (* one piece of a task *)
    destruct (inv_live _ _ _ _ HI w key a false Hworker)
      as (_ & jk & Hjk' & Hat).
    assert (jk = j) as -> by congruence.
    destruct (job_piece_record _ _ _ _ _ _ _ Hpiece Hat
                (Hlive _ _ _ _ _ Hworker Hjob) (Hrec _ _ Hjob))
      as [Hr' Hn'].
    split.
    + intros w0 k a0 c j0. rewrite Hjobs, Hclock, Hworkers.
      destruct (decide (w0 = w)) as [->|Hne].
      * rewrite list_lookup_insert_eq
          by (by eapply lookup_lt_Some).
        destruct n as [a'|res0]; cbn [task_of_next]; [|done].
        intros [= <- <- <-]. rewrite lookup_insert_eq. by intros [= <-].
      * rewrite list_lookup_insert_ne by done. intros H1.
        assert (k ≠ key) as Hk.
        { intros ->.
          by pose proof (inv_uniq _ _ _ _ HI _ _ _ _ _ _ _ H1 Hworker). }
        rewrite lookup_insert_ne by done. by eapply Hlive.
    + intros k j0. rewrite Hjobs.
      destruct (decide (k = key)) as [->|Hne].
      * rewrite lookup_insert_eq. by intros [= <-].
      * rewrite lookup_insert_ne by done. apply Hrec.
  - (* the worker wakes up *)
    split; [|intros k j; rewrite Hjobs; apply Hrec].
    intros w0 k a0 c j. rewrite Hjobs, Hclock, Hworkers.
    destruct (decide (w0 = w)) as [->|Hne].
    + rewrite list_lookup_insert_eq
        by (by eapply lookup_lt_Some). by destruct res.
    + rewrite list_lookup_insert_ne by done. by eapply Hlive.
  - (* cancel_job *)
    assert (flagged key s s') as Hflag
      by (destruct Hcancel as [(_ & ? & _)|(_ & _ & ?)]; [by left | done]).
    split.
    + intros w0 k a0 c j0 H1. rewrite Hjobs, Hclock.
      destruct (flagged_back _ _ _ _ _ _ _ Hflag H1) as [c0 H0].
      destruct (decide (k = key)) as [->|Hne].
      * rewrite lookup_insert_eq. intros [= <-].
        apply at_written_cancelled. by eapply Hlive.
      * rewrite lookup_insert_ne by done. by eapply Hlive.
    + intros k j0. rewrite Hjobs.
      destruct (decide (k = key)) as [->|Hne].
      * rewrite lookup_insert_eq. intros [= <-].
        apply record_ok_cancelled; [done | by eapply Hrec].
      * rewrite lookup_insert_ne by done. apply Hrec.
  - (* cancel_job after the interrupt request *)
    split; [|intros k j; rewrite Hjobs; apply Hrec].
    intros w0 k a0 c j0 H1. rewrite Hjobs, Hclock.
    destruct (flagged_back _ _ _ _ _ _ _ Hflag H1) as [c0 H0].
    by eapply Hlive.
Qed.

Lemma init_records_ok t0 tpl uploads outputs :
  records_ok (init_server cfg t0 tpl uploads outputs).
Proof.
  split.
  - intros w key a c j Hw. unfold init_server in Hw. sproj.
    apply lookup_replicate in Hw as [? _]. done.
  - intros key j. unfold init_server. sproj. by rewrite lookup_empty.
Qed.

Lemma exec_records_ok es s s' :
  Inv s → records_ok s → exec cfg es s = Some s' → records_ok s'.
Proof.
  revert s. induction es as [|e es IH]; intros s HI Hr; cbn.
  - by intros [= <-].
  - destruct (step cfg e s) as [s1|] eqn:Hs; [|done]. cbn.
    apply IH; [by eapply step_Inv | by eapply step_records_ok].
Qed.

Lemma reachable_records_ok s : reachable cfg s → records_ok s.
Proof.
  intros (t0 & tpl & up & out & es & Hes).
  eapply exec_records_ok; [apply init_Inv | apply init_records_ok | exact Hes].
Qed.

End Records.

Section Times.
Variable cfg : Config.

Lemma times_ok_mono t t' j : (t <= t')%Q → times_ok t j → times_ok t' j.
Proof.
  intros Ht (Hc & Hs & Hd). split; [lra|]. split.
  - intros x Hx. destruct (Hs x Hx). split; lra.
  - intros x y Hx Hy. destruct (Hd x y Hx Hy). split; lra.
Qed.

Lemma job_failed_times msg j :
  Job.created_at (job_failed cfg msg j).1 = Job.created_at j ∧
  Job.started_at (job_failed cfg msg j).1 = Job.started_at j ∧
  Job.completed_at (job_failed cfg msg j).1 = Job.completed_at j.
Proof.
  unfold job_failed. jproj.
  by destruct (Job.retry_count j <? max_retries cfg)%Z.
Qed.

Lemma job_wait_times now p st j :
  Job.created_at (job_wait cfg now p st j).1 = Job.created_at j ∧
  Job.started_at (job_wait cfg now p st j).1 = Job.started_at j ∧
  Job.completed_at (job_wait cfg now p st j).1 = Job.completed_at j.
Proof.
  unfold job_wait. destruct (Qltb (now - st) max_wait); [done|].
  apply job_failed_times.
Qed.

Lemma times_ok_same now j j' :
  Job.created_at j' = Job.created_at j →
  Job.started_at j' = Job.started_at j →
  Job.completed_at j' = Job.completed_at j →
  times_ok now j → times_ok now j'.
Proof. unfold times_ok. by intros -> -> ->. Qed.

Lemma job_piece_times tpl now a r j j' n :
  job_piece cfg tpl now a r j = Some (j', n) →
  at_ok now a j → record_ok j → times_ok now j → times_ok now j'.
Proof.
  intros H Hok Hr Ht.
  assert (a = AtStart ∨ (∃ p, a = AtDownload p) ∨
          (a ≠ AtStart ∧ ∀ p, a ≠ AtDownload p)) as [->|[[p ->]|[Hn1 Hn2]]].
  { destruct a; eauto; right; right; by split. }
  - destruct r; try done. cbn in H. injection H as <- <-.
    destruct Ht as (Hc & Hs & Hd). destruct Hr as (_ & _ & _ & Hat & _).
    unfold times_ok. jproj. split; [done|]. split.
    + intros t [= <-]. split; [done | apply Qle_refl].
    + intros t t' _ Hcomp. assert (Job.status j = COMPLETED) as Hst
        by (apply Hat; by rewrite Hcomp).
      cbn in Hok. rewrite Hst in Hok. by destruct Hok as [?|[?|?]].
  - destruct r; try done; cbn in H.
    + injection H as <- <-. destruct Ht as (Hc & Hs & Hd).
      unfold times_ok. jproj. split; [done|]. split; [done|].
      intros t t' Hst [= <-]. destruct (Hs t Hst). split; [done|].
      apply Qle_refl.
    + injection H as H. apply pair_fst_snd in H as [<- _].
      destruct (job_failed_times msg j) as (? & ? & ?).
      by eapply times_ok_same.
  - assert (Job.created_at j' = Job.created_at j ∧
            Job.started_at j' = Job.started_at j ∧
            Job.completed_at j' = Job.completed_at j) as (? & ? & ?);
      [|by eapply times_ok_same].
    destruct a as [| |wf|pid st|pid st|pid|], r as [|u|q|code entry|v|msg];
      cbn in H; try done; try (by destruct (Hn2 pid));
      try (injection H as H; apply pair_fst_snd in H as [<- _];
           first [apply job_failed_times | apply job_wait_times]);
      try (by injection H as <- <-).
    + destruct (_generate_workflow tpl now u (Job.config j));
        [|by injection H as <- <-].
      injection H as H. apply pair_fst_snd in H as [<- _].
      by destruct (job_failed_times s (Job.set_progress 30 j)) as (? & ? & ?).
    + injection H as H. apply pair_fst_snd in H as [<- _].
      by destruct (job_wait_times now q now
                     (Job.set_progress 50
                        (Job.set_comfy_prompt_id (Some q) j))) as (? & ? & ?).
    + by destruct (history_completed pid code entry); injection H as <- <-.
Qed.

Lemma step_times_ok e s s' :
  Inv s → records_ok s → all_times_ok s → step cfg e s = Some s' →
  all_times_ok s'.
Proof.
  intros HI [Hlive Hrec] Ht Hstep. unfold all_times_ok.
  by_step_cases cfg Hstep; try (rewrite Hjobs, Hclock; exact Ht).
  - intros k j. rewrite Hjobs. intros Hk.
    eapply times_ok_mono; [exact Hclock | by eapply Ht].
  - intros k j. rewrite Hjobs, Hclock.
    destruct (decide (k = job_id)) as [->|Hne].
    + rewrite lookup_insert_eq. intros [= <-].
      destruct Huntouched as (_ & Hs & Hca & _).
      unfold times_ok. rewrite Hs, Hca, Hcreated.
      by split; [apply Qle_refl|].
    + rewrite lookup_insert_ne by done. apply Ht.
  - destruct (inv_live _ _ _ _ HI w key a false Hworker)
      as (_ & jk & Hjk' & Hat).
    assert (jk = j) as -> by congruence.
    intros k j0. rewrite Hjobs, Hclock.
    destruct (decide (k = key)) as [->|Hne].
    + rewrite lookup_insert_eq. intros [= <-].
      eapply job_piece_times; eauto.
    + rewrite lookup_insert_ne by done. apply Ht.
  - intros k j0. rewrite Hjobs, Hclock.
    destruct (decide (k = key)) as [->|Hne].
    + rewrite lookup_insert_eq. intros [= <-].
      eapply times_ok_same; [..|by eapply Ht]; done.
    + rewrite lookup_insert_ne by done. apply Ht.
Qed.

End Times.

Section Lifecycle.
Variable cfg : Config.

Lemma reachable_times_ok s : reachable cfg s → all_times_ok s.
Proof.
  intros (t0 & tpl & up & out & es & Hes).
  pose proof (init_Inv cfg t0 tpl up out) as HI.
  pose proof (init_records_ok cfg t0 tpl up out) as HR.
  assert (all_times_ok (init_server cfg t0 tpl up out)) as HT.
  { intros key j. unfold init_server. sproj. by rewrite lookup_empty. }
  revert HI HR HT Hes. generalize (init_server cfg t0 tpl up out).
  induction es as [|e es IH]; intros s0 HI HR HT Hex; cbn in Hex.
  - by injection Hex as <-.
  - destruct (step cfg e s0) as [s1|] eqn:Hs; [|done]. cbn in Hex.
    eapply IH; [..|exact Hex];
      [by eapply step_Inv | by eapply step_records_ok
      | by eapply step_times_ok].
Qed.

Lemma job_failed_request msg j : same_request j (job_failed cfg msg j).1.
Proof.
  unfold job_failed. jproj.
  by destruct (Job.retry_count j <? max_retries cfg)%Z.
Qed.

Lemma job_wait_request now p st j :
  same_request j (job_wait cfg now p st j).1.
Proof.
  unfold job_wait. destruct (Qltb (now - st) max_wait); [done|].
  apply job_failed_request.
Qed.

Lemma job_piece_request tpl now a r j j' n :
  job_piece cfg tpl now a r j = Some (j', n) → same_request j j'.
Proof.
  intros H.
  destruct a as [| |wf|pid st|pid st|pid|], r as [|u|q|code entry|v|msg];
    cbn in H; try done;
    try (by injection H as <- <-);
    try (injection H as H; apply pair_fst_snd in H as [<- _];
         first [apply job_failed_request | apply job_wait_request]).
  - destruct (_generate_workflow tpl now u (Job.config j));
      [|by injection H as <- <-].
    injection H as H. apply pair_fst_snd in H as [<- _].
    apply (job_failed_request s (Job.set_progress 30 j)).
  - injection H as H. apply pair_fst_snd in H as [<- _].
    apply (job_wait_request now q now
             (Job.set_progress 50 (Job.set_comfy_prompt_id (Some q) j))).
  - by destruct (history_completed pid code entry); injection H as <- <-.
Qed.

Lemma step_same_request e s s' k0 j0 :
  step cfg e s = Some s' → jobs s !! k0 = Some j0 →
  ∃ j1, jobs s' !! k0 = Some j1 ∧ same_request j0 j1.
Proof.
  intros Hstep Hk. by_step_cases cfg Hstep;
    try (exists j0; by rewrite Hjobs).
  - exists j0. rewrite Hjobs, lookup_insert_ne by congruence. done.
  - destruct (decide (k0 = key)) as [->|Hne].
    + exists j'. rewrite Hjobs, lookup_insert_eq. split; [done|].
      assert (j = j0) as -> by congruence. by eapply job_piece_request.
    + exists j0. by rewrite Hjobs, lookup_insert_ne.
  - destruct (decide (k0 = key)) as [->|Hne].
    + exists (Job.set_status CANCELLED j). rewrite Hjobs, lookup_insert_eq.
      split; [done|]. assert (j = j0) as -> by congruence. done.
    + exists j0. by rewrite Hjobs, lookup_insert_ne.
Qed.

(** X1.  In every reachable state the progress of every job lies between
    0 and 100 (the wall clock never running backwards). *)
Theorem progress_between_0_and_100 s key j :
  reachable cfg s → jobs s !! key = Some j →
  (0 <= Job.progress j)%Q ∧ (Job.progress j <= 100)%Q.
Proof.
  intros Hr Hj. destruct (reachable_records_ok cfg s Hr) as [_ Hjobs].
  destruct (Hjobs key j Hj) as (? & ? & _). done.
Qed.

(** X2.  In every reachable state a job is Completed exactly when its
    completed_at is set, and a Completed job has progress 100 and carries
    its started_at, its backend prompt identifier and its result path. *)
Theorem completed_job_is_fully_recorded s key j :
  reachable cfg s → jobs s !! key = Some j →
  (Job.status j = COMPLETED ↔ is_Some (Job.completed_at j)) ∧
  (Job.status j = COMPLETED →
   Job.progress j = 100%Q ∧ is_Some (Job.started_at j) ∧
   is_Some (Job.comfy_prompt_id j) ∧ is_Some (Job.result_path j)).
Proof.
  intros Hr Hj. destruct (reachable_records_ok cfg s Hr) as [_ Hjobs].
  destruct (Hjobs key j Hj) as (_ & _ & Hdone & Hat & _).
  destruct (inv_jobs _ _ _ _ (reachable_Inv cfg s Hr) key j Hj) as [_ Hres].
  split; [split; [by intros H; apply Hdone in H as (_ & ? & _) | done]|].
  intros Hc. destruct (Hdone Hc) as (? & ? & ? & ?).
  repeat (split; [done|]). by apply Hres.
Qed.

(** X3.  In every reachable state the time stamps of a job are in order:
    created_at is not after started_at, started_at is not after
    completed_at, and none of them is after the clock. *)
Theorem time_stamps_in_order s key j :
  reachable cfg s → jobs s !! key = Some j →
  (Job.created_at j <= clock s)%Q ∧
  (∀ t, Job.started_at j = Some t →
     (Job.created_at j <= t)%Q ∧ (t <= clock s)%Q) ∧
  (∀ t t', Job.started_at j = Some t → Job.completed_at j = Some t' →
     (t <= t')%Q ∧ (t' <= clock s)%Q).
Proof.
  intros Hr Hj. exact (reachable_times_ok s Hr key j Hj).
Qed.

(** X4.  No run of the server removes a job from [jobs] or changes what
    identifies the request: id, filename, original_filename, filepath,
    config and created_at stay as create_job wrote them. *)
Theorem request_fields_never_change es s s' key j :
  exec cfg es s = Some s' → jobs s !! key = Some j →
  ∃ j', jobs s' !! key = Some j' ∧
    Job.id j' = Job.id j ∧ Job.filename j' = Job.filename j ∧
    Job.original_filename j' = Job.original_filename j ∧
    Job.filepath j' = Job.filepath j ∧ Job.config j' = Job.config j ∧
    Job.created_at j' = Job.created_at j.
Proof.
  revert s j. induction es as [|e es IH]; intros s j; cbn.
  - intros [= <-] Hj. by exists j.
  - destruct (step cfg e s) as [s1|] eqn:Hs; [|done]. cbn. intros Hex Hj.
    destruct (step_same_request e s s1 key j Hs Hj)
      as (j1 & Hj1 & E1 & E2 & E3 & E4 & E5 & E6).
    destruct (IH s1 j1 Hex Hj1) as (j' & Hj' & F1 & F2 & F3 & F4 & F5 & F6).
    exists j'. split; [done|].
    by rewrite F1, F2, F3, F4, F5, F6.
Qed.

End Lifecycle.

(** ** The worker pool and the queue *)

Section Pool.
Variable cfg : Config.

Lemma flagged_length key s s' :
  flagged key s s' → length (workers s') = length (workers s).
Proof.
  intros [->|(h & k & a & c & _ & _ & ->)]; [done|]. by rewrite length_insert.
Qed.

Lemma step_workers_length e s s' :
  step cfg e s = Some s' → length (workers s') = length (workers s).
Proof.
  intros Hstep. by_step_cases cfg Hstep;
    try (by rewrite Hworkers, ?length_insert);
    try (by eapply flagged_length).
  - destruct Hget as [(_ & -> & _)|(_ & -> & _)]; by rewrite ?length_insert.
  - destruct Hcancel as [(_ & -> & _)|(_ & _ & Hf)];
      [done | by eapply flagged_length].
Qed.

Lemma reachable_workers_length s :
  reachable cfg s →
  length (workers s) = Z.to_nat (max_concurrent_jobs cfg).
Proof.
  intros (t0 & tpl & up & out & es & Hes).
  assert (length (workers (init_server cfg t0 tpl up out))
          = Z.to_nat (max_concurrent_jobs cfg)) as H0
    by (unfold init_server; sproj; apply length_replicate).
  revert H0 Hes. generalize (init_server cfg t0 tpl up out).
  induction es as [|e es IH]; intros s0 H0 Hex; cbn in Hex.
  - by injection Hex as <-.
  - destruct (step cfg e s0) as [s1|] eqn:Hs; [|done]. cbn in Hex.
    eapply IH; [|exact Hex]. by rewrite (step_workers_length _ _ _ Hs).
Qed.

Lemma NoDup_omap_lookup {A B} (f : A → option B) (l : list A) :
  (∀ i j a b x, l !! i = Some a → l !! j = Some b →
     f a = Some x → f b = Some x → i = j) →
  NoDup (omap f l).
Proof.
  induction l as [|a l IH]; intros H; cbn; [apply NoDup_nil_2|].
  assert (NoDup (omap f l)) as Hl.
  { apply IH. intros i j a' b x Hi Hj Ha Hb.
    assert (S i = S j) by (by eapply (H (S i) (S j))). lia. }
  destruct (f a) as [x|] eqn:Hfa; [|done].
  apply NoDup_cons. split; [|done].
  intros Hin. apply list_elem_of_omap in Hin as (b & Hb & Hfb).
  apply list_elem_of_lookup in Hb as [j Hj].
  assert (0 = S j) by (by eapply (H 0 (S j))). lia.
Qed.

Lemma length_omap_le {A B} (f : A → option B) (l : list A) :
  (length (omap f l) ≤ length l)%nat.
Proof. induction l as [|a l IH]; cbn; [lia|]. destruct (f a); cbn; lia. Qed.

Lemma elem_of_active_jobs s key :
  key ∈ active_jobs s ↔
  ∃ w a c, workers s !! w = Some (Busy key (Live a c)).
Proof.
  unfold active_jobs. rewrite list_elem_of_omap. split.
  - intros (v & Hv & Hl). apply list_elem_of_lookup in Hv as [w Hw].
    destruct v as [|k [a c|]|]; try done. cbn in Hl. injection Hl as ->.
    by exists w, a, c.
  - intros (w & a & c & Hw). exists (Busy key (Live a c)).
    split; [by eapply list_elem_of_lookup_2 | done].
Qed.

Lemma active_jobs_NoDup s : Inv s → NoDup (active_jobs s).
Proof.
  intros HI. apply NoDup_omap_lookup. intros i j a b x Hi Hj Ha Hb.
  destruct a as [|k [a1 c1|]|]; try done.
  destruct b as [|k2 [a2 c2|]|]; try done.
  cbn in Ha, Hb. injection Ha as ->. injection Hb as ->.
  by eapply (inv_uniq _ _ _ _ HI).
Qed.

Lemma handles_size s :
  handles_ok s → (size (processing_tasks s) ≤ length (workers s))%nat.
Proof.
  intros Hh.
  assert ((map_to_list (processing_tasks s)).*2
            ⊆+ seq 0 (length (workers s))) as Hsub; last first.
  { apply submseteq_length in Hsub.
    by rewrite length_fmap, length_map_to_list, length_seq in Hsub. }
  apply NoDup_submseteq.
  - apply NoDup_fmap_2_strong; [|apply NoDup_map_to_list].
    intros [k1 h1] [k2 h2] H1 H2 E. cbn in E. subst h2.
    apply elem_of_map_to_list in H1, H2.
    destruct (Hh _ _ H1) as [t1 E1]. destruct (Hh _ _ H2) as [t2 E2].
    congruence.
  - intros h Hin. apply list_elem_of_fmap in Hin as ([k h'] & -> & Hin).
    apply elem_of_map_to_list in Hin. destruct (Hh _ _ Hin) as [t Ht].
    apply elem_of_seq. apply lookup_lt_Some in Ht. cbn. lia.
Qed.

(** X5.  The pool has max_concurrent_jobs workers in every reachable
    state, so at most that many jobs are in the hands of tasks, and
    processing_tasks (the number /api/stats reports) never holds more
    entries than that. *)
Theorem worker_pool_bound s :
  reachable cfg s →
  length (workers s) = Z.to_nat (max_concurrent_jobs cfg) ∧
  (length (active_jobs s) ≤ Z.to_nat (max_concurrent_jobs cfg))%nat ∧
  (size (processing_tasks s) ≤ Z.to_nat (max_concurrent_jobs cfg))%nat.
Proof.
  intros Hr. pose proof (reachable_workers_length s Hr) as Hlen.
  split; [done|]. rewrite <- Hlen. split.
  - apply length_omap_le.
  - apply handles_size. by apply reachable_handles_ok with cfg.
Qed.

(** X6.  In every reachable state an identifier is held once at most: the
    queue and the tasks that have not finished hold pairwise different
    jobs, and each of them is a job the server knows. *)
Theorem no_job_is_held_twice s :
  reachable cfg s →
  NoDup (job_queue s ++ active_jobs s) ∧
  ∀ key, key ∈ (job_queue s ++ active_jobs s)%list → is_Some (jobs s !! key).
Proof.
  intros Hr. pose proof (reachable_Inv cfg s Hr) as HI. split.
  - apply NoDup_app. split; [apply (inv_nodup _ _ _ _ HI)|].
    split; [|by apply active_jobs_NoDup].
    intros key Hq Ha. apply elem_of_active_jobs in Ha as (w & a & c & Hw).
    by destruct (inv_live _ _ _ _ HI w key a c Hw) as [Hn _].
  - intros key Hk. apply elem_of_app in Hk as [Hq|Ha].
    + destruct (inv_queue _ _ _ _ HI key Hq) as (j & -> & _). by eexists.
    + apply elem_of_active_jobs in Ha as (w & a & c & Hw).
      destruct (inv_live _ _ _ _ HI w key a c Hw) as (_ & j & -> & _).
      by eexists.
Qed.


End Pool.

Section QueueOrder.
Variable cfg : Config.

Lemma step_enqueued e s s' :
  step cfg e s = Some s' →
  (∃ w k, e = WorkerGet w ∧ job_queue s = k :: job_queue s' ∧
          enqueued_by e s = []) ∨
  (dequeues [e] = 0 ∧
   job_queue s' = (job_queue s ++ enqueued_by e s)%list).
Proof.
  intros Hstep. by_step_cases cfg Hstep.
  - right. rewrite Hqueue.
    destruct e; try done; cbn; by rewrite app_nil_r.
  - right. destruct Hcreate as (name & wc & ->). by rewrite Hqueue.
  - left. subst e. by exists w, key.
  - right. subst e. split; [done|]. rewrite Hqueue. cbn [enqueued_by].
    rewrite Hworker. destruct r, a; by rewrite app_nil_r.
  - right. subst e. split; [done|]. rewrite Hqueue. cbn [enqueued_by].
    rewrite Hworker.
    destruct a, r; cbn in Hpiece; try done; try (by rewrite app_nil_r).
    rewrite Hjob. unfold queue_job.
    destruct (jobs s !! Job.id j); [done | by rewrite app_nil_r].
  - right. subst e. split; [done|]. rewrite Hqueue. cbn.
    by rewrite app_nil_r.
  - right. subst e. split; [done|]. rewrite Hqueue. cbn.
    by rewrite app_nil_r.
  - right. subst e. split; [done|]. rewrite Hqueue. cbn.
    by rewrite app_nil_r.
Qed.

(** X7.  The job queue is first-in first-out: after any run it is the
    old queue followed by the identifiers the run has put, each by the
    create_job call or the retry that put it and in the order of these
    events, less one identifier taken from the front for each
    job_queue.get() that returned. *)
Theorem job_queue_is_first_in_first_out es s s' :
  exec cfg es s = Some s' →
  (dequeues es ≤ length (job_queue s ++ enqueued cfg es s))%nat ∧
  job_queue s' = drop (dequeues es) (job_queue s ++ enqueued cfg es s).
Proof.
  revert s. induction es as [|e es IH]; intros s; cbn [exec enqueued].
  - intros [= <-]. cbn. rewrite app_nil_r. split; [lia | done].
  - destruct (step cfg e s) as [s1|] eqn:Hs; [|done].
    cbn [mbind option_bind]. intros Hex.
    destruct (IH s1 Hex) as (Hle & Hq').
    destruct (step_enqueued e s s1 Hs) as [(w & k & -> & Hq & Hnil)|[He Hq]].
    + rewrite Hnil, Hq. cbn. split; [lia | done].
    + assert (dequeues (e :: es) = dequeues es) as ->
        by (destruct e; done).
      rewrite Hq, <- app_assoc in *. done.
Qed.

End QueueOrder.

(** ** The life of a worker *)

Section Workers.
Variable cfg : Config.

Lemma job_failed_finish msg j res :
  (job_failed cfg msg j).2 = Finish res → res = Returned.
Proof.
  unfold job_failed. jproj.
  destruct (Job.retry_count j <? max_retries cfg)%Z; cbn; congruence.
Qed.

Lemma job_wait_finish now p st j res :
  (job_wait cfg now p st j).2 = Finish res → res = Returned.
Proof.
  unfold job_wait. destruct (Qltb (now - st) max_wait); [done|].
  apply job_failed_finish.
Qed.

Lemma job_piece_finish tpl now a r j j' res :
  job_piece cfg tpl now a r j = Some (j', Finish res) → res = Returned.
Proof.
  intros H.
  destruct a as [| |wf|pid st|pid st|pid|], r as [|u|q|code entry|v|msg];
    cbn in H; try done;
    try (injection H as H; apply pair_fst_snd in H as [_ H];
         first [by eapply job_failed_finish | by eapply job_wait_finish]);
    try congruence.
  - destruct (_generate_workflow tpl now u (Job.config j)); [|done].
    injection H as H. apply pair_fst_snd in H as [_ H].
    by eapply job_failed_finish.
  - by destruct (history_completed pid code entry).
Qed.

Lemma flagged_lookup key s s' w0 :
  flagged key s s' →
  workers s' !! w0 = workers s !! w0 ∨
  ∃ k a c, processing_tasks s !! key = Some w0 ∧
    workers s !! w0 = Some (Busy k (Live a c)) ∧
    workers s' !! w0 = Some (Busy k (Live a true)).
Proof.
  intros [->|(h & k & a & c & Hp & Hh & ->)]; [by left|].
  destruct (decide (w0 = h)) as [->|Hne].
  - right. exists k, a, c. repeat (split; [done|]).
    by rewrite list_lookup_insert_eq by (by eapply lookup_lt_Some).
  - left. by rewrite list_lookup_insert_ne.
Qed.

Lemma insert_lookup_cases (ws : list Worker) w v w0 :
  is_Some (ws !! w) →
  (w0 = w ∧ <[w := v]> ws !! w0 = Some v) ∨
  (w0 ≠ w ∧ <[w := v]> ws !! w0 = ws !! w0).
Proof.
  intros [x Hx]. destruct (decide (w0 = w)) as [->|Hne].
  - left. split; [done|].
    by rewrite list_lookup_insert_eq by (by eapply lookup_lt_Some).
  - right. split; [done|]. by rewrite list_lookup_insert_ne.
Qed.

(** What one step of the server does to worker [w0]. *)
Lemma step_worker e s s' w0 :
  step cfg e s = Some s' →
  workers s' !! w0 = workers s !! w0
  ∨ (∃ key, e = WorkerGet w0 ∧ workers s !! w0 = Some Idle ∧
       job_queue s = key :: job_queue s' ∧
       workers s' !! w0 = Some (Busy key (Live AtStart false)))
  ∨ (∃ r key a, e = TaskResume w0 r ∧
       workers s !! w0 = Some (Busy key (Live a true)) ∧
       workers s' !! w0 = Some (Busy key (Done WasCancelled)))
  ∨ (∃ r key a n, e = TaskResume w0 r ∧
       workers s !! w0 = Some (Busy key (Live a false)) ∧
       workers s' !! w0 = Some (Busy key (task_of_next n)) ∧
       ∀ res, n = Finish res → res = Returned)
  ∨ (∃ key res, e = WorkerWake w0 ∧
       workers s !! w0 = Some (Busy key (Done res)) ∧
       workers s' !! w0 = Some (after_task res))
  ∨ (∃ key k a c, (e = CancelJob key ∨ e = CancelResume key) ∧
       processing_tasks s !! key = Some w0 ∧
       workers s !! w0 = Some (Busy k (Live a c)) ∧
       workers s' !! w0 = Some (Busy k (Live a true))).
Proof.
  intros Hstep. by_step_cases cfg Hstep.
  - left. by rewrite Hworkers.
  - left. by rewrite Hworkers.
  - destruct Hget as [(_ & -> & _)|(_ & -> & _)]; [by left|].
    destruct (insert_lookup_cases (workers s) w
                (Busy key (Live AtStart false)) w0) as [[-> E]|[_ E]];
      [by eauto | | by left].
    right; left. exists key. by rewrite He.
  - rewrite Hworkers.
    destruct (insert_lookup_cases (workers s) w
                (Busy key (Done WasCancelled)) w0) as [[-> E]|[_ E]];
      [by eauto | | by left].
    do 2 right; left. exists r, key, a. by rewrite He.
  - rewrite Hworkers.
    destruct (insert_lookup_cases (workers s) w
                (Busy key (task_of_next n)) w0) as [[-> E]|[_ E]];
      [by eauto | | by left].
    do 3 right; left. exists r, key, a, n. rewrite He.
    repeat (split; [done|]). intros res ->. by eapply job_piece_finish.
  - rewrite Hworkers.
    destruct (insert_lookup_cases (workers s) w (after_task res) w0)
      as [[-> E]|[_ E]]; [by eauto | | by left].
    do 4 right; left. exists key, res. by rewrite He.
  - destruct Hcancel as [(_ & -> & _)|(_ & _ & Hflag)]; [by left|].
    destruct (flagged_lookup _ _ _ w0 Hflag) as [?|(k & a & c & ? & ? & ?)];
      [by left|].
    do 5 right. exists key, k, a, c. by eauto.
  - destruct (flagged_lookup _ _ _ w0 Hflag) as [?|(k & a & c & ? & ? & ?)];
      [by left|].
    do 5 right. exists key, k, a, c. by eauto.
Qed.

Lemma step_stopped e s s' w0 :
  step cfg e s = Some s' → workers s !! w0 = Some Stopped →
  workers s' !! w0 = Some Stopped.
Proof.
  intros Hstep Hw.
  destruct (step_worker e s s' w0 Hstep)
    as [E|[(k & _ & E & _)|[(r & k & a & _ & E & _)
       |[(r & k & a & n & _ & E & _)|[(k & res & _ & E & _)
       |(k0 & k & a & c & _ & _ & E & _)]]]]]; congruence.
Qed.

(** X8.  A worker that has left its loop never comes back, and one step
    makes a worker leave its loop in one way only: its task, cancelled
    while it had not finished, ended and the worker woke up from
    [await task]. *)
Theorem worker_stops_for_good es e s s1 s' w :
  step cfg e s = Some s1 → exec cfg es s1 = Some s' →
  workers s1 !! w = Some Stopped →
  workers s' !! w = Some Stopped ∧
  (workers s !! w = Some Stopped ∨
   ∃ key, e = WorkerWake w ∧
     workers s !! w = Some (Busy key (Done WasCancelled))).
Proof.
  intros Hstep Hex Hw. split.
  - clear Hstep. revert s1 Hex Hw.
    induction es as [|e' es IH]; intros s1 Hex Hw; cbn in Hex.
    + by injection Hex as <-.
    + destruct (step cfg e' s1) as [s2|] eqn:Hs; [|done]. cbn in Hex.
      eapply IH; [exact Hex|]. by eapply step_stopped.
  - destruct (step_worker e s s1 w Hstep)
      as [E|[(k & _ & _ & _ & E)|[(r & k & a & _ & _ & E)
         |[(r & k & a & n & _ & _ & E & _)|[(k & res & He & Hb & E)
         |(k0 & k & a & c & _ & _ & _ & E)]]]]]; try congruence.
    + left. congruence.
    + right. exists k. split; [done|].
      rewrite Hw in E. by destruct res.
Qed.

Lemma step_in_loop e s s' :
  is_cancel e = false →
  (∀ w v, workers s !! w = Some v → in_loop v) →
  step cfg e s = Some s' →
  ∀ w v, workers s' !! w = Some v → in_loop v.
Proof.
  intros Hnc Hall Hstep w0 v Hv.
  destruct (step_worker e s s' w0 Hstep)
    as [E|[(k & _ & _ & _ & E)|[(r & k & a & _ & Hb & E)
       |[(r & k & a & n & _ & _ & E & Hn)|[(k & res & He & Hb & E)
       |(k0 & k & a & c & [->| ->] & _)]]]]]; try done.
  - apply (Hall w0). congruence.
  - rewrite Hv in E. by injection E as ->.
  - by apply Hall in Hb.
  - rewrite Hv in E. injection E as ->.
    destruct n as [a'|res]; cbn; [done | by apply Hn].
  - rewrite Hv in E. injection E as ->. apply Hall in Hb. cbn in Hb.
    by subst res.
Qed.

(** X9.  As long as no job is cancelled every worker stays in its loop,
    whatever the backend answers or raises: no task is cancelled and no
    task ends otherwise than by returning. *)
Theorem workers_survive_without_cancellation es s s' :
  (∀ w v, workers s !! w = Some v → in_loop v) →
  Forall (λ e, is_cancel e = false) es →
  exec cfg es s = Some s' →
  ∀ w v, workers s' !! w = Some v → in_loop v.
Proof.
  revert s. induction es as [|e es IH]; intros s Hall Hnc; cbn.
  - by intros [= <-].
  - destruct (step cfg e s) as [s1|] eqn:Hs; [|done]. cbn.
    apply Forall_cons in Hnc as [He Hnc].
    apply IH; [|done]. by eapply step_in_loop.
Qed.

Lemma elem_of_remove_first x y l : x ∈ remove_first y l → x ∈ l.
Proof.
  induction l as [|z l IH]; cbn; [done|].
  destruct (String.eqb y z).
  - intros H. by apply elem_of_cons; right.
  - intros H. apply elem_of_cons in H as [->|H].
    + by apply elem_of_cons; left.
    + apply elem_of_cons; right. by apply IH.
Qed.

Lemma job_failed_status msg j : Job.status (job_failed cfg msg j).1 = FAILED.
Proof.
  unfold job_failed. jproj.
  by destruct (Job.retry_count j <? max_retries cfg)%Z.
Qed.

Lemma job_piece_not_pending tpl now a r j j' n :
  job_piece cfg tpl now a r j = Some (j', n) → at_ok now a j →
  Job.status j' ≠ PENDING.
Proof.
  intros H Hok.
  assert (∀ x p st, active_status (Job.status x) →
            Job.status (job_wait cfg now p st x).1 ≠ PENDING) as Hwait.
  { intros x p st Hx. unfold job_wait.
    destruct (Qltb (now - st) max_wait); cbn [fst];
      [by apply active_not_pending | by rewrite job_failed_status]. }
  destruct a as [| |wf|pid st|pid st|pid|], r as [|u|q|code entry|v|msg];
    cbn in H; try done; cbn in Hok;
    try (injection H as H; apply pair_fst_snd in H as [<- _];
         first [by rewrite job_failed_status
               | by apply Hwait; destruct Hok]);
    try (by injection H as <- <-).
  - destruct (_generate_workflow tpl now u (Job.config j));
      [|by injection H as <- <-].
    injection H as H. apply pair_fst_snd in H as [<- _].
    by rewrite job_failed_status.
  - destruct Hok as [Hok _]. apply active_not_pending in Hok.
    by destruct (history_completed pid code entry); injection H as <- <-.
  - injection H as <- <-. by rewrite Hok.
Qed.

Lemma step_pending_held e s s' :
  Inv s → handles_ok s → pending_held s → step cfg e s = Some s' →
  pending_held s'.
Proof.
  intros HI Hh [Hpend Hcanc] Hstep.
  assert (∀ key s1 k1 w1,
            flagged key s s1 → k1 ≠ key →
            workers s !! w1 = Some (Busy k1 (Live AtStart false)) →
            workers s1 !! w1 = Some (Busy k1 (Live AtStart false))) as Hfl.
  { intros key s1 k1 w1 Hf Hne Hw1.
    destruct (flagged_lookup _ _ _ w1 Hf) as [->|(k & a & c & Hp & Hw & _)];
      [done|].
    destruct (Hh _ _ Hp) as [t' E]. congruence. }
  by_step_cases cfg Hstep.
  - split.
    + intros k0 j0. rewrite Hjobs, Hqueue, Hworkers. apply Hpend.
    + intros k0. rewrite Hcancelling, Hjobs. apply Hcanc.
  - split.
    + intros k0 j0. rewrite Hjobs, Hqueue, Hworkers.
      destruct (decide (k0 = job_id)) as [->|Hne].
      * intros _ _. left. apply elem_of_app. right. by apply list_elem_of_singleton.
      * rewrite lookup_insert_ne by done. intros H1 H2.
        destruct (Hpend _ _ H1 H2) as [?|?]; [left | by right].
        apply elem_of_app. by left.
    + intros k0. rewrite Hcancelling, Hjobs. intros Hin.
      destruct (Hcanc _ Hin) as (j0 & Hj0 & Hst).
      exists j0. rewrite lookup_insert_ne by congruence. done.
  - split; [|intros k0; rewrite Hcancelling, Hjobs; apply Hcanc].
    intros k0 j0. rewrite Hjobs. intros H1 H2.
    destruct (Hpend _ _ H1 H2) as [Hq|[w1 Hw1]].
    + rewrite Hqueue in Hq. apply elem_of_cons in Hq as [->|Hq]; [|by left].
      destruct Hget as [(Hn & _)|(_ & -> & _)]; [congruence|].
      right. exists w.
      by rewrite list_lookup_insert_eq by (by eapply lookup_lt_Some).
    + right. exists w1.
      destruct Hget as [(_ & -> & _)|(_ & -> & _)]; [done|].
      rewrite list_lookup_insert_ne by congruence. done.
  - split; [|intros k0; rewrite Hcancelling, Hjobs; apply Hcanc].
    intros k0 j0. rewrite Hjobs, Hqueue. intros H1 H2.
    destruct (Hpend _ _ H1 H2) as [Hq|[w1 Hw1]]; [by left|].
    right. exists w1. rewrite Hworkers.
    rewrite list_lookup_insert_ne by congruence. done.
  - destruct (inv_live _ _ _ _ HI w key a false Hworker)
      as (_ & jk & Hjk' & Hat).
    assert (jk = j) as -> by congruence.
    pose proof (job_piece_not_pending _ _ _ _ _ _ _ Hpiece Hat) as Hnp.
    split.
    + intros k0 j0. rewrite Hjobs.
      destruct (decide (k0 = key)) as [->|Hne].
      * rewrite lookup_insert_eq. by intros [= <-].
      * rewrite lookup_insert_ne by done. intros H1 H2.
        destruct (Hpend _ _ H1 H2) as [Hq|[w1 Hw1]].
        -- left. rewrite Hqueue. destruct a; try done. unfold queue_job.
           destruct (jobs s !! Job.id j); [|done]. sproj.
           apply elem_of_app. by left.
        -- right. exists w1. rewrite Hworkers.
           rewrite list_lookup_insert_ne by congruence. done.
    + intros k0. rewrite Hcancelling, Hjobs. intros Hin.
      destruct (Hcanc _ Hin) as (j0 & Hj0 & Hst).
      destruct (decide (k0 = key)) as [->|Hne].
      * exists j'. by rewrite lookup_insert_eq.
      * exists j0. by rewrite lookup_insert_ne.
  - split; [|intros k0; rewrite Hcancelling, Hjobs; apply Hcanc].
    intros k0 j0. rewrite Hjobs, Hqueue. intros H1 H2.
    destruct (Hpend _ _ H1 H2) as [Hq|[w1 Hw1]]; [by left|].
    right. exists w1. rewrite Hworkers.
    rewrite list_lookup_insert_ne by congruence. done.
  - split.
    + intros k0 j0. rewrite Hjobs, Hqueue.
      destruct (decide (k0 = key)) as [->|Hne].
      * rewrite lookup_insert_eq. by intros [= <-].
      * rewrite lookup_insert_ne by done. intros H1 H2.
        destruct (Hpend _ _ H1 H2) as [Hq|[w1 Hw1]]; [by left|].
        right. exists w1.
        destruct Hcancel as [(_ & -> & _)|(_ & _ & Hf)]; [done|].
        by eapply Hfl.
    + intros k0 Hin.
      destruct (decide (k0 = key)) as [->|Hne].
      * exists (Job.set_status CANCELLED j). by rewrite Hjobs, lookup_insert_eq.
      * rewrite Hjobs, lookup_insert_ne by done. apply Hcanc.
        destruct Hcancel as [(_ & _ & E)|(_ & E & _)]; rewrite E in Hin;
          [|done].
        apply elem_of_app in Hin as [?|Hin]; [done|].
        by apply list_elem_of_singleton in Hin.
  - destruct (Hcanc _ Hin) as (jc & Hjc & Hstc).
    split.
    + intros k0 j0. rewrite Hjobs, Hqueue. intros H1 H2.
      destruct (Hpend _ _ H1 H2) as [Hq|[w1 Hw1]]; [by left|].
      right. exists w1. eapply Hfl; [done| |done]. congruence.
    + intros k0. rewrite Hcancelling, Hjobs. intros Hin'.
      apply Hcanc. by eapply elem_of_remove_first.
Qed.

Lemma reachable_pending_held s : reachable cfg s → pending_held s.
Proof.
  intros Hr. pose proof Hr as (t0 & tpl & up & out & es & Hes).
  assert (pending_held (init_server cfg t0 tpl up out)) as H0.
  { split.
    - intros key j. unfold init_server. sproj. by rewrite lookup_empty.
    - intros key. unfold init_server. sproj. intros H.
      by apply elem_of_nil in H. }
  assert (reachable cfg (init_server cfg t0 tpl up out)) as R0
    by (by exists t0, tpl, up, out, []).
  clear Hr. revert H0 R0 Hes. generalize (init_server cfg t0 tpl up out).
  induction es as [|e es IH]; intros s0 H0 R0 Hex; cbn in Hex.
  - by injection Hex as <-.
  - destruct (step cfg e s0) as [s1|] eqn:Hs; [|done]. cbn in Hex.
    eapply IH; [| |exact Hex].
    + eapply step_pending_held; [..|exact Hs]; try done.
      * by apply reachable_Inv with cfg.
      * by apply reachable_handles_ok with cfg.
    + destruct R0 as (t1 & tpl1 & up1 & out1 & es1 & Hes1).
      exists t1, tpl1, up1, out1, (es1 ++ [e])%list.
      clear -Hes1 Hs. revert Hes1. generalize (init_server cfg t1 tpl1 up1 out1).
      induction es1 as [|e1 es1 IH1]; intros s2; cbn.
      * intros [= ->]. by rewrite Hs.
      * destruct (step cfg e1 s2) as [s3|]; [|done]. cbn. apply IH1.
Qed.

(** X10.  A Pending job is never lost and never altered: in every
    reachable state it waits in the queue or is in the hands of a task
    that has not started to run, and its record is still as create_job
    wrote it (progress 0, no time stamp but created_at, no error, no
    retry). *)
Theorem pending_job_is_held_untouched s key j :
  reachable cfg s → jobs s !! key = Some j → Job.status j = PENDING →
  (key ∈ job_queue s ∨
   ∃ w, workers s !! w = Some (Busy key (Live AtStart false))) ∧
  Job.progress j = 0%Q ∧ Job.started_at j = None ∧
  Job.completed_at j = None ∧ Job.comfy_prompt_id j = None ∧
  Job.result_path j = None ∧ Job.error_message j = None ∧
  Job.retry_count j = 0%Z.
Proof.
  intros Hr Hj Hst. split.
  - destruct (reachable_pending_held s Hr) as [Hp _]. by eapply Hp.
  - destruct (reachable_records_ok cfg s Hr) as [_ Hrec].
    destruct (Hrec key j Hj) as (_ & _ & _ & _ & Hun). by apply Hun.
Qed.

End Workers.

(** ** Single operations *)

Section Single.
Variable cfg : Config.

(** A task that is not cancelled runs its next piece as [job_piece]
    says. *)
Lemma task_resume_piece w key a r s j j' n :
  workers s !! w = Some (Busy key (Live a false)) →
  jobs s !! key = Some j →
  job_piece cfg (template s) (clock s) a r j = Some (j', n) →
  ∃ s', step cfg (TaskResume w r) s = Some s' ∧
    jobs s' = <[key := j']> (jobs s) ∧
    workers s' = <[w := Busy key (task_of_next n)]> (workers s) ∧
    clock s' = clock s ∧ processing_tasks s' = processing_tasks s ∧
    job_queue s' =
      job_queue (match a with
                 | AtRetrySleep => queue_job (Job.id j) s
                 | _ => s
                 end).
Proof.
  intros Hw Hj Hp.
  pose proof (process_job_piece cfg key a r s j Hj) as H. rewrite Hp in H.
  destruct H as (s1 & Hs1 & Hjobs & Hws & Hc & _ & _ & Hpt & _).
  pose proof Hs1 as Hspec.
  apply process_job_spec in Hspec
    as (j0 & j1 & Hj0 & _ & _ & _ & _ & _ & _ & _ & Hq & _).
  assert (j0 = j) as -> by congruence.
  exists (set_worker w (Busy key (task_of_next n)) s1).
  cbn [step]. unfold task_resume. rewrite Hw, Hs1. cbn [mbind option_bind].
  split; [by destruct n|]. sproj. by rewrite Hws.
Qed.

Lemma Qltb_ge a b : Qltb a b = false → (b <= a)%Q.
Proof.
  unfold Qltb. intros H. apply negb_false_iff in H.
  by apply Qle_bool_iff.
Qed.

Lemma Qltb_true a b : (a < b)%Q → Qltb a b = true.
Proof.
  intros H. destruct (Qltb a b) eqn:E; [done|].
  apply Qltb_ge in E. lra.
Qed.

Lemma Qltb_false a b : (b <= a)%Q → Qltb a b = false.
Proof.
  intros H. destruct (Qltb a b) eqn:E; [|done].
  apply Qltb_lt in E. lra.
Qed.


(** X12.  cancel_job(job_id) concerns one job and one task.  In a
    reachable state both of its parts, the one up to the DELETE request
    and the one after it, leave every other job, the queue (a cancelled
    job that is queued stays queued), processing_tasks and the clock as
    they are, and the only thing they do to a worker is to request the
    cancellation of a task that has not finished and that works on this
    very job. *)
Theorem cancel_job_concerns_one_job s key s' :
  reachable cfg s →
  s' = (cancel_job key s).1 ∨ s' = (cancel_job_resume key s).1 →
  (∀ k, k ≠ key → jobs s' !! k = jobs s !! k) ∧
  job_queue s' = job_queue s ∧
  processing_tasks s' = processing_tasks s ∧
  clock s' = clock s ∧
  ∀ w, workers s' !! w = workers s !! w ∨
       ∃ a c, workers s !! w = Some (Busy key (Live a c)) ∧
              workers s' !! w = Some (Busy key (Live a true)).
Proof.
  intros Hr Hs'.
  pose proof (reachable_handles_ok cfg s Hr) as Hh.
  assert ((∀ k, k ≠ key → jobs s' !! k = jobs s !! k) ∧
          job_queue s' = job_queue s ∧
          processing_tasks s' = processing_tasks s ∧
          clock s' = clock s ∧ flagged key s s')
    as (Hj & Hq & Hp & Hc & Hw).
  { destruct Hs' as [-> | ->].
    - destruct (cancel_job_spec key s) as (Hq & Hc & Hp & Hw).
      cbn zeta in *. split; [|done].
      intros k Hk. rewrite cancel_job_jobs.
      destruct (jobs s !! key) as [j|]; [|done].
      destruct (cancellable (Job.status j)); [|done]. cbn [andb].
      by rewrite bool_decide_eq_false_2.
    - unfold cancel_job_resume. cbn [fst].
      destruct (cancel_processing_task_spec key s)
        as (Hj & Hq & Hc & Hp & _ & Hw).
      cbn zeta in *. split; [by intros k _; rewrite Hj | done]. }
  repeat (split; [done|]). intros w.
  destruct (flagged_lookup key s s' w Hw)
    as [?|(k & a & c & Hpt & Hwk & Hwk')]; [by left|].
  right. destruct (Hh _ _ Hpt) as [t Ht].
  assert (k = key) as -> by congruence. by exists a, c.
Qed.

End Single.

Section Waiting.
Variable cfg : Config.

(** X11.  The wait for the backend is bounded by max_wait = 300 seconds,
    and the bound is tested only when the task wakes up from the sleep
    between two polls: it polls again if less than 300 seconds have
    passed since the workflow was queued, and otherwise the attempt fails
    with the time-out message, the progress staying where the last poll
    left it.  The answer to a poll is read whatever the clock says: one
    that says completed sends the task on to the download with progress
    80, however late it arrives, and any other answer sends it to sleep
    with a progress between 50 and 80. *)
Theorem wait_for_completion_times_out w key prompt_id start_time j s :
  jobs s !! key = Some j →
  (workers s !! w = Some (Busy key (Live (AtPollSleep prompt_id start_time)
                                         false)) →
   ∃ s' j', step cfg (TaskResume w Go) s = Some s' ∧
     jobs s' !! key = Some j' ∧ Job.progress j' = Job.progress j ∧
     ((clock s - start_time < max_wait)%Q →
        j' = j ∧
        workers s' !! w
          = Some (Busy key (Live (AtPoll prompt_id start_time) false))) ∧
     ((max_wait <= clock s - start_time)%Q →
        Job.status j' = FAILED ∧
        Job.error_message j'
          = Some ("ComfyUI execution timeout for prompt " ++ prompt_id) ∧
        Job.result_path j' = Job.result_path j ∧
        ∀ a c, workers s' !! w ≠ Some (Busy key (Live (AtPoll a c) false)))) ∧
  (workers s !! w = Some (Busy key (Live (AtPoll prompt_id start_time)
                                         false)) →
   ∀ code entry,
   ∃ s' j', step cfg (TaskResume w (History code entry)) s = Some s' ∧
     jobs s' !! key = Some j' ∧ clock s' = clock s ∧
     if history_completed prompt_id code entry then
       j' = Job.set_progress 80 j ∧
       workers s' !! w
         = Some (Busy key (Live (AtDownload prompt_id) false))
     else
       j' = Job.set_progress
              (50 + Qmin 30 ((clock s - start_time) / max_wait * 30)) j ∧
       workers s' !! w
         = Some (Busy key (Live (AtPollSleep prompt_id start_time) false))) ∧
  history_completed prompt_id 200 (Some (Some "completed")) = true.
Proof.
  intros Hj. split; [|split; [|done]].
  - intros Hw.
    destruct (task_resume_piece cfg w key (AtPollSleep prompt_id start_time)
                Go s j
                (job_wait cfg (clock s) prompt_id start_time j).1
                (job_wait cfg (clock s) prompt_id start_time j).2 Hw Hj)
      as (s' & Hstep & Hjobs & Hws & Hc & _);
      [by cbn; destruct (job_wait _ _ _ _ _)|].
    exists s', (job_wait cfg (clock s) prompt_id start_time j).1.
    split; [done|]. rewrite Hjobs, lookup_insert_eq. split; [done|].
    rewrite Hws, list_lookup_insert_eq by (by eapply lookup_lt_Some).
    unfold job_wait, job_failed. jproj. split; [|split].
    + destruct (Qltb (clock s - start_time) max_wait); [done|].
      by destruct (Job.retry_count j <? max_retries cfg)%Z.
    + intros Hlt. by rewrite (Qltb_true _ _ Hlt).
    + intros Hge. rewrite (Qltb_false _ _ Hge).
      destruct (Job.retry_count j <? max_retries cfg)%Z;
        cbn [fst snd task_of_next]; jproj; repeat (split; [done|]);
        intros a c; congruence.
  - intros Hw code entry.
    destruct (job_piece cfg (template s) (clock s)
                (AtPoll prompt_id start_time) (History code entry) j)
      as [[j1 n1]|] eqn:Hp;
      [|cbn in Hp; by destruct (history_completed prompt_id code entry)].
    destruct (task_resume_piece cfg w key (AtPoll prompt_id start_time)
                (History code entry) s j j1 n1 Hw Hj Hp)
      as (s' & Hstep & Hjobs & Hws & Hc & _).
    exists s', j1. split; [done|]. rewrite Hjobs, lookup_insert_eq.
    split; [done|]. split; [done|].
    rewrite Hws, list_lookup_insert_eq by (by eapply lookup_lt_Some).
    cbn in Hp.
    destruct (history_completed prompt_id code entry);
      by injection Hp as <- <-.
Qed.

End Waiting.

(** ** The error message of a job is that of its last failure *)

Section ErrorMessage.
Variable cfg : Config.

Lemma job_failed_error_message msg j0 :
  Job.error_message (job_failed cfg msg j0).1 = Some msg ∧
  Job.status (job_failed cfg msg j0).1 = FAILED.
Proof.
  unfold job_failed. jproj.
  by destruct (Job.retry_count j0 <? max_retries cfg)%Z.
Qed.

(** A piece of [_process_job] writes [error_message] exactly when it
    raises, and then it writes the text of the exception. *)
Lemma job_piece_error_message tpl now a0 r0 j0 j1 n0 :
  job_piece cfg tpl now a0 r0 j0 = Some (j1, n0) →
  Job.error_message j1
    = match failure_text tpl now a0 r0 j0 with
      | Some msg => Some msg
      | None => Job.error_message j0
      end ∧
  (is_Some (failure_text tpl now a0 r0 j0) → Job.status j1 = FAILED).
Proof.
  intros H.
  destruct a0 as [| |wf|pid st|pid st|pid|], r0 as [|u|q|code entry|v|msg];
    cbn in H; try done; cbn [failure_text];
    try (injection H as <- <-; split; [done | by intros [? [=]]]);
    try (injection H as H; apply pair_fst_snd in H as [<- _];
         split; [|intros _]; apply job_failed_error_message).
  - destruct (_generate_workflow tpl now u (Job.config j0)) as [err|wf].
    + injection H as H. apply pair_fst_snd in H as [<- _].
      split; [|intros _]; apply job_failed_error_message.
    + injection H as <- <-. split; [done | by intros [? [=]]].
  - injection H as H. apply pair_fst_snd in H as [<- _].
    unfold job_wait.
    assert (Qltb (now - now) max_wait = true) as ->
      by (apply Qltb_true; unfold max_wait; lra).
    split; [done | by intros [? [=]]].
  - destruct (history_completed pid code entry); injection H as <- <-;
      (split; [done | by intros [? [=]]]).
  - injection H as H. apply pair_fst_snd in H as [<- _].
    unfold job_wait. destruct (Qltb (now - st) max_wait).
    + split; [done | by intros [? [=]]].
    + split; [|intros _]; apply job_failed_error_message.
Qed.

Lemma step_error_message e s s' k0 j0 :
  step cfg e s = Some s' →
  jobs s !! k0 = Some j0 →
  ∃ j1, jobs s' !! k0 = Some j1 ∧
    Job.error_message j1
      = match step_failure e s k0 with
        | Some msg => Some msg
        | None => Job.error_message j0
        end ∧
    (is_Some (step_failure e s k0) → Job.status j1 = FAILED).
Proof.
  intros Hstep Hj0.
  by_step_cases cfg Hstep.
  - exists j0. rewrite Hjobs. split; [done|].
    destruct e; try done; cbn; (split; [done | by intros [? [=]]]).
  - destruct Hcreate as (name & wc & ->). exists j0. rewrite Hjobs.
    rewrite lookup_insert_ne by congruence.
    split; [done|]. cbn. split; [done | by intros [? [=]]].
  - subst e. exists j0. rewrite Hjobs. split; [done|]. cbn.
    split; [done | by intros [? [=]]].
  - subst e. exists j0. rewrite Hjobs. split; [done|]. cbn.
    rewrite Hworker. split; [done | by intros [? [=]]].
  - subst e. cbn [step_failure]. rewrite Hworker, Hjobs.
    destruct (String.eqb key k0) eqn:Hk.
    + apply String.eqb_eq in Hk as ->. rewrite Hj0. cbn [mbind option_bind].
      assert (j = j0) as -> by congruence.
      exists j'. rewrite lookup_insert_eq. split; [done|].
      by apply job_piece_error_message with n.
    + apply String.eqb_neq in Hk. exists j0.
      rewrite lookup_insert_ne by done.
      split; [done|]. split; [done | by intros [? [=]]].
  - subst e. exists j0. rewrite Hjobs. split; [done|]. cbn.
    split; [done | by intros [? [=]]].
  - subst e. rewrite Hjobs. cbn [step_failure].
    destruct (decide (key = k0)) as [->|Hne].
    + assert (j = j0) as -> by congruence. eexists.
      rewrite lookup_insert_eq. split; [done|]. jproj.
      split; [done | by intros [? [=]]].
    + exists j0. rewrite lookup_insert_ne by done.
      split; [done|]. split; [done | by intros [? [=]]].
  - subst e. exists j0. rewrite Hjobs. split; [done|]. cbn.
    split; [done | by intros [? [=]]].
Qed.

Lemma exec_last_failure es s s' k0 j0 :
  exec cfg es s = Some s' →
  jobs s !! k0 = Some j0 →
  ∃ j1, jobs s' !! k0 = Some j1 ∧
    Job.error_message j1 = last_failure cfg es s k0 (Job.error_message j0).
Proof.
  revert s j0. induction es as [|e es IH]; intros s j0 Hex Hj0;
    cbn [exec last_failure] in *.
  - injection Hex as <-. by exists j0.
  - destruct (step cfg e s) as [s1|] eqn:Hs; [|done].
    cbn [mbind option_bind] in Hex.
    destruct (step_error_message e s s1 k0 j0 Hs Hj0) as (j1 & Hj1 & Hm & _).
    destruct (IH s1 j1 Hex Hj1) as (j2 & Hj2 & Hm2).
    exists j2. split; [done|]. by rewrite Hm2, Hm.
Qed.

Lemma failing_piece_runs tpl now a0 r0 j0 msg :
  failure_text tpl now a0 r0 j0 = Some msg →
  is_Some (job_piece cfg tpl now a0 r0 j0).
Proof.
  destruct a0 as [| |wf|pid st|pid st|pid|], r0 as [|u|q|code entry|v|m0];
    cbn; try done.
  destruct (_generate_workflow tpl now u (Job.config j0)); by eauto.
Qed.

(** C7, amended: an attempt that fails stores the text of its exception
    as error message, and nothing else ever writes the field: after any
    run the error message of a job is the text of the last exception that
    ended one of its attempts during the run, or what it was before when
    no attempt failed.  So a message is never cleared, and a job that
    completes after a failed attempt still carries the message of its
    last failure. *)
Theorem error_message_never_cleared s key j :
  jobs s !! key = Some j →
  (∀ es s', exec cfg es s = Some s' →
     ∃ j', jobs s' !! key = Some j' ∧
       Job.error_message j'
         = last_failure cfg es s key (Job.error_message j)) ∧
  (is_Some (Job.error_message j) →
   ∀ es s', exec cfg es s = Some s' →
     ∃ j', jobs s' !! key = Some j' ∧ is_Some (Job.error_message j')) ∧
  (∀ w a msg,
     workers s !! w = Some (Busy key (Live a false)) →
     may_raise a = true →
     ∃ s' j',
       step cfg (TaskResume w (Raise msg)) s = Some s' ∧
       jobs s' !! key = Some j' ∧
       Job.status j' = FAILED ∧
       Job.error_message j' = Some msg) ∧
  (∀ w a r msg,
     workers s !! w = Some (Busy key (Live a false)) →
     failure_text (template s) (clock s) a r j = Some msg →
     ∃ s' j',
       step cfg (TaskResume w r) s = Some s' ∧
       jobs s' !! key = Some j' ∧
       Job.status j' = FAILED ∧
       Job.error_message j' = Some msg) ∧
  (∀ e s' j',
     step cfg e s = Some s' → jobs s' !! key = Some j' →
     Job.error_message j' ≠ Job.error_message j →
     ∃ w a r msg, e = TaskResume w r ∧
       workers s !! w = Some (Busy key (Live a false)) ∧
       failure_text (template s) (clock s) a r j = Some msg ∧
       Job.error_message j' = Some msg ∧ Job.status j' = FAILED).
Proof.
  intros Hj. split; [|split; [|split; [|split]]].
  - intros es s' Hex. by eapply exec_last_failure.
  - intros Herr es s' Hex. by eapply exec_error_message_kept.
  - intros w a msg Hw Ha. by eapply raise_sets_error_message.
  - intros w a r msg Hw Hf.
    destruct (failing_piece_runs _ _ _ _ _ _ Hf) as [[j1 n1] Hp].
    destruct (task_resume_piece cfg w key a r s j j1 n1 Hw Hj Hp)
      as (s' & Hs' & Hjobs & _).
    exists s', j1. split; [done|]. rewrite Hjobs, lookup_insert_eq.
    split; [done|].
    apply job_piece_error_message in Hp as [Hm Hst]. rewrite Hf in *.
    split; [by apply Hst | done].
  - intros e s' j' Hs' Hj' Hne.
    destruct (step_error_message e s s' key j Hs' Hj) as (j1 & Hj1 & Hm & Hst).
    assert (j1 = j') as -> by congruence.
    destruct (step_failure e s key) as [msg|] eqn:Hf; [|done].
    unfold step_failure in Hf. destruct e as [| | |w r| | | |]; try done.
    destruct (workers s !! w) as [[|k [a [|]|]|]|] eqn:Hw; try done.
    destruct (String.eqb k key) eqn:Hk; [|done].
    apply String.eqb_eq in Hk as ->. rewrite Hj in Hf. cbn in Hf.
    exists w, a, r, msg. repeat (split; [done|]). by apply Hst.
Qed.

End ErrorMessage.

Lemma error_message_never_cleared_witness :
  ∃ j', jobs (state_after completed_on_retry) !! "job-1" = Some j' ∧
    Job.status j' = COMPLETED ∧
    Job.error_message j' = Some "Queue failed: busy".
Proof.
  destruct (error_message_never_cleared CONFIG
              (state_after [CreateJob "job-1" "cat.png" sample_config])
              "job-1"
              (job_after [CreateJob "job-1" "cat.png" sample_config] "job-1"))
    as (Hlast & _); [run|].
  destruct (Hlast (drop 1 completed_on_retry)
              (state_after completed_on_retry)) as (j' & Hj' & Hmsg); [run|].
  exists j'. split; [exact Hj'|]. split.
  - assert (Job.status <$> jobs (state_after completed_on_retry) !! "job-1"
            = Some COMPLETED) as E by run.
    rewrite Hj' in E. by injection E.
  - rewrite Hmsg. run.
Defined.

(** ** [/api/stats] *)

Lemma status_value_inj st1 st2 :
  status_value st1 = status_value st2 → st1 = st2.
Proof. by destruct st1, st2. Qed.

Lemma with_status_nonneg st l : (0 <= with_status st l)%Z.
Proof.
  induction l as [|j l IH]; cbn; [lia|].
  destruct (decide (Job.status j = st)); lia.
Qed.

Lemma foldl_count_lookup l acc st :
  default 0%Z (foldl count_status acc l !! status_value st)
  = (default 0 (acc !! status_value st) + with_status st l)%Z.
Proof.
  revert acc. induction l as [|j l IH]; intros acc; cbn; [lia|].
  rewrite IH. unfold count_status.
  destruct (decide (Job.status j = st)) as [->|Hne].
  - rewrite lookup_insert_eq. cbn. lia.
  - rewrite lookup_insert_ne; [lia|].
    intros E. by apply status_value_inj in E.
Qed.

Lemma foldl_count_pos l acc :
  (∀ k v, acc !! k = Some v → (1 <= v)%Z) →
  ∀ k v, foldl count_status acc l !! k = Some v → (1 <= v)%Z.
Proof.
  revert acc. induction l as [|j l IH]; intros acc Hacc; cbn; [done|].
  apply IH. intros k v. unfold count_status.
  destruct (decide (k = status_value (Job.status j))) as [->|Hne].
  - rewrite lookup_insert_eq. intros [= <-].
    destruct (acc !! status_value (Job.status j)) as [x|] eqn:E; cbn; [|lia].
    apply Hacc in E. lia.
  - rewrite lookup_insert_ne by done. apply Hacc.
Qed.

Lemma foldl_count_keys l acc k :
  is_Some (foldl count_status acc l !! k) →
  is_Some (acc !! k) ∨ ∃ st, k = status_value st.
Proof.
  revert acc. induction l as [|j l IH]; intros acc; cbn; [by left|].
  intros H. apply IH in H as [H|H]; [|by right].
  unfold count_status in H.
  destruct (decide (k = status_value (Job.status j))) as [->|Hne].
  - right. by eexists.
  - rewrite lookup_insert_ne in H by done. by left.
Qed.

Lemma with_status_total l :
  Z.of_nat (length l)
  = (with_status PENDING l + with_status UPLOADING l
     + with_status PROCESSING l + with_status COMPLETED l
     + with_status FAILED l + with_status CANCELLED l)%Z.
Proof.
  induction l as [|j l IH]; [done|].
  cbn [length with_status]. rewrite Nat2Z.inj_succ, IH.
  destruct (Job.status j); repeat case_decide; try done; lia.
Qed.

(** X13.  The status_counts of /api/stats are right: a status is listed
    with the number of jobs that have it, a status no job has is not
    listed, nothing else is listed, and the numbers listed add up to
    total_jobs, the number of jobs the server knows. *)
Theorem stats_count_the_jobs s :
  let stats := get_stats s in
  (∀ st,
     status_counts stats !! status_value st =
       if decide (with_status st (get_all_jobs s) = 0)%Z then None
       else Some (with_status st (get_all_jobs s))) ∧
  (∀ k, is_Some (status_counts stats !! k) → ∃ st, k = status_value st) ∧
  total_jobs stats = Z.of_nat (size (jobs s)) ∧
  total_jobs stats
  = (with_status PENDING (get_all_jobs s)
     + with_status UPLOADING (get_all_jobs s)
     + with_status PROCESSING (get_all_jobs s)
     + with_status COMPLETED (get_all_jobs s)
     + with_status FAILED (get_all_jobs s)
     + with_status CANCELLED (get_all_jobs s))%Z.
Proof.
  cbn zeta. unfold get_stats. cbn [status_counts total_jobs].
  split; [|split; [|split]].
  - intros st.
    pose proof (foldl_count_lookup (get_all_jobs s) ∅ st) as Hl.
    rewrite lookup_empty in Hl. cbn in Hl.
    destruct (foldl count_status ∅ (get_all_jobs s) !! status_value st)
      as [v|] eqn:E; cbn in Hl.
    + apply foldl_count_pos in E; [|intros k x; by rewrite lookup_empty].
      case_decide; [lia | by rewrite Hl].
    + case_decide; [done | lia].
  - intros k H. apply foldl_count_keys in H as [H|H]; [|done].
    rewrite lookup_empty in H. by destruct H.
  - unfold get_all_jobs. by rewrite length_fmap, length_map_to_list.
  - apply with_status_total.
Qed.

(** ** [create_job] *)

Section Create.
Variable cfg : Config.








Lemma elem_of_write_file path now tree :
  {| fe_path := path; fe_is_file := true; fe_mtime := now |}
    ∈ write_file path now tree ∧
  ∀ f, f ∈ write_file path now tree → fe_path f = path →
       f = {| fe_path := path; fe_is_file := true; fe_mtime := now |}.
Proof.
  unfold write_file. split.
  - apply elem_of_app. right. by apply list_elem_of_singleton.
  - intros f [Hf|Hf]%elem_of_app Hp.
    + by apply list_elem_of_filter in Hf as [? _].
    + by apply list_elem_of_singleton in Hf.
Qed.


(** X15.  The stored name is the time in whole seconds followed by the
    sanitised name, so it is not unique: two uploads within the same
    second whose names differ at most in spaces and slashes get the same
    path, the second upload replaces the file of the first, and both
    jobs point to the one file that is left. *)
Theorem uploads_in_the_same_second_share_a_file id1 id2 n1 n2 wc1 wc2
    s s1 s2 :
  create_job cfg id1 n1 wc1 s = Some s1 →
  create_job cfg id2 n2 wc2 s1 = Some s2 →
  replace_char "/" "_" (replace_char " " "_" n1)
    = replace_char "/" "_" (replace_char " " "_" n2) →
  ∃ j1 j2, id1 ≠ id2 ∧
    jobs s2 !! id1 = Some j1 ∧ jobs s2 !! id2 = Some j2 ∧
    Job.filepath j1 = Job.filepath j2 ∧
    ∀ f, f ∈ upload_tree s2 → fe_path f = Job.filepath j1 →
      f = {| fe_path := Job.filepath j2; fe_is_file := true;
             fe_mtime := clock s1 |}.
Proof.
  unfold create_job. intros H1 H2 Hn.
  destruct (jobs s !! id1) eqn:E1; [done|]. injection H1 as <-.
  sproj. destruct (decide (id2 = id1)) as [->|Hne].
  { by rewrite lookup_insert_eq in H2. }
  rewrite lookup_insert_ne in H2 by done.
  destruct (jobs s !! id2) eqn:E2; [done|]. injection H2 as <-. sproj.
  eexists _, _. split; [done|].
  rewrite lookup_insert_ne, lookup_insert_eq by done.
  rewrite lookup_insert_eq. split; [reflexivity|]. split; [reflexivity|].
  jproj. rewrite Hn. split; [done|].
  intros f Hf Hp. by apply elem_of_write_file in Hf.
Qed.

End Create.

Section Upload.
Variable cfg : Config.


End Upload.

(** ** [_cleanup_task] *)

Section Sweep.
Variable cfg : Config.

Lemma sweep_all cutoff io_fails tree :
  (∀ f, f ∈ tree → fe_is_file f = true → io_fails (fe_path f) = false) →
  sweep cutoff io_fails tree = (List.filter (kept cutoff) tree, true).
Proof.
  induction tree as [|f tree IH]; intros Hio; cbn; [done|].
  rewrite IH by (intros g Hg; apply Hio; by right). unfold kept.
  destruct (fe_is_file f) eqn:Ef; cbn; [|done].
  rewrite Hio by (done || by left).
  by destruct (Qltb (fe_mtime f) cutoff).
Qed.

Lemma sweep_fails cutoff io_fails tree f :
  f ∈ tree → fe_is_file f = true → io_fails (fe_path f) = true →
  (sweep cutoff io_fails tree).2 = false.
Proof.
  induction tree as [|g tree IH]; [by intros ?%elem_of_nil|].
  intros Hin Hf Hio. cbn.
  destruct (fe_is_file g) eqn:Eg.
  - destruct (io_fails (fe_path g)) eqn:Ei; [done|].
    apply elem_of_cons in Hin as [->|Hin]; [congruence|].
    specialize (IH Hin Hf Hio).
    destruct (Qltb (fe_mtime g) cutoff); [done|].
    by destruct (sweep cutoff io_fails tree).
  - apply elem_of_cons in Hin as [->|Hin]; [congruence|].
    specialize (IH Hin Hf Hio). by destruct (sweep cutoff io_fails tree).
Qed.

(** X16.  A pass of _cleanup_task during which no file operation fails
    leaves in both directories exactly the entries that are not regular
    files older than the cut-off, in their order; running it again at
    once changes nothing.  When stat() or unlink() fails on an upload the
    pass ends there and the output directory is not swept at all. *)
Theorem cleanup_pass_is_complete io_fails s :
  let cutoff_time := (clock s - cleanup_days cfg * 24 * 3600)%Q in
  let s' := _cleanup_task cfg io_fails s in
  ((∀ f, f ∈ (upload_tree s ++ output_tree s)%list →
      fe_is_file f = true → io_fails (fe_path f) = false) →
   upload_tree s' = List.filter (kept cutoff_time) (upload_tree s) ∧
   output_tree s' = List.filter (kept cutoff_time) (output_tree s) ∧
   (∀ f, f ∈ (upload_tree s' ++ output_tree s')%list →
      fe_is_file f = true → (cutoff_time <= fe_mtime f)%Q) ∧
   _cleanup_task cfg io_fails s' = s') ∧
  ((∃ f, f ∈ upload_tree s ∧ fe_is_file f = true ∧
         io_fails (fe_path f) = true) →
   output_tree s' = output_tree s).
Proof.
  intros cutoff_time s'. split.
  - intros Hio.
    assert (upload_tree s' = List.filter (kept cutoff_time) (upload_tree s) ∧
            output_tree s' = List.filter (kept cutoff_time) (output_tree s))
      as [Hu Ho].
    { subst s'. unfold _cleanup_task. fold cutoff_time.
      rewrite sweep_all
        by (intros f Hf; apply Hio; apply elem_of_app; by auto).
      sproj. by rewrite sweep_all
        by (intros f Hf; apply Hio; apply elem_of_app; by auto). }
    repeat (split; [done|]).
    assert (∀ l f, f ∈ List.filter (kept cutoff_time) l →
              f ∈ l ∧ kept cutoff_time f = true) as Hfilter.
    { intros l f Hf. apply list_elem_of_In, filter_In in Hf as [Hf ?].
      by apply list_elem_of_In in Hf. }
    split.
    + intros f Hf Hfile. rewrite Hu, Ho in Hf.
      apply elem_of_app in Hf as [Hf|Hf]; apply Hfilter in Hf as [_ Hk];
        unfold kept in Hk; rewrite Hfile in Hk; cbn in Hk;
        apply negb_true_iff in Hk; by apply Qltb_ge.
    + destruct (cleanup_frame cfg io_fails s) as (Hj & Hq & Hp & Hw & Hcc
                                                  & Ht & Hc).
      fold s' in Hj, Hq, Hp, Hw, Hcc, Ht, Hc.
      assert (∀ l, List.filter (kept cutoff_time)
                     (List.filter (kept cutoff_time) l)
                   = List.filter (kept cutoff_time) l) as Hidem.
      { induction l as [|f l IH]; cbn; [done|].
        destruct (kept cutoff_time f) eqn:E; cbn; [|done].
        by rewrite E, IH. }
      unfold _cleanup_task. rewrite Hc. fold cutoff_time.
      rewrite sweep_all.
      2:{ intros f Hf. apply Hio. apply elem_of_app. left.
          rewrite Hu in Hf. by apply Hfilter in Hf as [? _]. }
      sproj. rewrite sweep_all.
      2:{ intros f Hf. apply Hio. apply elem_of_app. right.
          rewrite Ho in Hf. by apply Hfilter in Hf as [? _]. }
      rewrite Hu, Ho, !Hidem. rewrite <- Hu, <- Ho. by destruct s'.
  - intros (f & Hf & Hfile & Hio). subst s'. unfold _cleanup_task.
    fold cutoff_time.
    pose proof (sweep_fails cutoff_time io_fails (upload_tree s) f
                  Hf Hfile Hio) as Hfail.
    destruct (sweep cutoff_time io_fails (upload_tree s)) as [ups ok].
    cbn in Hfail. by subst ok.
Qed.

End Sweep.

(** ** The further properties at concrete runs *)

Lemma progress_between_0_and_100_witness :
  (0 <= Job.progress (job_after polling "job-1"))%Q ∧
  (Job.progress (job_after polling "job-1") <= 100)%Q.
Proof.
  apply (progress_between_0_and_100 CONFIG (state_after polling) "job-1").
  - apply reachable_state_after. run.
  - run.
Defined.

Lemma completed_job_is_fully_recorded_witness :
  (Job.status (job_after completed_on_retry "job-1") = COMPLETED
   ↔ is_Some (Job.completed_at (job_after completed_on_retry "job-1"))) ∧
  (Job.status (job_after completed_on_retry "job-1") = COMPLETED →
   Job.progress (job_after completed_on_retry "job-1") = 100%Q ∧
   is_Some (Job.started_at (job_after completed_on_retry "job-1")) ∧
   is_Some (Job.comfy_prompt_id (job_after completed_on_retry "job-1")) ∧
   is_Some (Job.result_path (job_after completed_on_retry "job-1"))).
Proof.
  apply (completed_job_is_fully_recorded CONFIG
           (state_after completed_on_retry) "job-1").
  - apply reachable_state_after. run.
  - run.
Defined.

Lemma time_stamps_in_order_witness :
  (Job.created_at (job_after completed_on_retry "job-1")
   <= clock (state_after completed_on_retry))%Q ∧
  (∀ t, Job.started_at (job_after completed_on_retry "job-1") = Some t →
     (Job.created_at (job_after completed_on_retry "job-1") <= t)%Q ∧
     (t <= clock (state_after completed_on_retry))%Q) ∧
  (∀ t t',
     Job.started_at (job_after completed_on_retry "job-1") = Some t →
     Job.completed_at (job_after completed_on_retry "job-1") = Some t' →
     (t <= t')%Q ∧ (t' <= clock (state_after completed_on_retry))%Q).
Proof.
  apply (time_stamps_in_order CONFIG (state_after completed_on_retry)
           "job-1").
  - apply reachable_state_after. run.
  - run.
Defined.

Lemma request_fields_never_change_witness :
  ∃ j', jobs (state_after completed_on_retry) !! "job-1" = Some j' ∧
    Job.id j' = Job.id (job_after failed_once "job-1") ∧
    Job.filename j' = Job.filename (job_after failed_once "job-1") ∧
    Job.original_filename j'
      = Job.original_filename (job_after failed_once "job-1") ∧
    Job.filepath j' = Job.filepath (job_after failed_once "job-1") ∧
    Job.config j' = Job.config (job_after failed_once "job-1") ∧
    Job.created_at j' = Job.created_at (job_after failed_once "job-1").
Proof.
  apply (request_fields_never_change CONFIG
           (retry_pickup ++ second_attempt) (state_after failed_once)).
  - run.
  - run.
Defined.

Lemma worker_pool_bound_witness :
  length (workers (state_after fourth_attempt))
    = Z.to_nat (max_concurrent_jobs CONFIG) ∧
  (length (active_jobs (state_after fourth_attempt))
   ≤ Z.to_nat (max_concurrent_jobs CONFIG))%nat ∧
  (size (processing_tasks (state_after fourth_attempt))
   ≤ Z.to_nat (max_concurrent_jobs CONFIG))%nat.
Proof.
  apply (worker_pool_bound CONFIG (state_after fourth_attempt)).
  apply reachable_state_after. run.
Defined.

Lemma no_job_is_held_twice_witness :
  NoDup (job_queue (state_after busy_and_queued)
         ++ active_jobs (state_after busy_and_queued)) ∧
  ∀ key,
    key ∈ (job_queue (state_after busy_and_queued)
           ++ active_jobs (state_after busy_and_queued))%list →
    is_Some (jobs (state_after busy_and_queued) !! key).
Proof.
  apply (no_job_is_held_twice CONFIG (state_after busy_and_queued)).
  apply reachable_state_after. run.
Defined.

Lemma job_queue_is_first_in_first_out_witness :
  enqueued CONFIG completed_on_retry boot = ["job-1"; "job-1"] ∧
  dequeues completed_on_retry = 2%nat ∧
  job_queue (state_after completed_on_retry)
    = drop (dequeues completed_on_retry)
        (job_queue boot ++ enqueued CONFIG completed_on_retry boot).
Proof.
  split; [run|]. split; [run|].
  apply (job_queue_is_first_in_first_out CONFIG completed_on_retry boot).
  run.
Defined.

Lemma worker_stops_for_good_witness :
  workers (state_after cancelled_while_uploading) !! 0%nat = Some Stopped ∧
  (workers (state_after task_cancelled) !! 0%nat = Some Stopped ∨
   ∃ key, WorkerWake 0 = WorkerWake 0 ∧
     workers (state_after task_cancelled) !! 0%nat
       = Some (Busy key (Done WasCancelled))).
Proof.
  apply (worker_stops_for_good CONFIG
           [CreateJob "job-2" "dog.png" other_config] (WorkerWake 0)
           (state_after task_cancelled)
           (state_after (task_cancelled ++ [WorkerWake 0]))).
  - run.
  - run.
  - run.
Defined.

Lemma workers_survive_without_cancellation_witness :
  Forall in_loop (workers (state_after completed_on_retry)).
Proof.
  apply Forall_lookup.
  apply (workers_survive_without_cancellation CONFIG completed_on_retry boot).
  - intros [|w] v; vm_compute; [by intros [= <-] | done].
  - repeat (apply List.Forall_cons; [reflexivity|]). apply List.Forall_nil.
  - run.
Defined.

Lemma pending_job_is_held_untouched_witness :
  ("job-2" ∈ job_queue (state_after busy_and_queued) ∨
   ∃ w, workers (state_after busy_and_queued) !! w
          = Some (Busy "job-2" (Live AtStart false))) ∧
  Job.progress (job_after busy_and_queued "job-2") = 0%Q ∧
  Job.started_at (job_after busy_and_queued "job-2") = None ∧
  Job.completed_at (job_after busy_and_queued "job-2") = None ∧
  Job.comfy_prompt_id (job_after busy_and_queued "job-2") = None ∧
  Job.result_path (job_after busy_and_queued "job-2") = None ∧
  Job.error_message (job_after busy_and_queued "job-2") = None ∧
  Job.retry_count (job_after busy_and_queued "job-2") = 0%Z.
Proof.
  apply (pending_job_is_held_untouched CONFIG
           (state_after busy_and_queued) "job-2").
  - apply reachable_state_after. run.
  - run.
  - run.
Defined.

Lemma wait_for_completion_times_out_witness :
  (∃ s' j', step CONFIG (TaskResume 0 Go) (state_after timed_out) = Some s' ∧
     jobs s' !! "job-1" = Some j' ∧ Job.status j' = FAILED ∧
     Job.error_message j'
       = Some "ComfyUI execution timeout for prompt prompt-1") ∧
  (clock (state_after polled_late) - 1000 == 4000)%Q ∧
  ∃ s' j',
    step CONFIG (TaskResume 0 (History 200 (Some (Some "completed"))))
      (state_after polled_late) = Some s' ∧
    jobs s' !! "job-1" = Some j' ∧
    j' = Job.set_progress 80 (job_after polled_late "job-1") ∧
    workers s' !! 0%nat = Some (Busy "job-1" (Live (AtDownload "prompt-1") false)).
Proof.
  split; [|split; [by vm_compute|]].
  - destruct (wait_for_completion_times_out CONFIG 0 "job-1" "prompt-1" 1000
                (job_after timed_out "job-1") (state_after timed_out))
      as (Hsleep & _); [run|].
    destruct Hsleep as (s' & j' & Hstep & Hj & Hp & _ & Hto); [run|].
    exists s', j'. repeat (split; [assumption|]).
    destruct Hto as (Hst & Hmsg & _); [by vm_compute|].
    split; [exact Hst | exact Hmsg].
  - destruct (wait_for_completion_times_out CONFIG 0 "job-1" "prompt-1" 1000
                (job_after polled_late "job-1") (state_after polled_late))
      as (_ & Hpoll & _); [run|].
    destruct (Hpoll ltac:(run) 200%Z (Some (Some "completed")))
      as (s' & j' & Hstep & Hj & _ & Hdone).
    exists s', j'. split; [exact Hstep|]. split; [exact Hj|]. exact Hdone.
Defined.

Lemma cancel_job_concerns_one_job_witness :
  (∀ k, k ≠ "job-1" →
     jobs (cancel_job "job-1" (state_after busy_and_queued)).1 !! k
     = jobs (state_after busy_and_queued) !! k) ∧
  job_queue (cancel_job "job-1" (state_after busy_and_queued)).1
    = job_queue (state_after busy_and_queued) ∧
  processing_tasks (cancel_job "job-1" (state_after busy_and_queued)).1
    = processing_tasks (state_after busy_and_queued) ∧
  clock (cancel_job "job-1" (state_after busy_and_queued)).1
    = clock (state_after busy_and_queued) ∧
  ∀ w,
    workers (cancel_job "job-1" (state_after busy_and_queued)).1 !! w
    = workers (state_after busy_and_queued) !! w ∨
    ∃ a c,
      workers (state_after busy_and_queued) !! w
        = Some (Busy "job-1" (Live a c)) ∧
      workers (cancel_job "job-1" (state_after busy_and_queued)).1 !! w
        = Some (Busy "job-1" (Live a true)).
Proof.
  apply (cancel_job_concerns_one_job CONFIG (state_after busy_and_queued)
           "job-1").
  - apply reachable_state_after. run.
  - by left.
Defined.


Lemma uploads_in_the_same_second_share_a_file_witness :
  ∃ j1 j2, "job-1" ≠ "job-2" ∧
    jobs (state_after second_upload) !! "job-1" = Some j1 ∧
    jobs (state_after second_upload) !! "job-2" = Some j2 ∧
    Job.filepath j1 = Job.filepath j2 ∧
    ∀ f, f ∈ upload_tree (state_after second_upload) →
      fe_path f = Job.filepath j1 →
      f = {| fe_path := Job.filepath j2; fe_is_file := true;
             fe_mtime := clock (state_after first_upload) |}.
Proof.
  apply (uploads_in_the_same_second_share_a_file CONFIG "job-1" "job-2"
           "my cat.png" "my/cat.png" sample_config other_config boot
           (state_after first_upload) (state_after second_upload)).
  - run.
  - run.
  - run.
Defined.

Lemma cleanup_pass_is_complete_witness :
  output_tree (_cleanup_task CONFIG (λ _, false) sweep_state)
    = List.filter (kept (clock sweep_state - cleanup_days CONFIG * 24 * 3600))
        (output_tree sweep_state) ∧
  _cleanup_task CONFIG (λ _, false)
    (_cleanup_task CONFIG (λ _, false) sweep_state)
    = _cleanup_task CONFIG (λ _, false) sweep_state.
Proof.
  destruct (cleanup_pass_is_complete CONFIG (λ _, false) sweep_state)
    as [Hall _].
  destruct Hall as (_ & Ho & _ & Hidem); [reflexivity|].
  split; [exact Ho | exact Hidem].
Defined.

(** * The backend *)

(** ** The mock backend *)

Section MockProofs.
Import Mock.

Lemma mock_fmap_insert_same (l : list (string * nat)) i prompt_id k k' :
  l !! i = Some (prompt_id, k) →
  (<[i := (prompt_id, k')]> l).*1 = l.*1.
Proof.
  intros Hi. rewrite list_fmap_insert. cbn.
  apply list_insert_id. by rewrite list_lookup_fmap, Hi.
Qed.

Lemma process_piece_lookup prompt_id k m x p' :
  process_piece prompt_id k m !! x = Some p' →
  ∃ p, prompts m !! x = Some p ∧ p_id p' = p_id p ∧ number p' = number p ∧
    (x ≠ prompt_id → p' = p).
Proof.
  unfold process_piece. destruct k as [|i]; [by eauto|].
  destruct (decide (x = prompt_id)) as [->|Hne].
  - destruct (S (S i) =? sleeps)%nat;
      rewrite ?lookup_alter_eq;
      destruct (prompts m !! prompt_id) as [p|]; cbn; try done;
      intros [= <-]; by exists p.
  - destruct (S (S i) =? sleeps)%nat; rewrite ?lookup_alter_ne by done;
      intros H; by exists p'.
Qed.

Lemma process_piece_here prompt_id k m p :
  (k < sleeps)%nat →
  prompts m !! prompt_id = Some p →
  status p = "queued" → progress p = (10 * Z.of_nat (k - 2))%Z →
  ∃ p', process_piece prompt_id k m !! prompt_id = Some p' ∧
    status p' = (if (S k =? sleeps)%nat then "completed" else "queued") ∧
    progress p' = (10 * Z.of_nat (S k - 2))%Z.
Proof.
  intros Hk Hp Hst Hpr. unfold process_piece.
  destruct k as [|i].
  - exists p. by rewrite Hp, Hst, Hpr.
  - destruct (S (S i) =? sleeps)%nat eqn:E;
      rewrite ?lookup_alter_eq, Hp; cbn; eexists; (split; [reflexivity|]);
      cbn; (split; [done|]).
    + apply Nat.eqb_eq in E. unfold sleeps in E.
      assert (i = 10%nat) as -> by lia. done.
    + f_equal. lia.
Qed.

Lemma mock_step_Inv e m m' : Inv m → Mock.step e m = Some m' → Inv m'.
Proof.
  intros HI. destruct e as [prompt_id now request|i|prompt_id]; cbn.
  - (* queue_prompt *)
    case_decide as Hused; [done|]. intros [= <-]. cbn.
    assert (prompts m !! prompt_id = None) as Hnone.
    { destruct (prompts m !! prompt_id) eqn:E; [|done].
      destruct Hused. left. by eexists. }
    assert (prompt_id ∉ (tasks m).*1) as Hnot by (intros ?; apply Hused; by right).
    split; cbn.
    + pose proof (inv_counter m HI). lia.
    + rewrite fmap_app. apply NoDup_app. split; [apply (inv_tasks_nodup m HI)|].
      split; [|apply NoDup_singleton].
      intros x Hx Hx'. apply list_elem_of_singleton in Hx'. by subst x.
    + intros x p. destruct (decide (x = prompt_id)) as [->|Hne].
      * rewrite lookup_insert_eq. intros [= <-]. cbn.
        pose proof (inv_counter m HI). split; [done|]. split; [lia|].
        rewrite fmap_app. apply elem_of_app. right.
        by apply list_elem_of_singleton.
      * rewrite lookup_insert_ne by done. intros Hp.
        destruct (inv_has_task m HI x p Hp) as (? & ? & ?).
        split; [done|]. split; [lia|]. rewrite fmap_app.
        apply elem_of_app. by left.
    + intros i x k Hi. apply lookup_app_Some in Hi as [Hi|[Hlen Hi]].
      * destruct (inv_task_ok m HI i x k Hi) as [Hk Hp].
        split; [done|]. intros p. cbn. rewrite lookup_insert_ne; [apply Hp|].
        intros E. apply Hnot. apply list_elem_of_fmap.
        exists (x, k). split; [done|]. by eapply list_elem_of_lookup_2.
      * apply list_lookup_singleton_Some in Hi as [_ [= <- <-]].
        split; [unfold sleeps; lia|]. intros p. cbn. rewrite lookup_insert_eq.
        by intros [= <-].
    + intros id1 id2 p1 p2.
      destruct (decide (id1 = prompt_id)) as [->|Hne1];
        destruct (decide (id2 = prompt_id)) as [->|Hne2];
        rewrite ?lookup_insert_eq, ?lookup_insert_ne by done; try done.
      * intros [= <-] Hp2. cbn.
        destruct (inv_has_task m HI id2 p2 Hp2) as (_ & ? & _). lia.
      * intros Hp1 [= <-]. cbn.
        destruct (inv_has_task m HI id1 p1 Hp1) as (_ & ? & _). lia.
      * apply (inv_numbers m HI).
  - (* process_prompt *)
    unfold process_prompt.
    destruct (tasks m !! i) as [[prompt_id k]|] eqn:Hi; [|done].
    destruct (k <? sleeps)%nat eqn:Hk; [|done]. intros [= <-].
    apply Nat.ltb_lt in Hk. split; cbn.
    + apply (inv_counter m HI).
    + erewrite mock_fmap_insert_same by done. apply (inv_tasks_nodup m HI).
    + intros x p' Hp'. erewrite mock_fmap_insert_same by done.
      apply process_piece_lookup in Hp' as (p & Hp & E1 & E2 & _).
      rewrite E1, E2. by apply (inv_has_task m HI).
    + intros i' x k' Hi'.
      destruct (decide (i' = i)) as [->|Hne].
      * rewrite list_lookup_insert_eq in Hi' by (by eapply lookup_lt_Some).
        injection Hi' as <- <-.
        destruct (inv_task_ok m HI i prompt_id k Hi) as [_ Hp].
        split; [lia|]. intros p' Hp'.
        destruct (prompts m !! prompt_id) as [p|] eqn:E.
        -- destruct (Hp p eq_refl) as [Hst Hpr].
           assert ((k =? sleeps)%nat = false) as Hf by (apply Nat.eqb_neq; lia).
           rewrite Hf in Hst.
           destruct (process_piece_here prompt_id k m p Hk E Hst Hpr)
             as (p1 & Hp1 & ? & ?).
           cbn in Hp'. by assert (p1 = p') as <- by congruence.
        -- apply process_piece_lookup in Hp' as (p & Hp0 & _). congruence.
      * rewrite list_lookup_insert_ne in Hi' by done.
        destruct (inv_task_ok m HI i' x k' Hi') as [Hk' Hp].
        split; [done|]. intros p' Hp'. cbn in Hp'.
        assert (x ≠ prompt_id) as Hx.
        { intros ->. apply Hne.
          eapply NoDup_lookup; [apply (inv_tasks_nodup m HI)|..];
            by rewrite list_lookup_fmap, ?Hi, ?Hi'. }
        apply process_piece_lookup in Hp' as (p & Hp0 & _ & _ & Heq).
        rewrite (Heq Hx). by apply Hp.
    + intros id1 id2 p1 p2 H1 H2.
      apply process_piece_lookup in H1 as (q1 & Hq1 & _ & -> & _).
      apply process_piece_lookup in H2 as (q2 & Hq2 & _ & -> & _).
      by apply (inv_numbers m HI).
  - (* delete_prompt *)
    intros [= <-]. unfold delete_prompt.
    destruct (prompts m !! prompt_id) as [p0|] eqn:E; cbn; [|done].
    split; cbn.
    + apply (inv_counter m HI).
    + apply (inv_tasks_nodup m HI).
    + intros x p Hp. apply lookup_delete_Some in Hp as [_ Hp].
      by apply (inv_has_task m HI).
    + intros i x k Hi. destruct (inv_task_ok m HI i x k Hi) as [Hk Hp].
      split; [done|]. intros p Hp'. cbn in Hp'.
      apply lookup_delete_Some in Hp' as [_ Hp']. by apply Hp.
    + intros id1 id2 p1 p2 H1 H2.
      apply lookup_delete_Some in H1 as [_ H1].
      apply lookup_delete_Some in H2 as [_ H2].
      by apply (inv_numbers m HI).
Qed.

Lemma mock_start_Inv : Inv Mock.start.
Proof.
  split; cbn; try done.
  - apply NoDup_nil_2.
Qed.

Lemma mock_reachable_Inv m : Mock.reachable m → Inv m.
Proof.
  intros [es Hes]. pose proof mock_start_Inv as H0.
  revert H0 Hes. generalize Mock.start.
  induction es as [|e es IH]; intros m0 H0 Hex; cbn in Hex.
  - by injection Hex as <-.
  - destruct (Mock.step e m0) as [m1|] eqn:Hs; [|done]. cbn in Hex.
    eapply IH; [|exact Hex]. by eapply mock_step_Inv.
Qed.

(** X17.  In every reachable state of the mock backend each prompt is
    filed under its own identifier, carries a number of its own between
    1 and prompt_counter, has status queued or completed and a progress
    that is a multiple of 10 between 0 and 100; its background task has
    gone through all its 12 sleeps exactly when the status is completed,
    and then the progress is 100. *)
Theorem mock_prompts_are_well_formed m prompt_id p :
  Mock.reachable m → prompts m !! prompt_id = Some p →
  p_id p = prompt_id ∧ (1 <= number p < prompt_counter m)%Z ∧
  (∀ id2 p2, prompts m !! id2 = Some p2 → number p2 = number p →
     id2 = prompt_id) ∧
  ∃ i k, tasks m !! i = Some (prompt_id, k) ∧ (k ≤ sleeps)%nat ∧
    (status p = "completed" ↔ k = sleeps) ∧
    (status p = "queued" ↔ k ≠ sleeps) ∧
    progress p = (10 * Z.of_nat (k - 2))%Z ∧
    (0 <= progress p <= 100)%Z ∧
    (status p = "completed" → progress p = 100%Z).
Proof.
  intros Hr Hp. pose proof (mock_reachable_Inv m Hr) as HI.
  destruct (inv_has_task m HI prompt_id p Hp) as (Hid & Hnum & Hin).
  repeat (split; [done|]). split.
  { intros id2 p2 Hp2 E. by eapply (inv_numbers m HI). }
  apply list_elem_of_fmap in Hin as ([x k] & -> & Hin).
  apply list_elem_of_lookup in Hin as [i Hi]. cbn in *.
  destruct (inv_task_ok m HI i x k Hi) as [Hk Hok].
  destruct (Hok p Hp) as [Hst Hpr].
  exists i, k. repeat (split; [done|]).
  destruct (k =? sleeps)%nat eqn:E.
  - apply Nat.eqb_eq in E. subst k. rewrite Hst, Hpr.
    repeat split; try done; unfold sleeps; cbn; lia.
  - apply Nat.eqb_neq in E. rewrite Hst, Hpr.
    repeat split; try done; unfold sleeps in *; lia.
Qed.

Lemma mock_step_deleted e m m' prompt_id :
  Mock.step e m = Some m' →
  prompts m !! prompt_id = None → prompt_id ∈ (tasks m).*1 →
  prompts m' !! prompt_id = None ∧ prompt_id ∈ (tasks m').*1.
Proof.
  destruct e as [x now request|i|x]; cbn.
  - case_decide as Hused; [done|]. intros [= <-] Hnone Hin. cbn.
    assert (x ≠ prompt_id) by (intros ->; apply Hused; by right).
    rewrite lookup_insert_ne by done. split; [done|].
    rewrite fmap_app. apply elem_of_app. by left.
  - unfold process_prompt.
    destruct (tasks m !! i) as [[x k]|] eqn:Hi; [|done].
    destruct (k <? sleeps)%nat; [|done]. intros [= <-] Hnone Hin. cbn.
    erewrite mock_fmap_insert_same by done. split; [|done].
    destruct (process_piece x k m !! prompt_id) as [p'|] eqn:E; [|done].
    apply process_piece_lookup in E as (p & Hp & _). congruence.
  - intros [= <-] Hnone Hin. unfold delete_prompt.
    destruct (prompts m !! x); cbn; [|done].
    split; [|done]. destruct (decide (prompt_id = x)) as [->|Hne].
    + by rewrite lookup_delete_eq.
    + by rewrite lookup_delete_ne.
Qed.

(** X18.  A prompt deleted at the mock backend stays deleted: whatever
    happens afterwards (its background task goes on running), the
    identifier is never a key of prompts again, so get_history and
    delete_prompt answer 404 for it. *)
Theorem mock_deleted_prompt_stays_deleted es m m' prompt_id :
  Mock.reachable m → is_Some (prompts m !! prompt_id) →
  Mock.exec es (delete_prompt prompt_id m).1 = Some m' →
  prompts m' !! prompt_id = None ∧
  ans_status (get_history prompt_id m') = 404%Z ∧
  ans_status (delete_prompt prompt_id m').2 = 404%Z ∧
  (delete_prompt prompt_id m').1 = m'.
Proof.
  intros Hr [p Hp] Hex. pose proof (mock_reachable_Inv m Hr) as HI.
  destruct (inv_has_task m HI prompt_id p Hp) as (_ & _ & Hin).
  assert (prompts m' !! prompt_id = None) as Hnone.
  { assert (prompts (delete_prompt prompt_id m).1 !! prompt_id = None ∧
            prompt_id ∈ (tasks (delete_prompt prompt_id m).1).*1) as H0.
    { unfold delete_prompt. rewrite Hp. cbn. by rewrite lookup_delete_eq. }
    revert H0 Hex. generalize (delete_prompt prompt_id m).1.
    induction es as [|e es IH]; intros m0 [H0 H1] Hex; cbn in Hex.
    - by injection Hex as <-.
    - destruct (Mock.step e m0) as [m1|] eqn:Hs; [|done]. cbn in Hex.
      eapply IH; [|exact Hex]. by eapply mock_step_deleted. }
  split; [done|]. unfold get_history, delete_prompt. by rewrite Hnone.
Qed.

End MockProofs.

(** ** The server reading the answers of the backend *)

Section Backend.
Variable cfg : Config.

(** [str(e)]: the text that ends up in [error_message]. *)
Variable str : Exc → string.

Lemma download_raise_outcome w key prompt_id j s msg :
  workers s !! w = Some (Busy key (Live (AtDownload prompt_id) false)) →
  jobs s !! key = Some j →
  ∃ s' j',
    step cfg (TaskResume w (Raise msg)) s = Some s' ∧
    jobs s' !! key = Some j' ∧
    Job.status j' = FAILED ∧ Job.error_message j' = Some msg ∧
    Job.result_path j' = Job.result_path j ∧
    Job.progress j' = Job.progress j.
Proof.
  intros Hw Hj.
  destruct (task_resume_piece cfg w key (AtDownload prompt_id) (Raise msg)
              s j (job_failed cfg msg j).1 (job_failed cfg msg j).2 Hw Hj)
    as (s' & Hs' & Hjobs & _); [by cbn; destruct (job_failed cfg msg j)|].
  exists s', (job_failed cfg msg j).1. split; [done|].
  rewrite Hjobs, lookup_insert_eq. split; [done|].
  unfold job_failed. jproj.
  by destruct (Job.retry_count j <? max_retries cfg)%Z.
Qed.

Lemma download_done_outcome w key prompt_id j s video_filename :
  workers s !! w = Some (Busy key (Live (AtDownload prompt_id) false)) →
  jobs s !! key = Some j →
  ∃ s' j',
    step cfg (TaskResume w (Downloaded video_filename)) s = Some s' ∧
    jobs s' !! key = Some j' ∧
    Job.status j' = COMPLETED ∧
    Job.result_path j'
      = Some (output_dir cfg ++ "/"
                ++ (Job.id j ++ "_" ++ default "output.mp4" video_filename)) ∧
    Job.progress j' = 100%Q ∧ Job.completed_at j' = Some (clock s) ∧
    workers s' !! w = Some (Busy key (Done Returned)).
Proof.
  intros Hw Hj.
  edestruct (task_resume_piece cfg w key (AtDownload prompt_id)
              (Downloaded video_filename) s j)
    as (s' & Hs' & Hjobs & Hws & _); [done | done | reflexivity |].
  eexists s', _. split; [done|].
  rewrite Hjobs, lookup_insert_eq. split; [reflexivity|]. jproj.
  by rewrite Hws, list_lookup_insert_eq by (by eapply lookup_lt_Some).
Qed.

Lemma download_request_filename prompt_id response video params :
  download_request prompt_id response = inr (video, params) →
  vp_filename params = default "output.mp4" (video !! "filename").
Proof.
  unfold download_request.
  destruct (negb (ans_status response =? 200)%Z); [done|].
  destruct (ans_json response !! prompt_id) as [entry|]; [|done].
  destruct (default [∅] _) as [|v vs]; [done|].
  destruct (decide (v = ∅)); [done|]. by intros [= <- <-].
Qed.


Lemma mock_download_request prompt_id m p :
  Mock.prompts m !! prompt_id = Some p →
  ∃ video,
    video !! "filename" = Some "ComfyUI_00001.mp4" ∧
    download_request prompt_id (Mock.get_history prompt_id m)
      = inr (video, {| vp_filename := "ComfyUI_00001.mp4";
                       vp_subfolder := "video"; vp_type := "output" |}).
Proof.
  intros Hp. unfold download_request, Mock.get_history. rewrite Hp.
  cbn [ans_status ans_json negb Z.eqb Pos.eqb].
  unfold HistoryJson, NodeOutput, VideoData in *.
  eexists. split; last first.
  - rewrite lookup_singleton_eq. cbn [he_outputs default from_option id].
    rewrite lookup_singleton_eq. cbn [default from_option id].
    rewrite lookup_singleton_eq. cbn [default from_option id].
    case_decide as Hv; [|reflexivity].
    apply (f_equal (λ v : VideoData, v !! "filename")) in Hv.
    by vm_compute in Hv.
  - by vm_compute.
Qed.


End Backend.

Section Download.
Variable cfg : Config.
Variable str : Exc → string.

(** X19.  What _download_result makes of the two answers of the backend
    and of writing the output file decides how the attempt ends: if it
    returns a path, the file was written and the job becomes Completed
    with that path as result_path, progress 100, completed_at set to the
    clock, and the task returns; if it raises, be it on an answer or on
    the file, the job becomes Failed with the text of the exception as
    error_message, result_path and progress staying as they were. *)
Theorem download_result_decides_the_outcome w key prompt_id j s
    (save : string → option Exc)
    (response : Answer HistoryJson) (view : ViewParams → Answer unit) :
  workers s !! w = Some (Busy key (Live (AtDownload prompt_id) false)) →
  jobs s !! key = Some j →
  ∃ s' j',
    step cfg
      (TaskResume w
         (download_resume cfg str save j prompt_id response view)) s
      = Some s' ∧
    jobs s' !! key = Some j' ∧
    match _download_result cfg save j prompt_id response view with
    | inr path =>
      save path = None ∧
      Job.status j' = COMPLETED ∧ Job.result_path j' = Some path ∧
      Job.progress j' = 100%Q ∧ Job.completed_at j' = Some (clock s) ∧
      workers s' !! w = Some (Busy key (Done Returned))
    | inl e =>
      Job.status j' = FAILED ∧ Job.error_message j' = Some (str e) ∧
      Job.result_path j' = Job.result_path j ∧
      Job.progress j' = Job.progress j
    end.
Proof.
  intros Hw Hj. unfold download_resume, _download_result.
  destruct (download_request prompt_id response) as [e|[video params]]
    eqn:Hreq; [by apply (download_raise_outcome cfg w key prompt_id)|].
  apply download_request_filename in Hreq as Hname.
  destruct (negb (ans_status (view params) =? 200)%Z);
    [by apply (download_raise_outcome cfg w key prompt_id)|].
  destruct (save _) as [e|] eqn:Hsave;
    [by apply (download_raise_outcome cfg w key prompt_id)|].
  rewrite Hname in *.
  destruct (download_done_outcome cfg w key prompt_id j s
              (video !! "filename") Hw Hj) as (s' & j' & H1 & H2 & H3).
  exists s', j'. by repeat (split; [done|]).
Qed.

(** X21.  The server against the mock backend of test_server.py.  A task
    that polls a prompt the mock has completed goes on to the download;
    the mock's history answer makes the server ask /view for
    ComfyUI_00001.mp4 in subfolder video with type output, which the mock
    answers with 200, so that the download can only fail on writing the
    output file: if the file is written the job becomes Completed with
    progress 100 and the path _download_result returns as result_path.
    While the mock has not completed the prompt, or once the prompt is
    deleted there, the poll sends the task back to sleep with the job's
    status unchanged, and a download tried for a deleted prompt raises
    with the 404 and the body of get_history. *)
Theorem job_completes_against_the_mock w key prompt_id start_time j s m
    (save : string → option Exc) :
  workers s !! w
    = Some (Busy key (Live (AtPoll prompt_id start_time) false)) →
  jobs s !! key = Some j →
  ∃ s1 j1,
    step cfg
      (TaskResume w (poll_resume prompt_id (Mock.get_history prompt_id m))) s
      = Some s1 ∧
    jobs s1 !! key = Some j1 ∧ Job.status j1 = Job.status j ∧
    match Mock.prompts m !! prompt_id with
    | Some p =>
      if String.eqb (Mock.status p) "completed" then
        workers s1 !! w = Some (Busy key (Live (AtDownload prompt_id) false)) ∧
        (∃ video,
           download_request prompt_id (Mock.get_history prompt_id m)
             = inr (video, {| vp_filename := "ComfyUI_00001.mp4";
                              vp_subfolder := "video";
                              vp_type := "output" |})) ∧
        (∀ name, ans_status
                   (Mock.view_file {| vp_filename := name;
                                      vp_subfolder := "video";
                                      vp_type := "output" |}) = 200%Z) ∧
        ∃ s2 j2,
          step cfg
            (TaskResume w
               (download_resume cfg str save j1 prompt_id
                  (Mock.get_history prompt_id m) Mock.view_file)) s1
            = Some s2 ∧
          jobs s2 !! key = Some j2 ∧
          match _download_result cfg save j1 prompt_id
                  (Mock.get_history prompt_id m) Mock.view_file with
          | inr path =>
            save path = None ∧ Job.status j2 = COMPLETED ∧
            Job.progress j2 = 100%Q ∧ Job.result_path j2 = Some path
          | inl e =>
            (∃ path, save path = Some e) ∧ Job.status j2 = FAILED ∧
            Job.error_message j2 = Some (str e)
          end
      else
        workers s1 !! w
          = Some (Busy key (Live (AtPollSleep prompt_id start_time) false))
    | None =>
      workers s1 !! w
        = Some (Busy key (Live (AtPollSleep prompt_id start_time) false)) ∧
      download_resume cfg str save j1 prompt_id
        (Mock.get_history prompt_id m) Mock.view_file
        = Raise (str (HTTPException 404
                        ("Failed to get history: "
                           ++ Mock.http_exception_body "Prompt not found")))
    end.
Proof.
  intros Hw Hj.
  assert (∃ j1 n,
            job_piece cfg (template s) (clock s)
              (AtPoll prompt_id start_time)
              (poll_resume prompt_id (Mock.get_history prompt_id m)) j
              = Some (j1, n) ∧
            Job.status j1 = Job.status j ∧ Job.id j1 = Job.id j ∧
            n = match Mock.prompts m !! prompt_id with
                | Some p =>
                  if String.eqb (Mock.status p) "completed"
                  then Suspend (AtDownload prompt_id)
                  else Suspend (AtPollSleep prompt_id start_time)
                | None => Suspend (AtPollSleep prompt_id start_time)
                end) as (j1 & n & Hpiece & Hst & Hid & Hn).
  { assert (poll_resume prompt_id (Mock.get_history prompt_id m)
            = match Mock.prompts m !! prompt_id with
              | Some p => History 200 (Some (Some (Mock.status p)))
              | None => History 404 None
              end) as ->.
    { unfold poll_resume, Mock.get_history.
      destruct (Mock.prompts m !! prompt_id) as [p|];
        cbn [ans_status ans_json]; unfold HistoryJson;
        [by rewrite lookup_singleton_eq | by rewrite lookup_empty]. }
    destruct (Mock.prompts m !! prompt_id) as [p|];
      unfold job_piece, history_completed.
    - destruct (String.eqb (Mock.status p) "completed");
        cbn [andb Z.eqb Pos.eqb];
        eexists _, _; (split; [reflexivity|]); done.
    - cbn [andb Z.eqb Pos.eqb]. eexists _, _. split; [reflexivity|]. done. }
  destruct (task_resume_piece cfg w key (AtPoll prompt_id start_time) _ s j
              j1 n Hw Hj Hpiece) as (s1 & Hs1 & Hjobs1 & Hws1 & _).
  exists s1, j1. split; [done|]. rewrite Hjobs1, lookup_insert_eq.
  do 2 (split; [done|]).
  assert (workers s1 !! w = Some (Busy key (task_of_next n))) as Hw1
    by (rewrite Hws1; by rewrite list_lookup_insert_eq
                         by (by eapply lookup_lt_Some)).
  destruct (Mock.prompts m !! prompt_id) as [p|] eqn:Hp.
  - destruct (String.eqb (Mock.status p) "completed"); subst n; [|done].
    split; [done|].
    destruct (mock_download_request prompt_id m p Hp) as (video & Hname & Hreq).
    split; [by exists video|]. split; [done|].
    assert (jobs s1 !! key = Some j1) as Hj1
      by (by rewrite Hjobs1, lookup_insert_eq).
    unfold download_resume, _download_result.
    rewrite Hreq. cbn [Mock.view_file vp_type vp_subfolder vp_filename].
    change (ans_status (Mock.view_file _)) with 200%Z.
    cbn [Z.eqb Pos.eqb negb].
    destruct (save _) as [e|] eqn:Hsave.
    + destruct (download_raise_outcome cfg w key prompt_id j1 s1 (str e)
                  Hw1 Hj1) as (s2 & j2 & H1 & H2 & H3 & H4 & _).
      exists s2, j2. repeat (split; [done|]). split; [by eexists | done].
    + destruct (download_done_outcome cfg w key prompt_id j1 s1
                  (Some "ComfyUI_00001.mp4") Hw1 Hj1)
        as (s2 & j2 & Hs2 & Hj2 & Hst2 & Hres & Hpr & _).
      exists s2, j2. rewrite Hname. by repeat (split; [done|]).
  - subst n. split; [done|].
    unfold download_resume, download_request, Mock.get_history.
    by rewrite Hp.
Qed.

End Download.

Section Submission.
Variable cfg : Config.
Variable str : Exc → string.

Lemma step_config e s s' :
  (∀ k0 j0, jobs s !! k0 = Some j0 → is_Some (Job.config j0)) →
  step cfg e s = Some s' →
  ∀ k0 j0, jobs s' !! k0 = Some j0 → is_Some (Job.config j0).
Proof.
  intros Hall Hstep k0 j0 Hj0.
  by_step_cases cfg Hstep;
    try (rewrite Hjobs in Hj0; by eapply Hall).
  - rewrite Hjobs in Hj0. destruct (decide (k0 = job_id)) as [->|Hne].
    + rewrite lookup_insert_eq in Hj0. by injection Hj0 as <-.
    + rewrite lookup_insert_ne in Hj0 by done. by eapply Hall.
  - rewrite Hjobs in Hj0. destruct (decide (k0 = key)) as [->|Hne].
    + rewrite lookup_insert_eq in Hj0. injection Hj0 as <-.
      apply job_piece_request in Hpiece as (_ & _ & _ & _ & -> & _).
      by eapply Hall.
    + rewrite lookup_insert_ne in Hj0 by done. by eapply Hall.
  - rewrite Hjobs in Hj0. destruct (decide (k0 = key)) as [->|Hne].
    + rewrite lookup_insert_eq in Hj0. injection Hj0 as <-. cbn.
      by eapply Hall.
    + rewrite lookup_insert_ne in Hj0 by done. by eapply Hall.
Qed.

Lemma reachable_config s key j :
  reachable cfg s → jobs s !! key = Some j → is_Some (Job.config j).
Proof.
  intros (t0 & tpl & up & out & es & Hes).
  assert (∀ key j, jobs (init_server cfg t0 tpl up out) !! key = Some j →
            is_Some (Job.config j)) as H0.
  { intros k0 j0. unfold init_server. sproj. by rewrite lookup_empty. }
  revert key j. revert H0 Hes. generalize (init_server cfg t0 tpl up out).
  induction es as [|e es IH]; intros s0 H0 Hex; cbn in Hex.
  - by injection Hex as <-.
  - destruct (step cfg e s0) as [s1|] eqn:Hs; [|done]. cbn in Hex.
    eapply IH; [|exact Hex]. by eapply step_config.
Qed.

(** X22.  Upload and submission against the mock backend.  In a
    reachable state, with the template file absent or readable, a task
    whose upload is answered by the mock's upload_image goes on to submit
    the default workflow; queue_prompt files it under the new identifier
    with the next number and status queued, and its answer makes the job
    Processing with that identifier as comfy_prompt_id and progress 50,
    the task polling from then on.  The only way the piece between upload
    and submission can fail is an unreadable template file. *)
Theorem job_is_submitted_to_the_mock w key j s m prompt_id :
  reachable cfg s →
  workers s !! w = Some (Busy key (Live AtUpload false)) →
  jobs s !! key = Some j →
  (∀ err, template s ≠ UnreadableTemplate err) →
  ∃ s1 s2 j2,
    step cfg
      (TaskResume w
         (upload_resume str
            (_upload_to_comfyui
               (Mock.upload_image (clock s) (Job.filename j))))) s
      = Some s1 ∧
    workers s1 !! w
      = Some (Busy key (Live (AtSubmit _get_default_workflow) false)) ∧
    step cfg
      (TaskResume w
         (queue_resume str
            (_queue_workflow
               (Mock.queue_answer
                  (Mock.queue_prompt prompt_id (clock s)
                     _get_default_workflow m).2)))) s1
      = Some s2 ∧
    jobs s2 !! key = Some j2 ∧ Job.status j2 = PROCESSING ∧
    Job.comfy_prompt_id j2 = Some prompt_id ∧ Job.progress j2 = 50%Q ∧
    workers s2 !! w
      = Some (Busy key (Live (AtPoll prompt_id (clock s)) false)) ∧
    ∃ p,
      Mock.prompts
        (Mock.queue_prompt prompt_id (clock s) _get_default_workflow m).1
        !! prompt_id = Some p ∧
      Mock.status p = "queued" ∧ Mock.number p = Mock.prompt_counter m ∧
      Mock.workflow p = _get_default_workflow.
Proof.
  intros Hr Hw Hj Htpl.
  destruct (reachable_config s key j Hr Hj) as [wc Hwc].
  assert (_generate_workflow (template s) (clock s)
            ("upload_" ++ pretty (int_of_Q (clock s)) ++ "_" ++ Job.filename j)
            (Job.config j) = inr _get_default_workflow) as Hgen.
  { rewrite Hwc. unfold _generate_workflow.
    destruct (template s) as [|c|err] eqn:E; try done. by destruct (Htpl err). }
  assert (_upload_to_comfyui (Mock.upload_image (clock s) (Job.filename j))
          = inr ("upload_" ++ pretty (int_of_Q (clock s)) ++ "_"
                   ++ Job.filename j)) as Hup by done.
  rewrite Hup. cbn [upload_resume].
  edestruct (task_resume_piece cfg w key AtUpload
               (Uploaded ("upload_" ++ pretty (int_of_Q (clock s)) ++ "_"
                            ++ Job.filename j)) s j)
    as (s1 & Hs1 & Hjobs1 & Hws1 & Hc1 & _);
    [done | done | cbn [job_piece]; rewrite Hgen; reflexivity |].
  assert (workers s1 !! w
          = Some (Busy key (Live (AtSubmit _get_default_workflow) false)))
    as Hw1 by (rewrite Hws1;
               by rewrite list_lookup_insert_eq by (by eapply lookup_lt_Some)).
  assert (_queue_workflow
            (Mock.queue_answer
               (Mock.queue_prompt prompt_id (clock s)
                  _get_default_workflow m).2) = inr prompt_id) as Hq.
  { unfold _queue_workflow, Mock.queue_answer, Mock.queue_prompt.
    cbn [snd ans_status ans_json Mock.qr_prompt_id negb Z.eqb Pos.eqb].
    by rewrite lookup_singleton_eq. }
  rewrite Hq. cbn [queue_resume].
  set (j1 := Job.set_status PROCESSING
               (Job.set_progress 40 (Job.set_progress 30 j))) in *.
  set (x := job_wait cfg (clock s1) prompt_id (clock s1)
              (Job.set_progress 50
                 (Job.set_comfy_prompt_id (Some prompt_id) j1))).
  destruct (task_resume_piece cfg w key (AtSubmit _get_default_workflow)
              (Queued prompt_id) s1 j1 x.1 x.2)
    as (s2 & Hs2 & Hjobs2 & Hws2 & _);
    [done | by rewrite Hjobs1, lookup_insert_eq
    | by cbn [job_piece]; fold x; destruct x |].
  exists s1, s2. eexists. repeat (split; [done|]).
  rewrite Hjobs2, lookup_insert_eq. split; [reflexivity|].
  rewrite Hws2, list_lookup_insert_eq by (by eapply lookup_lt_Some).
  subst x j1. rewrite Hc1. unfold job_wait.
  assert (Qltb (clock s - clock s) max_wait = true) as ->.
  { apply Qltb_true. unfold max_wait. lra. }
  cbn [fst snd task_of_next]. jproj. repeat (split; [done|]).
  eexists. unfold Mock.queue_prompt. cbn [fst Mock.prompts].
  rewrite lookup_insert_eq. split; [reflexivity|]. done.
Qed.

End Submission.

(** ** The backend at concrete runs *)

Lemma mock_prompts_are_well_formed_witness :
  Mock.p_id (mock_prompt mock_started "prompt-1") = "prompt-1" ∧
  (1 <= Mock.number (mock_prompt mock_started "prompt-1")
   < Mock.prompt_counter (mock_after mock_started))%Z ∧
  (∀ id2 p2, Mock.prompts (mock_after mock_started) !! id2 = Some p2 →
     Mock.number p2 = Mock.number (mock_prompt mock_started "prompt-1") →
     id2 = "prompt-1") ∧
  ∃ i k, Mock.tasks (mock_after mock_started) !! i = Some ("prompt-1", k) ∧
    (k ≤ Mock.sleeps)%nat ∧
    (Mock.status (mock_prompt mock_started "prompt-1") = "completed"
     ↔ k = Mock.sleeps) ∧
    (Mock.status (mock_prompt mock_started "prompt-1") = "queued"
     ↔ k ≠ Mock.sleeps) ∧
    Mock.progress (mock_prompt mock_started "prompt-1")
      = (10 * Z.of_nat (k - 2))%Z ∧
    (0 <= Mock.progress (mock_prompt mock_started "prompt-1") <= 100)%Z ∧
    (Mock.status (mock_prompt mock_started "prompt-1") = "completed" →
     Mock.progress (mock_prompt mock_started "prompt-1") = 100%Z).
Proof.
  apply (mock_prompts_are_well_formed (mock_after mock_started) "prompt-1").
  - exists mock_started. run.
  - run.
Defined.

Lemma mock_deleted_prompt_stays_deleted_witness :
  Mock.prompts
    (mock_after (mock_started ++ [Mock.Delete "prompt-1"; Mock.Wake 0]))
    !! "prompt-1" = None ∧
  ans_status
    (Mock.get_history "prompt-1"
       (mock_after (mock_started ++ [Mock.Delete "prompt-1"; Mock.Wake 0])))
    = 404%Z ∧
  ans_status
    (Mock.delete_prompt "prompt-1"
       (mock_after (mock_started ++ [Mock.Delete "prompt-1"; Mock.Wake 0]))).2
    = 404%Z ∧
  (Mock.delete_prompt "prompt-1"
     (mock_after (mock_started ++ [Mock.Delete "prompt-1"; Mock.Wake 0]))).1
  = mock_after (mock_started ++ [Mock.Delete "prompt-1"; Mock.Wake 0]).
Proof.
  apply (mock_deleted_prompt_stays_deleted [Mock.Wake 0]
           (mock_after mock_started)).
  - exists mock_started. run.
  - exists (mock_prompt mock_started "prompt-1"). run.
  - run.
Defined.

Lemma download_result_decides_the_outcome_witness :
  (∃ s' j',
     step CONFIG
       (TaskResume 0
          (download_resume CONFIG sample_str (λ _, None)
             (job_after downloading "job-1") "prompt-1"
             (Mock.get_history "prompt-1" (mock_after mock_completed))
             Mock.view_file))
       (state_after downloading) = Some s' ∧
     jobs s' !! "job-1" = Some j' ∧
     Job.status j' = COMPLETED ∧
     Job.result_path j' = Some "outputs/job-1_ComfyUI_00001.mp4") ∧
  (∃ s' j',
     step CONFIG
       (TaskResume 0
          (download_resume CONFIG sample_str
             (λ _, Some (OSError "No such file or directory"))
             (job_after downloading "job-1") "prompt-1"
             (Mock.get_history "prompt-1" (mock_after mock_completed))
             Mock.view_file))
       (state_after downloading) = Some s' ∧
     jobs s' !! "job-1" = Some j' ∧
     Job.status j' = FAILED ∧
     Job.error_message j' = Some "No such file or directory").
Proof.
  split.
  - destruct (download_result_decides_the_outcome CONFIG sample_str 0 "job-1"
                "prompt-1" (job_after downloading "job-1")
                (state_after downloading) (λ _, None)
                (Mock.get_history "prompt-1" (mock_after mock_completed))
                Mock.view_file) as (s' & j' & Hs' & Hj' & Hout); [run|run|].
    exists s', j'. split; [exact Hs'|]. split; [exact Hj'|].
    assert (_download_result CONFIG (λ _, None)
              (job_after downloading "job-1") "prompt-1"
              (Mock.get_history "prompt-1" (mock_after mock_completed))
              Mock.view_file
            = inr "outputs/job-1_ComfyUI_00001.mp4") as E by run.
    rewrite E in Hout. destruct Hout as (_ & Hst & Hres & _).
    split; [exact Hst | exact Hres].
  - destruct (download_result_decides_the_outcome CONFIG sample_str 0 "job-1"
                "prompt-1" (job_after downloading "job-1")
                (state_after downloading)
                (λ _, Some (OSError "No such file or directory"))
                (Mock.get_history "prompt-1" (mock_after mock_completed))
                Mock.view_file) as (s' & j' & Hs' & Hj' & Hout); [run|run|].
    exists s', j'. split; [exact Hs'|]. split; [exact Hj'|].
    assert (_download_result CONFIG
              (λ _, Some (OSError "No such file or directory"))
              (job_after downloading "job-1") "prompt-1"
              (Mock.get_history "prompt-1" (mock_after mock_completed))
              Mock.view_file
            = inl (OSError "No such file or directory")) as E by run.
    rewrite E in Hout. destruct Hout as (Hst & Hmsg & _).
    split; [exact Hst | exact Hmsg].
Defined.

Lemma job_completes_against_the_mock_witness :
  ∃ s1 j1 s2 j2,
    step CONFIG
      (TaskResume 0
         (poll_resume "prompt-1"
            (Mock.get_history "prompt-1" (mock_after mock_completed))))
      (state_after polling_again) = Some s1 ∧
    step CONFIG
      (TaskResume 0
         (download_resume CONFIG sample_str (λ _, None) j1 "prompt-1"
            (Mock.get_history "prompt-1" (mock_after mock_completed))
            Mock.view_file)) s1 = Some s2 ∧
    jobs s2 !! "job-1" = Some j2 ∧
    match _download_result CONFIG (λ _, None) j1 "prompt-1"
            (Mock.get_history "prompt-1" (mock_after mock_completed))
            Mock.view_file with
    | inr path => Job.status j2 = COMPLETED ∧ Job.result_path j2 = Some path
    | inl _ => False
    end.
Proof.
  destruct (job_completes_against_the_mock CONFIG sample_str 0 "job-1"
              "prompt-1" 1000 (job_after polling_again "job-1")
              (state_after polling_again) (mock_after mock_completed)
              (λ _, None))
    as (s1 & j1 & Hs1 & Hj1 & _ & Hm); [run|run|].
  assert (Mock.prompts (mock_after mock_completed) !! "prompt-1"
          = Some (mock_prompt mock_completed "prompt-1")) as E by run.
  rewrite E in Hm.
  change (String.eqb (Mock.status (mock_prompt mock_completed "prompt-1"))
            "completed") with true in Hm.
  destruct Hm as (_ & _ & _ & s2 & j2 & Hs2 & Hj2 & Hout).
  exists s1, j1, s2, j2.
  split; [exact Hs1|]. split; [exact Hs2|]. split; [exact Hj2|].
  destruct (_download_result _ _ _ _ _ _) as [e|path].
  - destruct Hout as ([path Hsave] & _). discriminate Hsave.
  - destruct Hout as (_ & Hst & _ & Hres). split; [exact Hst | exact Hres].
Defined.


Lemma job_is_submitted_to_the_mock_witness :
  ∃ s1 s2 j2,
    step CONFIG
      (TaskResume 0
         (upload_resume sample_str
            (_upload_to_comfyui
               (Mock.upload_image (clock (state_after uploading))
                  (Job.filename (job_after uploading "job-1"))))))
      (state_after uploading) = Some s1 ∧
    step CONFIG
      (TaskResume 0
         (queue_resume sample_str
            (_queue_workflow
               (Mock.queue_answer
                  (Mock.queue_prompt "prompt-2"
                     (clock (state_after uploading))
                     _get_default_workflow (mock_after mock_started)).2))))
      s1 = Some s2 ∧
    jobs s2 !! "job-1" = Some j2 ∧ Job.status j2 = PROCESSING ∧
    Job.comfy_prompt_id j2 = Some "prompt-2" ∧ Job.progress j2 = 50%Q.
Proof.
  destruct (job_is_submitted_to_the_mock CONFIG sample_str 0 "job-1"
              (job_after uploading "job-1") (state_after uploading)
              (mock_after mock_started) "prompt-2")
    as (s1 & s2 & j2 & Hs1 & _ & Hs2 & Hj2 & Hst & Hid & Hpr & _).
  - apply reachable_state_after. run.
  - run.
  - run.
  - intros err H. vm_compute in H. discriminate H.
  - exists s1, s2, j2. repeat (split; [assumption|]). exact Hpr.
Defined.

(** ** Status and progress *)

Section Bands.
Variable cfg : Config.

Lemma in_band_failed msg j :
  is_Some (Job.started_at j) → in_band (job_failed cfg msg j).1.
Proof.
  intros Hs. unfold job_failed, in_band. jproj.
  by destruct (Job.retry_count j <? max_retries cfg)%Z.
Qed.

Lemma in_band_wait now p st j :
  Job.status j = PROCESSING ∨ Job.status j = CANCELLED →
  is_Some (Job.started_at j) → in_band j →
  in_band (job_wait cfg now p st j).1 ∧
  match (job_wait cfg now p st j).2 with
  | Suspend a => at_status a (Job.status (job_wait cfg now p st j).1)
  | Finish _ => True
  end.
Proof.
  intros Hst Hs Hb. unfold job_wait.
  destruct (Qltb (now - st) max_wait); cbn [fst snd]; [done|].
  split; [by apply in_band_failed|].
  unfold job_failed. jproj.
  by destruct (Job.retry_count j <? max_retries cfg)%Z.
Qed.

Lemma job_failed_at_status msg j :
  match (job_failed cfg msg j).2 with
  | Suspend a => at_status a (Job.status (job_failed cfg msg j).1)
  | Finish _ => True
  end.
Proof.
  unfold job_failed. jproj.
  by destruct (Job.retry_count j <? max_retries cfg)%Z.
Qed.

Lemma job_piece_band tpl now a r j j' n :
  job_piece cfg tpl now a r j = Some (j', n) →
  at_written now a j → at_status a (Job.status j) → in_band j →
  in_band j' ∧
  match n with
  | Suspend a' => at_status a' (Job.status j')
  | Finish _ => True
  end.
Proof.
  intros H Hwr Hst Hb.
  destruct a as [| |wf|pid st|pid st|pid|], r as [|u|q|code entry|v|msg];
    cbn in H; try done; cbn in Hwr, Hst;
    try (injection H as H; apply pair_fst_snd in H as [<- <-];
         split; [apply in_band_failed; by destruct Hwr as [? ?] || done
                |apply job_failed_at_status]).
  - injection H as <- <-. split; [|by left]. unfold in_band. by jproj.
  - destruct (_generate_workflow tpl now u (Job.config j)) as [err|wf].
    + injection H as H. apply pair_fst_snd in H as [<- <-].
      split; [by apply in_band_failed | apply job_failed_at_status].
    + injection H as <- <-. split; [|by left]. unfold in_band. jproj.
      split; [lra|]. split; [lra | done].
  - injection H as H. apply pair_fst_snd in H as [<- <-].
    apply in_band_wait; jproj; try done.
    unfold in_band in *. jproj.
    destruct Hst as [E|E]; rewrite E in *; [|done].
    split; [lra|]. split; [lra | done].
  - destruct Hwr as (Hs & Hc & Ht).
    destruct (history_completed pid code entry); injection H as <- <-;
      (split; [|done]); unfold in_band in *; jproj;
      (destruct Hst as [E|E]; rewrite E in *; [|done]).
    + split; [lra|]. split; [lra | done].
    + pose proof (poll_lower_bound now st Ht).
      pose proof (poll_bound_le_80 now st).
      split; [lra|]. split; [lra | done].
  - destruct Hwr as (Hs & Hc & Ht).
    injection H as H. apply pair_fst_snd in H as [<- <-].
    by apply in_band_wait.
  - destruct Hwr as (Hs & Hc).
    injection H as <- <-. split; [|done]. unfold in_band. by jproj.
  - by injection H as <- <-.
Qed.

Lemma step_bands_ok e s s' :
  Inv s → records_ok s → bands_ok s → step cfg e s = Some s' → bands_ok s'.
Proof.
  intros HI [Hwritten _] [Hlive Hband] Hstep. by_step_cases cfg Hstep.
  - split.
    + intros w key a c j. rewrite Hworkers, Hjobs. by apply Hlive.
    + intros key j. rewrite Hjobs. apply Hband.
  - split.
    + intros w key a c j. rewrite Hworkers, Hjobs. intros H1 H2.
      destruct (inv_live _ _ _ _ HI w key a c H1) as (_ & jk & Hjk & _).
      rewrite lookup_insert_ne in H2 by congruence. by eapply Hlive.
    + intros key j. rewrite Hjobs.
      destruct (decide (key = job_id)) as [->|Hne].
      * rewrite lookup_insert_eq. intros [= <-].
        destruct Huntouched as (Hp & _). unfold in_band.
        by rewrite Hstatus.
      * rewrite lookup_insert_ne by done. apply Hband.
  - split; [|intros k j; rewrite Hjobs; apply Hband].
    intros w0 k a c j. rewrite Hjobs.
    destruct Hget as [(_ & -> & _)|(_ & -> & _)]; [by eapply Hlive|].
    destruct (decide (w0 = w)) as [->|Hne].
    + rewrite list_lookup_insert_eq
        by (by eapply lookup_lt_Some). by intros [= <- <- <-].
    + rewrite list_lookup_insert_ne by done. by eapply Hlive.
  - split; [|intros k j; rewrite Hjobs; apply Hband].
    intros w0 k a0 c j. rewrite Hjobs, Hworkers.
    destruct (decide (w0 = w)) as [->|Hne].
    + rewrite list_lookup_insert_eq
        by (by eapply lookup_lt_Some). done.
    + rewrite list_lookup_insert_ne by done. by eapply Hlive.
  - destruct (job_piece_band _ _ _ _ _ _ _ Hpiece
                (Hwritten _ _ _ _ _ Hworker Hjob)
                (Hlive _ _ _ _ _ Hworker Hjob) (Hband _ _ Hjob))
      as [Hb' Hn'].
    split.
    + intros w0 k a0 c j0. rewrite Hjobs, Hworkers.
      destruct (decide (w0 = w)) as [->|Hne].
      * rewrite list_lookup_insert_eq
          by (by eapply lookup_lt_Some).
        destruct n as [a'|res0]; cbn [task_of_next]; [|done].
        intros [= <- <- <-]. rewrite lookup_insert_eq. by intros [= <-].
      * rewrite list_lookup_insert_ne by done. intros H1.
        assert (k ≠ key) as Hk.
        { intros ->.
          by pose proof (inv_uniq _ _ _ _ HI _ _ _ _ _ _ _ H1 Hworker). }
        rewrite lookup_insert_ne by done. by eapply Hlive.
    + intros k j0. rewrite Hjobs.
      destruct (decide (k = key)) as [->|Hne].
      * rewrite lookup_insert_eq. by intros [= <-].
      * rewrite lookup_insert_ne by done. apply Hband.
  - split; [|intros k j; rewrite Hjobs; apply Hband].
    intros w0 k a0 c j. rewrite Hjobs, Hworkers.
    destruct (decide (w0 = w)) as [->|Hne].
    + rewrite list_lookup_insert_eq
        by (by eapply lookup_lt_Some). by destruct res.
    + rewrite list_lookup_insert_ne by done. by eapply Hlive.
  - assert (flagged key s s') as Hflag
      by (destruct Hcancel as [(_ & ? & _)|(_ & _ & ?)]; [by left | done]).
    split.
    + intros w0 k a0 c j0 H1. rewrite Hjobs.
      destruct (flagged_back _ _ _ _ _ _ _ Hflag H1) as [c0 H0].
      destruct (decide (k = key)) as [->|Hne].
      * rewrite lookup_insert_eq. intros [= <-]. jproj.
        destruct a0; cbn; auto.
      * rewrite lookup_insert_ne by done. by eapply Hlive.
    + intros k j0. rewrite Hjobs.
      destruct (decide (k = key)) as [->|Hne].
      * rewrite lookup_insert_eq. by intros [= <-].
      * rewrite lookup_insert_ne by done. apply Hband.
  - split; [|intros k j; rewrite Hjobs; apply Hband].
    intros w0 k a0 c j0 H1. rewrite Hjobs.
    destruct (flagged_back _ _ _ _ _ _ _ Hflag H1) as [c0 H0].
    by eapply Hlive.
Qed.

Lemma reachable_bands_ok s : reachable cfg s → bands_ok s.
Proof.
  intros (t0 & tpl & up & out & es & Hes).
  pose proof (init_Inv cfg t0 tpl up out) as HI.
  pose proof (init_records_ok cfg t0 tpl up out) as HR.
  assert (bands_ok (init_server cfg t0 tpl up out)) as HB.
  { split.
    - intros w key a c j Hw. unfold init_server in Hw. sproj.
      apply lookup_replicate in Hw as [? _]. done.
    - intros key j. unfold init_server. sproj. by rewrite lookup_empty. }
  revert HI HR HB Hes. generalize (init_server cfg t0 tpl up out).
  induction es as [|e es IH]; intros s0 HI HR HB Hex; cbn in Hex.
  - by injection Hex as <-.
  - destruct (step cfg e s0) as [s1|] eqn:Hs; [|done]. cbn in Hex.
    eapply IH; [..|exact Hex];
      [by eapply step_Inv | by eapply step_records_ok
      | by eapply step_bands_ok].
Qed.

(** X23.  In every reachable state the progress of a job fits its
    status: 0 when Pending, 10 when Uploading, between 40 and 80 when
    Processing, 100 when Completed; a Failed job carries an
    error_message; and a job that is Uploading, Processing, Completed or
    Failed has its started_at set. *)
Theorem progress_fits_status s key j :
  reachable cfg s → jobs s !! key = Some j →
  (Job.status j = PENDING → Job.progress j = 0%Q) ∧
  (Job.status j = UPLOADING → Job.progress j = 10%Q) ∧
  (Job.status j = PROCESSING →
     (40 <= Job.progress j)%Q ∧ (Job.progress j <= 80)%Q) ∧
  (Job.status j = COMPLETED → Job.progress j = 100%Q) ∧
  (Job.status j = FAILED → is_Some (Job.error_message j)) ∧
  (Job.status j ≠ PENDING → Job.status j ≠ CANCELLED →
     is_Some (Job.started_at j)).
Proof.
  intros Hr Hj. destruct (reachable_bands_ok s Hr) as [_ Hband].
  specialize (Hband key j Hj). unfold in_band in Hband.
  destruct (Job.status j); repeat split; try done; try (by destruct Hband);
    intros; by destruct Hband as (? & ? & ?).
Qed.

End Bands.

Lemma progress_fits_status_witness :
  (Job.status (job_after polling "job-1") = PENDING →
     Job.progress (job_after polling "job-1") = 0%Q) ∧
  (Job.status (job_after polling "job-1") = UPLOADING →
     Job.progress (job_after polling "job-1") = 10%Q) ∧
  (Job.status (job_after polling "job-1") = PROCESSING →
     (40 <= Job.progress (job_after polling "job-1"))%Q ∧
     (Job.progress (job_after polling "job-1") <= 80)%Q) ∧
  (Job.status (job_after polling "job-1") = COMPLETED →
     Job.progress (job_after polling "job-1") = 100%Q) ∧
  (Job.status (job_after polling "job-1") = FAILED →
     is_Some (Job.error_message (job_after polling "job-1"))) ∧
  (Job.status (job_after polling "job-1") ≠ PENDING →
   Job.status (job_after polling "job-1") ≠ CANCELLED →
     is_Some (Job.started_at (job_after polling "job-1"))).
Proof.
  apply (progress_fits_status CONFIG (state_after polling) "job-1").
  - apply reachable_state_after. run.
  - run.
Defined.
